(** * create-discord-bot: a shallow embedding of [src/index.js]

    The program is a short interactive script: it asks for an application
    name, decides between creating a fresh project and updating an existing
    one, builds an ordered list of steps and runs them.  Everything it does is
    a side effect on the terminal, the file system or a child process, so the
    embedding threads an explicit [world] (file tree, working directory, what
    the user is going to type, and the trace of everything that happened)
    through a small monad whose computations end normally, with a thrown
    value, or with [process.exit].

    What the script calls but does not define is modelled by its contract:
    [JSON.parse] and [JSON.stringify], the [fs] and [fs-extra] calls, the
    [prompts] library.  What it cannot know is taken from an environment
    [Env]: the command line, the two manifests loaded with [require], the
    package-name validator and the child processes.

    Layout.  Definitions: text helpers, paths, JSON, the file tree, the world
    and its monad, the prompts, the program, a concrete environment to run
    it on, and the notions the statements use.  Properties: lemmas on the
    runner, the lookup, the prompts, the flow of a run and the file tree,
    with the theorems for the claims next to the lemmas they rest on:

    - C1  [C1_every_exit_has_status_zero]          the exit status
    - C2  [C2_declined_update_changes_nothing]     a declined update
    - C3  [C3_create_plan_files]                   the files of a new project
    - C4  [C4_manifest_keeps_other_fields]         the rewritten manifest
    - C5  [C5_dry_run_prints_no_line_for_such_an_identifier]  the dry run
    - C6  [C6_malformed_identifier_is_returned]    the identity lookup
    - C7  [C7_failure_stops_the_plan]              a failing step
    - C8  [C8_invalid_names_are_asked_again]       the name prompt
    - C9  [C9_update_is_idempotent]                the update plan
    - C10 [C10_falsy_identifier_reads_as_failure]  a falsy identifier

    Further properties of the script come after the claims: what the
    prompts' answers lead to (X1, X4 to X8), the installer and the lookup's
    result (X3, X15), what a run leaves alone (X9, X10, X13), what a
    creation has made, what an update makes of it and where an update fails
    (X11, X12, X16), and the manifest read back by [JSON.parse] (X14).  What
    the dry run and the lookup do for every answer of the API (X17, X18)
    stands with the claims about them.

    What the embedding leaves out.  The [fs] calls fail for the reasons the
    file tree gives (a missing parent, a file in the way, kinds that clash),
    not for those of the machine (permissions, a full or read-only disk):
    the theorems say what a call that went through has done, or that a call
    fails for a reason in the tree.  A copy takes the source as it is when
    the call starts; where it matters the statements keep source and
    destination apart.  A child process is known by its command line, the
    file tree it leaves and its output; what it writes to the terminal
    itself is not recorded. *)

From Stdlib Require Import String Ascii List ZArith NArith Bool Lia.
Import ListNotations.

Open Scope string_scope.
Open Scope list_scope.

#[export] Set Warnings "-register-all".
Set Default Proof Using "Type".

Notation "a +++ b" := (String.append a b)
  (at level 60, right associativity).

(* ------------------------------------------------------------------ *)
(** ** Text helpers *)

Module Text.

Definition code (c : ascii) : N := N_of_ascii c.
Definition chr (n : N) : ascii := ascii_of_N n.

(** [s.split(sep)] for a one-character separator. *)
Fixpoint split_on (sep : ascii) (s : string) : list string :=
  match s with
  | EmptyString => [EmptyString]
  | String c s' =>
      if Ascii.eqb c sep then EmptyString :: split_on sep s'
      else match split_on sep s' with
           | [] => [String c EmptyString]
           | h :: t => String c h :: t
           end
  end.

(** [Array.prototype.join] on an array of strings. *)
Definition join (sep : string) (l : list string) : string :=
  String.concat sep l.

Definition starts_with_char (c : ascii) (s : string) : bool :=
  match s with
  | String c' _ => Ascii.eqb c c'
  | EmptyString => false
  end.

Definition hex_digit (n : N) : ascii :=
  if (n <? 10)%N then chr (48 + n) else chr (87 + n).

(** Four lower-case hexadecimal digits, as in a [\uXXXX] escape. *)
Definition hex4 (n : N) : string :=
  String (hex_digit ((n / 4096) mod 16))
    (String (hex_digit ((n / 256) mod 16))
       (String (hex_digit ((n / 16) mod 16))
          (String (hex_digit (n mod 16)) EmptyString))).

Definition hex_value (c : ascii) : option N :=
  let n := code c in
  if ((48 <=? n) && (n <=? 57))%N then Some (n - 48)%N
  else if ((97 <=? n) && (n <=? 102))%N then Some (n - 87)%N
  else if ((65 <=? n) && (n <=? 70))%N then Some (n - 55)%N
  else None.

Definition digit_value (c : ascii) : option N :=
  let n := code c in
  if ((48 <=? n) && (n <=? 57))%N then Some (n - 48)%N else None.

(** UTF-8 bytes of a code point; a lone surrogate gets the three-byte form. *)
Definition utf8_encode (cp : N) : string :=
  if (cp <? 128)%N then String (chr cp) EmptyString
  else if (cp <? 2048)%N then
    String (chr (192 + cp / 64)) (String (chr (128 + cp mod 64)) EmptyString)
  else if (cp <? 65536)%N then
    String (chr (224 + cp / 4096))
      (String (chr (128 + (cp / 64) mod 64))
         (String (chr (128 + cp mod 64)) EmptyString))
  else
    String (chr (240 + cp / 262144))
      (String (chr (128 + (cp / 4096) mod 64))
         (String (chr (128 + (cp / 64) mod 64))
            (String (chr (128 + cp mod 64)) EmptyString))).

End Text.

(* ------------------------------------------------------------------ *)
(** ** Paths

    An absolute, normalised path is the list of its components; the root is
    the empty list. *)

Module Path.

Definition path := list string.

Definition to_string (p : path) : string :=
  "/" +++ Text.join "/" p.

(** One component of [path.resolve]'s normalisation. *)
Definition normalize_step (acc : path) (c : string) : path :=
  if String.eqb c "" then acc
  else if String.eqb c "." then acc
  else if String.eqb c ".." then removelast acc
  else acc ++ [c].

(** [path.resolve(s)] with the working directory [cwd] (POSIX). *)
Definition resolve (cwd : path) (s : string) : path :=
  fold_left normalize_step (Text.split_on "/" s)
    (if Text.starts_with_char "/" s then [] else cwd).

(** [path.join(p, "../" + c)]. *)
Definition sibling (p : path) (c : string) : path := removelast p ++ [c].

Fixpoint is_prefix (p q : path) : bool :=
  match p, q with
  | [], _ => true
  | _ :: _, [] => false
  | a :: p', b :: q' => String.eqb a b && is_prefix p' q'
  end.

(** Neither path lies on the other's branch. *)
Definition apart (p q : path) : bool :=
  negb (is_prefix p q) && negb (is_prefix q p).

End Path.

Export Path(path).

(* ------------------------------------------------------------------ *)
(** ** JSON values, [JSON.parse] and [JSON.stringify]

    Strings are byte strings holding UTF-8 text.  A number keeps the exact
    decimal value of its literal, [(-1)^neg * mant * 10^exp10]; JavaScript
    rounds it to the nearest double, which matters to the program in two
    places only: whether the number is zero (truthiness) and how it prints.
    The first is decided exactly below; the second, [Number::toString], is
    left to the environment. *)

Module Json.

Record number := { neg : bool; mant : N; exp10 : Z }.

Inductive json :=
| JNull
| JBool (b : bool)
| JNumber (n : number)
| JString (s : string)
| JArray (items : list json)
| JObject (fields : list (string * json)).

(** A JavaScript value that may be [undefined]. *)
Definition jsval := option json.
Definition undefined : jsval := None.

(** The double nearest to the literal is [+0] or [-0]: the literal is zero or
    at most [2^-1075], half the smallest subnormal. *)
Definition rounds_to_zero (n : number) : bool :=
  (mant n =? 0)%N
  || ((exp10 n <? 0)%Z
      && (Z.of_N (mant n) * 2 ^ 1075 <=? 10 ^ (- exp10 n))%Z).

(** The double nearest to the literal is finite: the literal is below
    [2^1024 - 2^970]. *)
Definition is_finite (n : number) : bool :=
  let limit := (2 ^ 1024 - 2 ^ 970)%Z in
  if (0 <=? exp10 n)%Z then (Z.of_N (mant n) * 10 ^ exp10 n <? limit)%Z
  else (Z.of_N (mant n) <? limit * 10 ^ (- exp10 n))%Z.

(** [ToBoolean]. *)
Definition truthy (v : json) : bool :=
  match v with
  | JNull => false
  | JBool b => b
  | JNumber n => negb (rounds_to_zero n)
  | JString s => negb (String.eqb s "")
  | JArray _ => true
  | JObject _ => true
  end.

Definition truthy_val (v : jsval) : bool :=
  match v with
  | Some j => truthy j
  | None => false
  end.

(** *** Objects: association lists in property order, keys unique *)

Fixpoint obj_get (k : string) (o : list (string * json)) : jsval :=
  match o with
  | [] => None
  | (k', v) :: o' => if String.eqb k k' then Some v else obj_get k o'
  end.

(** Defining a property: an existing key keeps its place, a new one goes
    last. *)
Fixpoint obj_set (k : string) (v : json) (o : list (string * json))
  : list (string * json) :=
  match o with
  | [] => [(k, v)]
  | (k', v') :: o' =>
      if String.eqb k k' then (k, v) :: o' else (k', v') :: obj_set k v o'
  end.

Definition keys (o : list (string * json)) : list string := map fst o.

Definition dquote : ascii := Text.chr 34.

Section Printing.

(** [Number::toString] on the double nearest to the literal. *)
Variable Number_toString : number -> string.

(** All the texts, when every one is there. *)
Fixpoint all_texts (l : list (option string)) : option (list string) :=
  match l with
  | [] => Some []
  | None :: _ => None
  | Some s :: r =>
      match all_texts r with
      | Some ss => Some (s :: ss)
      | None => None
      end
  end.

(** [ToString], as a template literal applies it; [None] is the [TypeError]
    it throws.  A parsed object has no method of its own: it converts
    through [Object.prototype.toString], unless it has a property [toString]
    of its own, and then neither that property nor [valueOf] yields a
    primitive.  An array converts through [join], which converts every
    element but [null]. *)
Fixpoint to_string (v : json) : option string :=
  match v with
  | JNull => Some "null"
  | JBool true => Some "true"
  | JBool false => Some "false"
  | JNumber n => Some (Number_toString n)
  | JString s => Some s
  | JArray items =>
      match all_texts (map (fun x => match x with
                                     | JNull => Some EmptyString
                                     | _ => to_string x
                                     end) items) with
      | Some texts => Some (Text.join "," texts)
      | None => None
      end
  | JObject fields =>
      match obj_get "toString" fields with
      | Some _ => None
      | None => Some "[object Object]"
      end
  end.

Definition to_string_val (v : jsval) : option string :=
  match v with
  | Some j => to_string j
  | None => Some "undefined"
  end.

(** One character of [QuoteJSONString]. *)
Definition escape_char (c : ascii) : string :=
  let n := Text.code c in
  if (n =? 34)%N then String "\" (String dquote EmptyString)
  else if (n =? 92)%N then "\\"
  else if (n =? 8)%N then "\b"
  else if (n =? 9)%N then "\t"
  else if (n =? 10)%N then "\n"
  else if (n =? 12)%N then "\f"
  else if (n =? 13)%N then "\r"
  else if (n <? 32)%N then "\u" +++ Text.hex4 n
  else String c EmptyString.

(** The three bytes [c1 c2 c3] hold a lone surrogate. *)
Definition lone_surrogate (c1 c2 : ascii) : bool :=
  ((Text.code c1 =? 237) && (160 <=? Text.code c2))%N.

Definition surrogate_unit (c2 c3 : ascii) : N :=
  (55296 + (Text.code c2 - 160) * 64 + (Text.code c3 - 128))%N.

(** [QuoteJSONString]: the body, without the surrounding quotes. *)
Fixpoint quote_chars (s : string) : string :=
  match s with
  | EmptyString => EmptyString
  | String c r =>
      match r with
      | String c2 (String c3 r3) =>
          if lone_surrogate c c2
          then "\u" +++ Text.hex4 (surrogate_unit c2 c3) +++ quote_chars r3
          else escape_char c +++ quote_chars r
      | _ => escape_char c +++ quote_chars r
      end
  end.

Definition quote (s : string) : string :=
  String dquote (quote_chars s +++ String dquote EmptyString).

Definition newline : string := String (Text.chr 10) EmptyString.

(** [SerializeJSONProperty] with the gap [gap]; [indent] is the current
    indentation. *)
Fixpoint serialize (gap indent : string) (v : json) : string :=
  let inner := indent +++ gap in
  let sep := "," +++ newline +++ inner in
  match v with
  | JNull => "null"
  | JBool true => "true"
  | JBool false => "false"
  | JNumber n => if is_finite n then Number_toString n else "null"
  | JString s => quote s
  | JArray [] => "[]"
  | JArray items =>
      "[" +++ newline +++ inner
        +++ Text.join sep (map (serialize gap inner) items)
        +++ newline +++ indent +++ "]"
  | JObject [] => "{}"
  | JObject fields =>
      "{" +++ newline +++ inner
        +++ Text.join sep
              (map (fun kv => quote (fst kv) +++ ": "
                                +++ serialize gap inner (snd kv)) fields)
        +++ newline +++ indent +++ "}"
  end.

(** [JSON.stringify(v, null, 2)]. *)
Definition stringify2 (v : json) : string := serialize "  " "" v.

End Printing.

(** *** [JSON.parse] *)

Definition is_ws (c : ascii) : bool :=
  let n := Text.code c in
  ((n =? 32) || (n =? 9) || (n =? 10) || (n =? 13))%N.

Fixpoint skip_ws (s : string) : string :=
  match s with
  | String c r => if is_ws c then skip_ws r else s
  | EmptyString => EmptyString
  end.

(** The digits at the head of [s], folded into [acc]; their count; the rest. *)
Fixpoint take_digits (s : string) (acc : N) : N * Z * string :=
  match s with
  | String c r =>
      match Text.digit_value c with
      | Some d =>
          let '(m, k, rest) := take_digits r (acc * 10 + d)%N in
          (m, (k + 1)%Z, rest)
      | None => (acc, 0%Z, s)
      end
  | EmptyString => (acc, 0%Z, s)
  end.

(** The integer part: a single [0], or a digit string that does not start
    with [0]. *)
Definition parse_int (s : string) : option (N * string) :=
  match s with
  | String c r =>
      match Text.digit_value c with
      | Some 0%N => Some (0%N, r)
      | Some _ => let '(m, _, rest) := take_digits s 0 in Some (m, rest)
      | None => None
      end
  | EmptyString => None
  end.

(** The optional fraction: the mantissa with the fraction's digits and how
    many they are. *)
Definition parse_frac (m : N) (s : string) : option (N * Z * string) :=
  match s with
  | String "." r =>
      let '(m', k, rest) := take_digits r m in
      if (k =? 0)%Z then None else Some (m', k, rest)
  | _ => Some (m, 0%Z, s)
  end.

Definition parse_exp (s : string) : option (Z * string) :=
  let digits (negative : bool) (r : string) :=
    let '(e, k, rest) := take_digits r 0 in
    if (k =? 0)%Z then None
    else Some (if negative then (- Z.of_N e)%Z else Z.of_N e, rest) in
  match s with
  | String c r =>
      if Ascii.eqb c "e" || Ascii.eqb c "E" then
        match r with
        | String "+" r' => digits false r'
        | String "-" r' => digits true r'
        | _ => digits false r
        end
      else Some (0%Z, s)
  | EmptyString => Some (0%Z, s)
  end.

Definition parse_number (s : string) : option (number * string) :=
  let '(negative, s1) :=
    match s with
    | String "-" r => (true, r)
    | _ => (false, s)
    end in
  match parse_int s1 with
  | Some (m, s2) =>
      match parse_frac m s2 with
      | Some (m', k, s3) =>
          match parse_exp s3 with
          | Some (e, s4) =>
              Some ({| neg := negative; mant := m'; exp10 := (e - k)%Z |}, s4)
          | None => None
          end
      | None => None
      end
  | None => None
  end.

Definition hex4_value (a b c d : ascii) : option N :=
  match Text.hex_value a, Text.hex_value b, Text.hex_value c, Text.hex_value d
  with
  | Some x, Some y, Some z, Some w => Some (x * 4096 + y * 256 + z * 16 + w)%N
  | _, _, _, _ => None
  end.

Definition is_high_surrogate (u : N) : bool := ((55296 <=? u) && (u <=? 56319))%N.
Definition is_low_surrogate (u : N) : bool := ((56320 <=? u) && (u <=? 57343))%N.

Definition prepend (t : string) (r : option (string * string))
  : option (string * string) :=
  match r with
  | Some (body, rest) => Some (t +++ body, rest)
  | None => None
  end.

(** The characters of a string literal after its opening quote, up to and
    including the closing quote. *)
Fixpoint parse_chars (s : string) : option (string * string) :=
  match s with
  | EmptyString => None
  | String c r =>
      if Ascii.eqb c dquote then Some (EmptyString, r)
      else if Ascii.eqb c "\" then
        match r with
        | String e r1 =>
            let simple (n : N) :=
              prepend (String (Text.chr n) EmptyString) (parse_chars r1) in
            if Ascii.eqb e dquote then simple 34%N
            else if Ascii.eqb e "\" then simple 92%N
            else if Ascii.eqb e "/" then simple 47%N
            else if Ascii.eqb e "b" then simple 8%N
            else if Ascii.eqb e "f" then simple 12%N
            else if Ascii.eqb e "n" then simple 10%N
            else if Ascii.eqb e "r" then simple 13%N
            else if Ascii.eqb e "t" then simple 9%N
            else if Ascii.eqb e "u" then
              match r1 with
              | String h1 (String h2 (String h3 (String h4 r5))) =>
                  match hex4_value h1 h2 h3 h4 with
                  | Some u =>
                      let alone :=
                        prepend (Text.utf8_encode u) (parse_chars r5) in
                      match r5 with
                      | String b (String v
                          (String l1 (String l2 (String l3 (String l4 r11)))))
                        =>
                          match hex4_value l1 l2 l3 l4 with
                          | Some w =>
                              if Ascii.eqb b "\" && Ascii.eqb v "u"
                                 && is_high_surrogate u && is_low_surrogate w
                              then
                                prepend
                                  (Text.utf8_encode
                                     (65536 + (u - 55296) * 1024
                                      + (w - 56320))%N)
                                  (parse_chars r11)
                              else alone
                          | None => alone
                          end
                      | _ => alone
                      end
                  | None => None
                  end
              | _ => None
              end
            else None
        | EmptyString => None
        end
      else if (Text.code c <? 32)%N then None
      else prepend (String c EmptyString) (parse_chars r)
  end.

(** [s] starts with [lit]: what follows it. *)
Fixpoint expect (lit s : string) : option string :=
  match lit, s with
  | EmptyString, _ => Some s
  | String a lit', String b s' => if Ascii.eqb a b then expect lit' s' else None
  | String _ _, EmptyString => None
  end.

(** The recursive-descent parser.  Every call spends one unit of [fuel];
    between two calls on the same text at least one character is consumed
    every second call, so twice the length of the text is enough. *)
Fixpoint parse_value (fuel : nat) (s : string) {struct fuel}
  : option (json * string) :=
  match fuel with
  | O => None
  | S f =>
      match skip_ws s with
      | EmptyString => None
      | String c r =>
          if Ascii.eqb c "{" then
            match skip_ws r with
            | String "}" r' => Some (JObject [], r')
            | _ => parse_members f r []
            end
          else if Ascii.eqb c "[" then
            match skip_ws r with
            | String "]" r' => Some (JArray [], r')
            | _ => parse_elements f r []
            end
          else if Ascii.eqb c dquote then
            match parse_chars r with
            | Some (str, r') => Some (JString str, r')
            | None => None
            end
          else if Ascii.eqb c "t" then
            option_map (fun r' => (JBool true, r')) (expect "rue" r)
          else if Ascii.eqb c "f" then
            option_map (fun r' => (JBool false, r')) (expect "alse" r)
          else if Ascii.eqb c "n" then
            option_map (fun r' => (JNull, r')) (expect "ull" r)
          else
            match parse_number (String c r) with
            | Some (n, r') => Some (JNumber n, r')
            | None => None
            end
      end
  end

with parse_elements (fuel : nat) (s : string) (acc : list json) {struct fuel}
  : option (json * string) :=
  match fuel with
  | O => None
  | S f =>
      match parse_value f s with
      | Some (v, r) =>
          match skip_ws r with
          | String "," r' => parse_elements f r' (acc ++ [v])
          | String "]" r' => Some (JArray (acc ++ [v]), r')
          | _ => None
          end
      | None => None
      end
  end

with parse_members (fuel : nat) (s : string) (acc : list (string * json))
  {struct fuel} : option (json * string) :=
  match fuel with
  | O => None
  | S f =>
      match skip_ws s with
      | String c r =>
          if Ascii.eqb c dquote then
            match parse_chars r with
            | Some (k, r1) =>
                match skip_ws r1 with
                | String ":" r2 =>
                    match parse_value f r2 with
                    | Some (v, r3) =>
                        match skip_ws r3 with
                        | String "," r4 => parse_members f r4 (obj_set k v acc)
                        | String "}" r4 => Some (JObject (obj_set k v acc), r4)
                        | _ => None
                        end
                    | None => None
                    end
                | _ => None
                end
            | None => None
            end
          else None
      | EmptyString => None
      end
  end.

(** [JSON.parse(s)]; [None] is a [SyntaxError]. *)
Definition parse (s : string) : option json :=
  match parse_value (2 * String.length s + 2) s with
  | Some (v, rest) =>
      match skip_ws rest with
      | EmptyString => Some v
      | String _ _ => None
      end
  | None => None
  end.

End Json.

Export Json(json, jsval, JNull, JBool, JNumber, JString, JArray, JObject).

(* ------------------------------------------------------------------ *)
(** ** Thrown values *)

Inductive exn :=
| ThrownString (s : string)                       (* [throw "..."] *)
| TypeError (message : string)
| SyntaxError
| SystemError (code : string) (p : path)          (* ENOENT, EEXIST, ... *)
| CopyError (message : string)                    (* raised by fs-extra *)
| ExecError (command : string).                   (* non-zero exit status *)

Inductive outcome (A : Type) :=
| Ok (a : A)
| Err (e : exn).
Arguments Ok {A} a.
Arguments Err {A} e.

(* ------------------------------------------------------------------ *)
(** ** The file tree and the [fs] / [fs-extra] calls of the script

    A directory lists its entries in the order they were created.  Files
    carry their contents only: owners, modes, links and timestamps are left
    out, and with them the failures they cause ([EACCES], [EROFS],
    [ENOSPC]).  A call fails here when the tree itself makes it fail. *)

Module Fs.

Inductive node :=
| File (data : string)
| Dir (entries : list (string * node)).

Fixpoint lookup (name : string) (es : list (string * node)) : option node :=
  match es with
  | [] => None
  | (n, x) :: es' => if String.eqb name n then Some x else lookup name es'
  end.

(** Bind [name] to [x]: in place when the name is taken, last otherwise. *)
Fixpoint bind_entry (name : string) (x : node) (es : list (string * node))
  : list (string * node) :=
  match es with
  | [] => [(name, x)]
  | (n, y) :: es' =>
      if String.eqb name n then (n, x) :: es' else (n, y) :: bind_entry name x es'
  end.

Fixpoint get (p : path) (t : node) : option node :=
  match p with
  | [] => Some t
  | c :: p' =>
      match t with
      | Dir es =>
          match lookup c es with
          | Some x => get p' x
          | None => None
          end
      | File _ => None
      end
  end.

(** Replace (or add) the node at [p]; every proper ancestor of [p] must be a
    directory that is already there. *)
Fixpoint put (p : path) (x : node) (t : node) : option node :=
  match p with
  | [] => Some x
  | c :: p' =>
      match t with
      | Dir es =>
          let sub :=
            match p' with
            | [] => Some x
            | _ :: _ =>
                match lookup c es with
                | Some y => put p' x y
                | None => None
                end
            end in
          match sub with
          | Some y => Some (Dir (bind_entry c y es))
          | None => None
          end
      | File _ => None
      end
  end.

Inductive stat := IsFile | IsDir | NoEnt | NotDir.

Definition kind (t : node) : stat :=
  match t with
  | File _ => IsFile
  | Dir _ => IsDir
  end.

(** What [fs.statSync(p)] finds: a file, a directory, nothing ([ENOENT]), or
    a file where a directory was needed on the way ([ENOTDIR]). *)
Fixpoint stat_at (p : path) (t : node) : stat :=
  match p with
  | [] => kind t
  | c :: p' =>
      match t with
      | Dir es =>
          match lookup c es with
          | Some x => stat_at p' x
          | None => NoEnt
          end
      | File _ => NotDir
      end
  end.

Definition existsSync (p : path) (t : node) : bool :=
  match get p t with
  | Some _ => true
  | None => false
  end.

Definition readFile (p : path) (t : node) : option string :=
  match get p t with
  | Some (File data) => Some data
  | _ => None
  end.

Definition is_dir (p : path) (t : node) : bool :=
  match get p t with
  | Some (Dir _) => true
  | _ => false
  end.

Definition put_or (code : string) (p : path) (x : node) (t : node)
  : outcome node :=
  match put p x t with
  | Some t' => Ok t'
  | None => Err (SystemError code p)
  end.

(** [fs.mkdirSync(p)], not recursive. *)
Definition mkdirSync (p : path) (t : node) : outcome node :=
  match stat_at p t with
  | IsFile | IsDir => Err (SystemError "EEXIST" p)
  | NotDir => Err (SystemError "ENOTDIR" p)
  | NoEnt =>
      if is_dir (removelast p) t then put_or "ENOENT" p (Dir []) t
      else Err (SystemError "ENOENT" p)
  end.

(** [fs.writeFileSync(p, data)]. *)
Definition writeFileSync (p : path) (data : string) (t : node) : outcome node :=
  match stat_at p t with
  | IsDir => Err (SystemError "EISDIR" p)
  | NotDir => Err (SystemError "ENOTDIR" p)
  | IsFile => put_or "ENOENT" p (File data) t
  | NoEnt =>
      if is_dir (removelast p) t then put_or "ENOENT" p (File data) t
      else Err (SystemError "ENOENT" p)
  end.

(** [mkdirsSync(p)]: create [p] and the ancestors it lacks. *)
Fixpoint mkdirs (whole p : path) (t : node) : outcome node :=
  match t with
  | File _ => Err (SystemError "ENOTDIR" whole)
  | Dir es =>
      match p with
      | [] => Ok t
      | c :: p' =>
          let sub :=
            match lookup c es with
            | Some x => x
            | None => Dir []
            end in
          match mkdirs whole p' sub with
          | Ok y => Ok (Dir (bind_entry c y es))
          | Err e => Err e
          end
      end
  end.

Definition cannot_overwrite_dir : exn :=
  CopyError "Cannot overwrite directory with non-directory.".
Definition cannot_overwrite_file : exn :=
  CopyError "Cannot overwrite non-directory with directory.".
Definition same_path : exn :=
  CopyError "Source and destination must not be the same.".
Definition into_itself : exn :=
  CopyError "Cannot copy to a subdirectory of itself.".

Section CopyItems.

Variable copy : node -> option node -> node * option exn.

(** [copyDir]: the items of the source directory, one after the other,
    into the entries [acc] of the destination; the first failure stops the
    copy and what was copied stays. *)
Fixpoint copy_items (items acc : list (string * node))
  : list (string * node) * option exn :=
  match items with
  | [] => (acc, None)
  | (name, child) :: rest =>
      match copy child (lookup name acc) with
      | (child', None) => copy_items rest (bind_entry name child' acc)
      | (child', Some e) => (bind_entry name child' acc, Some e)
      end
  end.

End CopyItems.

(** Copy the tree [s] onto what the destination holds ([d], if anything):
    the destination afterwards, and the error that stopped the copy if one
    did.  Files are overwritten, directories merged. *)
Fixpoint copy_node (s : node) (d : option node) : node * option exn :=
  match s with
  | File data =>
      match d with
      | Some (Dir es) => (Dir es, Some cannot_overwrite_dir)
      | _ => (File data, None)
      end
  | Dir items =>
      match d with
      | Some (File x) => (File x, Some cannot_overwrite_file)
      | Some (Dir es) =>
          let '(es', e) := copy_items copy_node items es in (Dir es', e)
      | None =>
          let '(es', e) := copy_items copy_node items [] in (Dir es', e)
      end
  end.

Fixpoint path_eqb (p q : path) : bool :=
  match p, q with
  | [], [] => true
  | a :: p', b :: q' => String.eqb a b && path_eqb p' q'
  | _, _ => false
  end.

(** [fs-extra]'s [copySync(src, dest)] with its default options.  The tree
    copied is the one found at [src] when the call starts, which is what
    [fs-extra] copies whenever source and destination do not lie inside one
    another. *)
Definition copySync (src dest : path) (t : node) : node * option exn :=
  match get src t with
  | None =>
      (t, Some (SystemError
                  match stat_at src t with
                  | NotDir => "ENOTDIR"
                  | _ => "ENOENT"
                  end src))
  | Some s =>
      match stat_at dest t with
      | NotDir => (t, Some (SystemError "ENOTDIR" dest))
      | st =>
          if path_eqb src dest then (t, Some same_path)
          else
            match s, st with
            | Dir _, IsFile => (t, Some cannot_overwrite_file)
            | File _, IsDir => (t, Some cannot_overwrite_dir)
            | _, _ =>
                if match s with Dir _ => Path.is_prefix src dest | _ => false end
                then (t, Some into_itself)
                else
                  let parent := removelast dest in
                  match (if existsSync parent t then Ok t
                         else mkdirs parent parent t) with
                  | Err e => (t, Some e)
                  | Ok t1 =>
                      let '(r, e) := copy_node s (get dest t1) in
                      match put dest r t1 with
                      | Some t2 => (t2, e)
                      | None => (t1, Some (SystemError "ENOENT" dest))
                      end
                  end
            end
      end
  end.

(** No name occurs twice. *)
Fixpoint distinct (names : list string) : bool :=
  match names with
  | [] => true
  | n :: rest => negb (existsb (String.eqb n) rest) && distinct rest
  end.

(** A well-formed tree: in every directory each name is bound once. *)
Fixpoint wf (t : node) : bool :=
  match t with
  | File _ => true
  | Dir es => distinct (map fst es) && forallb (fun kv => wf (snd kv)) es
  end.

End Fs.

(* ------------------------------------------------------------------ *)
(** ** The world and the monad of effects *)

(** What the user does at a prompt: type a text and press ENTER, or cancel
    (ESC, ^C, ^D). *)
Inductive key :=
| Submit (typed : string)
| Cancel.

(** Everything the run does that can be seen from outside, in order. *)
Inductive event :=
| Log (line : string)               (* console.log *)
| LogError (e : exn)                (* console.error *)
| Ask (message : string)            (* a prompt is shown *)
| Invalid (message : string)        (* a prompt shows a validation error *)
| Mkdir (p : path)
| Copy (src dest : path)
| Write (p : path) (data : string)
| Chdir (p : path)
| Exec (command : string).

Record world := mkWorld {
  fs : Fs.node;            (* the file tree *)
  cwd : path;              (* process.cwd() *)
  stdin : list key;        (* what the user is going to do *)
  trace : list event       (* what has happened so far *)
}.

Definition set_fs (t : Fs.node) (w : world) : world :=
  mkWorld t (cwd w) (stdin w) (trace w).
Definition set_cwd (p : path) (w : world) : world :=
  mkWorld (fs w) p (stdin w) (trace w).
Definition set_stdin (ks : list key) (w : world) : world :=
  mkWorld (fs w) (cwd w) ks (trace w).
Definition record (es : list event) (w : world) : world :=
  mkWorld (fs w) (cwd w) (stdin w) (trace w ++ es).

(** How a computation ends: normally; by a thrown value; by [process.exit];
    waiting on a promise that never settles; or with a rejection that no
    handler of the script can reach. *)
Inductive completion (A : Type) :=
| Normal (a : A)
| Throw (e : exn)
| Exit (status : Z)
| Pending
| Unhandled (e : exn).
Arguments Normal {A} a.
Arguments Throw {A} e.
Arguments Exit {A} status.
Arguments Pending {A}.
Arguments Unhandled {A} e.

Definition M (A : Type) : Type := world -> completion A * world.

Definition ret {A} (a : A) : M A := fun w => (Normal a, w).

Definition bind {A B} (m : M A) (k : A -> M B) : M B :=
  fun w =>
    match m w with
    | (Normal a, w') => k a w'
    | (Throw e, w') => (Throw e, w')
    | (Exit c, w') => (Exit c, w')
    | (Pending, w') => (Pending, w')
    | (Unhandled e, w') => (Unhandled e, w')
    end.

Declare Scope js_scope.
Delimit Scope js_scope with js.
Notation "x <- m ;; k" := (bind m (fun x => k))
  (at level 100, m at next level, right associativity) : js_scope.
Notation "m ;; k" := (bind m (fun _ => k))
  (at level 100, right associativity) : js_scope.
Open Scope js_scope.

Definition throw {A} (e : exn) : M A := fun w => (Throw e, w).

(** [process.exit(status)]. *)
Definition process_exit {A} (status : Z) : M A := fun w => (Exit status, w).

(** [try { m } catch { h }], and a promise's [.catch(h)]. *)
Definition try_catch {A} (m : M A) (h : exn -> M A) : M A :=
  fun w =>
    match m w with
    | (Throw e, w') => h e w'
    | r => r
    end.

Definition emit (e : event) : M unit := fun w => (Normal tt, record [e] w).

Definition console_log (line : string) : M unit := emit (Log line).
Definition console_error (e : exn) : M unit := emit (LogError e).

Definition process_cwd : M path := fun w => (Normal (cwd w), w).

Definition existsSync (p : path) : M bool :=
  fun w => (Normal (Fs.existsSync p (fs w)), w).

Definition mkdirSync (p : path) : M unit :=
  emit (Mkdir p) ;;
  fun w =>
    match Fs.mkdirSync p (fs w) with
    | Ok t => (Normal tt, set_fs t w)
    | Err e => (Throw e, w)
    end.

Definition writeFileSync (p : path) (data : string) : M unit :=
  emit (Write p data) ;;
  fun w =>
    match Fs.writeFileSync p data (fs w) with
    | Ok t => (Normal tt, set_fs t w)
    | Err e => (Throw e, w)
    end.

Definition copySync (src dest : path) : M unit :=
  emit (Copy src dest) ;;
  fun w =>
    match Fs.copySync src dest (fs w) with
    | (t, None) => (Normal tt, set_fs t w)
    | (t, Some e) => (Throw e, set_fs t w)
    end.

(** [process.chdir(p)]. *)
Definition chdir (p : path) : M unit :=
  emit (Chdir p) ;;
  fun w =>
    if Fs.is_dir p (fs w) then (Normal tt, set_cwd p w)
    else (Throw (SystemError
                   match Fs.stat_at p (fs w) with
                   | Fs.NoEnt => "ENOENT"
                   | _ => "ENOTDIR"
                   end p), w).

(** [JSON.parse]. *)
Definition JSON_parse (text : string) : M json :=
  match Json.parse text with
  | Some v => ret v
  | None => throw SyntaxError
  end.

(** [v.name] on a parsed value: a property of an object, [undefined] on an
    array or a primitive, a [TypeError] on [null]. *)
Definition get_property (v : json) (name : string) : M jsval :=
  match v with
  | JNull => throw (TypeError "Cannot read properties of null")
  | JObject fields => ret (Json.obj_get name fields)
  | _ => ret Json.undefined
  end.

(* ------------------------------------------------------------------ *)
(** ** The [prompts] collaborator

    One question at a time.  A text prompt submits what was typed, or the
    initial value when nothing was; it shows the validator's message and
    asks again until the validator accepts.  A cancelled prompt leaves its
    answer [undefined].  When the user does nothing more, the promise stays
    pending. *)

Module Prompts.

Definition default_error : string := "Please Enter A Valid Value".

(** What a text prompt submits when [typed] is entered: the text, or the
    initial value when it is empty. *)
Definition submitted (initial : jsval) (typed : string) : jsval :=
  if String.eqb typed "" then initial else Some (JString typed).

(** How the prompt reads what the [validate] callback returned: a string is
    the message to show, any other value counts by its truthiness. *)
Inductive verdict :=
| Accepted
| Rejected (message : string)
| Failed (e : exn).

Definition judge (r : outcome json) : verdict :=
  match r with
  | Err e => Failed e
  | Ok (JString msg) => Rejected msg
  | Ok v => if Json.truthy v then Accepted else Rejected default_error
  end.

Fixpoint text_loop (initial : jsval) (validate : jsval -> outcome json)
  (ks : list key) : completion jsval * list key * list event :=
  match ks with
  | [] => (Pending, [], [])
  | Cancel :: rest => (Normal Json.undefined, rest, [])
  | Submit typed :: rest =>
      match judge (validate (submitted initial typed)) with
      | Accepted => (Normal (submitted initial typed), rest, [])
      | Rejected msg =>
          let '(r, rest', es) := text_loop initial validate rest in
          (r, rest', Invalid msg :: es)
      | Failed e => (Unhandled e, rest, [])
      end
  end.

Definition text (message : string) (initial : jsval)
  (validate : jsval -> outcome json) : M jsval :=
  fun w =>
    let '(r, rest, es) := text_loop initial validate (stdin w) in
    (r, set_stdin rest (record (Ask message :: es) w)).

(** A password prompt is a text prompt that masks what is typed. *)
Definition password (message : string) (initial : jsval) : M jsval :=
  text message initial (fun _ => Ok (JBool true)).

(** [y] or [n] answers at once, ENTER takes the initial value [false], any
    other key rings the bell. *)
Fixpoint confirm_loop (ks : list key) : completion (option bool) * list key :=
  match ks with
  | [] => (Pending, [])
  | Cancel :: rest => (Normal None, rest)
  | Submit typed :: rest =>
      match typed with
      | EmptyString => (Normal (Some false), rest)
      | String c _ =>
          if Ascii.eqb c "y" || Ascii.eqb c "Y" then (Normal (Some true), rest)
          else if Ascii.eqb c "n" || Ascii.eqb c "N"
               then (Normal (Some false), rest)
               else confirm_loop rest
      end
  end.

Definition confirm (message : string) : M (option bool) :=
  fun w =>
    let '(r, rest) := confirm_loop (stdin w) in
    (r, set_stdin rest (record [Ask message] w)).

End Prompts.

(* ------------------------------------------------------------------ *)
(** ** The program *)

(** What [validate-npm-package-name] returns; the two lists are absent when
    they would be empty. *)
Record validation := {
  validForNewPackages : bool;
  errors : option (list string);
  warnings : option (list string)
}.

(** What the script gets from outside: its command line, where it is
    installed, the two manifests it loads with [require], the package-name
    validator, and the child processes [execSync] starts. *)
Record Env := {
  argv : list string;                        (* process.argv *)
  dirname : path;                            (* __dirname *)
  appPackage : list (string * json);         (* ../app/package.json *)
  toolPackage : list (string * json);        (* ../package.json *)
  validateName : jsval -> validation;
  (** A command run in a working directory on a file tree: the tree it
      leaves, and its output when it exits with status zero. *)
  shell : string -> path -> Fs.node -> Fs.node * option string;
  Number_toString : Json.number -> string
}.

(** A step of the plan. *)
Record Step := {
  message : string;
  action : M unit;
  ignoreDry : bool
}.

(** [errors || warnings]: an array is truthy even when it is empty. *)
Definition complaints (r : validation) : option (list string) :=
  match errors r with
  | Some l => Some l
  | None => warnings r
  end.

Definition nl : string := Json.newline.
Definition tab : string := String (Text.chr 9) EmptyString.
Definition dq : string := String Json.dquote EmptyString.

(** What [ToString] throws on a value that has no primitive. *)
Definition not_primitive : exn :=
  TypeError "Cannot convert object to primitive value".

Section Program.

Variable E : Env.

(** [${v}] in a template literal: the text of [v], or the [TypeError] of
    the conversion. *)
Definition template (v : jsval) : M string :=
  match Json.to_string_val (Number_toString E) v with
  | Some text => ret text
  | None => throw not_primitive
  end.

(** The text of a value that is a string or [undefined] by its origin: the
    answer of a prompt, the [name] and the [version] of the tool's own
    manifest (strings, by the [Package] typedef).  Their conversion does not
    throw; the empty string stands where a value has no text. *)
Definition str (v : jsval) : string :=
  match Json.to_string_val (Number_toString E) v with
  | Some text => text
  | None => EmptyString
  end.

(** [execSync(command)]: the command line is handed to the shell as it is;
    the result is the child's output, or a throw when it exits with a status
    other than zero. *)
Definition execSync (command : string) : M string :=
  emit (Exec command) ;;
  fun w =>
    match shell E command (cwd w) (fs w) with
    | (t, Some out) => (Normal out, set_fs t w)
    | (t, None) => (Throw (ExecError command), set_fs t w)
    end.

Definition curl_command (token : jsval) : string :=
  "curl -s -X GET -H " +++ dq +++ "Authorization: Bot " +++ str token +++ dq
    +++ " " +++ dq +++ "https://discord.com/api/oauth2/applications/@me" +++ dq.

(** The [try] block of [getApplicationId]. *)
Definition lookup_id (token : jsval) : M json :=
  response <- execSync (curl_command token) ;;
  parsedResponse <- JSON_parse response ;;
  id <- get_property parsedResponse "id" ;;
  ret (match id with
       | Some v => if Json.truthy v then v else JNull
       | None => JNull
       end).

Definition getApplicationId (token : jsval) : M json :=
  try_catch (lookup_id token) (fun _ => ret JNull).

Definition appDir : path := Path.sibling (dirname E) "app".

Definition name : jsval := Json.obj_get "name" (toolPackage E).
Definition version : jsval := Json.obj_get "version" (toolPackage E).
Definition utilityNameAndVersion : string := str name +++ " v" +++ str version.

Definition banner : string :=
  "This utility will walk you through creating a " +++ str name
    +++ " application." +++ nl +++ nl
    +++ "Press ENTER to use the default." +++ nl
    +++ "Press ^C at any time to quit." +++ nl +++ nl
    +++ utilityNameAndVersion.

(** The [validate] callback of the name prompt. *)
Definition validate (candidate : jsval) : outcome json :=
  let r := validateName E candidate in
  if validForNewPackages r then Ok (JBool true)
  else
    match complaints r with
    | Some l => Ok (JString ("Error: " +++ Text.join ", " l +++ "."))
    | None => Err (TypeError "Cannot read properties of undefined")
    end.

Definition ask_name : M jsval :=
  Prompts.text "Application name?" (Json.obj_get "name" (appPackage E)) validate.

Definition description : string :=
  "Generated by " +++ utilityNameAndVersion +++ ".".

(** [{ ...appPackage, name, description }]. *)
Definition newPackage (name : string) : list (string * json) :=
  Json.obj_set "description" (JString description)
    (Json.obj_set "name" (JString name) (appPackage E)).

Definition manifest_text (name : string) : string :=
  Json.stringify2 (Number_toString E) (JObject (newPackage name)) +++ nl.

Definition gitignore_text : string := "node_modules/" +++ nl +++ ".env" +++ nl.

Definition env_text (token : jsval) : string := "DISCORD_BOT_TOKEN=" +++ str token.

Definition fallback : string :=
  "The given bot token was invalid so no invite link was generated.".

Definition invite_link : string :=
  "Invite your bot: https://discord.com/oauth2/authorize?scope=bot&client_id=".

(** The template literal of the invite link: the identifier is whatever the
    lookup returned, and its conversion may throw. *)
Definition invite (applicationId : json) : M string :=
  text <- template (Some applicationId) ;;
  ret (invite_link +++ text).

(** The one step of the update plan. *)
Definition step_update (name : string) (dir : path) : Step :=
  {| message := "Updating core files in '" +++ name +++ "'...";
     action :=
       copySync (appDir ++ ["src"; "core"]) (dir ++ ["src"; "core"]) ;;
       copySync (appDir ++ ["src"; "index.js"]) (dir ++ ["src"; "index.js"]);
     ignoreDry := false |}.

Definition update_steps (name : string) (dir : path) : list Step :=
  [ step_update name dir ].

(** The six steps of the create plan, in the order of the array literal. *)
Definition step_mkdir (name : string) (dir : path) : Step :=
  {| message := "Creating directory '" +++ name +++ "'...";
     action := mkdirSync dir;
     ignoreDry := false |}.

Definition step_boilerplate (dir : path) : Step :=
  {| message := "Creating boilerplate...";
     action :=
       copySync appDir dir ;;
       writeFileSync (dir ++ [".gitignore"]) gitignore_text;
     ignoreDry := false |}.

Definition step_manifest (name : string) (dir : path) : Step :=
  {| message := "Updating package.json...";
     action := writeFileSync (dir ++ ["package.json"]) (manifest_text name);
     ignoreDry := false |}.

Definition step_env (dir : path) (token : jsval) : Step :=
  {| message := "Writing .env...";
     action := writeFileSync (dir ++ [".env"]) (env_text token);
     ignoreDry := false |}.

Definition step_install (dir : path) : Step :=
  {| message := "Installing modules...";
     action := chdir dir ;; _ <- execSync "npm ci" ;; ret tt;
     ignoreDry := false |}.

Definition step_invite (token : jsval) : Step :=
  {| message := nl +++ "Generating bot invite link...";
     ignoreDry := true;
     action :=
       applicationId <- getApplicationId token ;;
       line <- (if Json.truthy applicationId
                then invite applicationId
                else ret fallback) ;;
       console_log line |}.

Definition create_steps (name : string) (dir : path) (token : jsval)
  : list Step :=
  [ step_mkdir name dir;
    step_boilerplate dir;
    step_manifest name dir;
    step_env dir token;
    step_install dir;
    step_invite token ].

(** From the answer to the name prompt to the plan: the name as a string
    and the steps. *)
Definition plan (name : jsval) : M (string * list Step) :=
  match name with
  | Some (JString name) =>
      here <- process_cwd ;;
      let dir := Path.resolve here name in
      isUpdate <- existsSync dir ;;
      if isUpdate : bool then
        update <- Prompts.confirm
                    ("Directory '" +++ Path.to_string dir
                       +++ "' already exists. Do you want to update it?") ;;
        match update with
        | Some true => ret (name, update_steps name dir)
        | _ => console_log "" ;; throw (ThrownString "Quitting...")
        end
      else
        token <- Prompts.password "Discord bot token?"
                   (Some (JString "DISCORD_BOT_TOKEN_PLACEHOLDER")) ;;
        ret (name, create_steps name dir token)
  | _ => throw (TypeError "The path argument must be of type string")
  end.

Definition isDryRun : bool :=
  match skipn 2 (argv E) with
  | a :: _ => String.eqb a "--dry-run"
  | [] => false
  end.

(** [steps.forEach(...)]. *)
Fixpoint forEach (dry : bool) (steps : list Step) : M unit :=
  match steps with
  | [] => ret tt
  | s :: rest =>
      console_log (message s) ;;
      (if ignoreDry s || negb dry then action s else ret tt) ;;
      forEach dry rest
  end.

Definition done_message (name : string) : string :=
  "Done!" +++ nl +++ nl +++ "Start by running:" +++ nl
    +++ tab +++ "$ cd " +++ name +++ "/" +++ nl
    +++ tab +++ "$ npm start".

Definition execute (name : string) (steps : list Step) : M unit :=
  console_log "" ;;
  forEach isDryRun steps ;;
  console_log "" ;;
  console_log (done_message name) ;;
  process_exit 0.

(** The callback given to [.then]. *)
Definition on_name (name : jsval) : M unit :=
  p <- plan name ;;
  execute (fst p) (snd p).

(** The script from top to bottom: the banner, then the promise chain
    [prompts(...).then(...).catch(console.error)]. *)
Definition main : M unit :=
  console_log banner ;;
  try_catch (name <- ask_name ;; on_name name) console_error.

(** How the process ends. *)
Inductive run_end :=
| Exited (status : Z)
| Waiting
| Crashed (e : exn).

(** When the promise chain has settled and nothing is left to do, Node
    ends the process with [process.exitCode], which the script never
    sets: status 0. *)
Definition run (w : world) : run_end * world :=
  match main w with
  | (Normal _, w') => (Exited 0, w')
  | (Exit status, w') => (Exited status, w')
  | (Throw e, w') => (Crashed e, w')
  | (Pending, w') => (Waiting, w')
  | (Unhandled e, w') => (Crashed e, w')
  end.

End Program.

(* ------------------------------------------------------------------ *)
(** ** A concrete environment

    A small installation of the tool under [/opt/cdb], a user in
    [/home/u], a validator with the main rules of the real one and child
    processes that behave like [npm ci] and like the Discord API.  The
    examples and the instances of the theorems below run on it. *)

Module Demo.

Definition lower_or_digit (c : ascii) : bool :=
  let n := Text.code c in
  ((97 <=? n) && (n <=? 122) || (48 <=? n) && (n <=? 57) || (n =? 45))%N.

Definition upper (c : ascii) : bool :=
  let n := Text.code c in ((65 <=? n) && (n <=? 90))%N.

Fixpoint all_chars (f : ascii -> bool) (s : string) : bool :=
  match s with
  | EmptyString => true
  | String c r => f c && all_chars f r
  end.

Definition validator (candidate : jsval) : validation :=
  match candidate with
  | Some (JString s) =>
      if String.eqb s "" then
        {| validForNewPackages := false;
           errors := Some ["name length must be greater than zero"];
           warnings := None |}
      else if all_chars lower_or_digit s then
        {| validForNewPackages := true; errors := None; warnings := None |}
      else if all_chars (fun c => lower_or_digit c || upper c) s then
        {| validForNewPackages := false;
           errors := None;
           warnings := Some ["name can no longer contain capital letters"] |}
      else
        {| validForNewPackages := false;
           errors := Some ["name can only contain URL-friendly characters"];
           warnings := None |}
  | _ =>
      {| validForNewPackages := false;
         errors := Some ["name must be a string"];
         warnings := None |}
  end.

(** Integers print as their digits; nothing else is needed here. *)
Fixpoint digits (fuel : nat) (n : N) (acc : string) : string :=
  match fuel with
  | O => acc
  | S f =>
      let acc' := String (Text.chr (48 + n mod 10)) acc in
      if (n <? 10)%N then acc' else digits f (n / 10)%N acc'
  end.

Definition number_text (n : Json.number) : string :=
  (if Json.neg n then "-" else EmptyString)
    +++ digits 400 (Json.mant n * N.pow 10 (Z.to_N (Json.exp10 n))) EmptyString.

Fixpoint contains (needle s : string) : bool :=
  match s with
  | EmptyString => String.eqb needle ""
  | String _ r => String.prefix needle s || contains needle r
  end.

Definition field (k v : string) : string := dq +++ k +++ dq +++ ": " +++ v.
Definition text (s : string) : string := dq +++ s +++ dq.

(** The API's answer to a good token and to any other. *)
Definition application : string :=
  "{" +++ field "id" (text "80351110224678912") +++ ", "
      +++ field "name" (text "my bot") +++ "}".
Definition unauthorized : string :=
  "{" +++ field "message" (text "401: Unauthorized") +++ ", "
      +++ field "code" "0" +++ "}".

(** [npm ci] creates [node_modules] in the working directory and exits with
    status [npm_status]; [curl] prints what the API [answers] to the
    command and touches nothing. *)
Definition child (npm_ok : bool) (answers : string -> option string)
  (command : string) (cwd : path) (t : Fs.node) : Fs.node * option string :=
  if String.eqb command "npm ci" then
    if npm_ok then
      match Fs.put (cwd ++ ["node_modules"]) (Fs.Dir []) t with
      | Some t' => (t', Some EmptyString)
      | None => (t, None)
      end
    else (t, None)
  else if String.prefix "curl " command then (t, answers command)
  else (t, None).

(** Answers the real API never gives, to see what the script makes of them. *)
Definition malformed : string := "{" +++ field "id" "{}" +++ "}".
Definition empty_id : string := "{" +++ field "id" (text EmptyString) +++ "}".
Definition zero_id : string := "{" +++ field "id" "0" +++ "}".
Definition no_text_id : string :=
  "{" +++ field "id" ("{" +++ field "toString" "1" +++ "}") +++ "}".

Definition discord (command : string) : option string :=
  Some (if contains "Bot good-token" command then application else unauthorized).

Definition app_manifest : list (string * json) :=
  [ ("name", JString "discord-bot");
    ("version", JString "1.0.0");
    ("description", JString "A Discord bot.");
    ("main", JString "src/index.js");
    ("scripts", JObject [("start", JString "node src/index.js")]);
    ("dependencies", JObject [("discord.js", JString "^12.5.1")]) ].

Definition tool_manifest : list (string * json) :=
  [ ("name", JString "create-discord-bot"); ("version", JString "1.3.0") ].

Definition env (args : list string) (npm_ok : bool)
  (answers : string -> option string) : Env :=
  {| argv := "node" :: "/opt/cdb/src/index.js" :: args;
     dirname := ["opt"; "cdb"; "src"];
     appPackage := app_manifest;
     toolPackage := tool_manifest;
     validateName := validator;
     shell := child npm_ok answers;
     Number_toString := number_text |}.

Definition template : Fs.node :=
  Fs.Dir
    [ ("package.json", Fs.File "{}");
      ("README.md", Fs.File "# discord-bot");
      ("src",
       Fs.Dir
         [ ("index.js", Fs.File "require('./core')");
           ("core",
            Fs.Dir [ ("bot.js", Fs.File "// bot");
                     ("commands", Fs.Dir [("ping.js", Fs.File "// ping")]) ]) ])
    ].

(** An older project of the user's, made from an earlier template. *)
Definition old_project : Fs.node :=
  Fs.Dir
    [ ("package.json", Fs.File "{ }");
      (".env", Fs.File "DISCORD_BOT_TOKEN=secret");
      ("src",
       Fs.Dir
         [ ("index.js", Fs.File "// old");
           ("mine.js", Fs.File "// user code");
           ("core", Fs.Dir [("bot.js", Fs.File "// old bot")]) ]) ].

Definition disk : Fs.node :=
  Fs.Dir
    [ ("opt", Fs.Dir [("cdb", Fs.Dir [("src", Fs.Dir []); ("app", template)])]);
      ("home", Fs.Dir [("u", Fs.Dir [("old-bot", old_project)])]) ].

Definition home : path := ["home"; "u"].

Definition start (ks : list key) : world :=
  {| fs := disk; cwd := home; stdin := ks; trace := [] |}.

End Demo.

(* ------------------------------------------------------------------ *)
(** ** Notions used to state the properties *)

(** The identifier field of a parsed response, when it has one. *)
Definition id_field (v : json) : jsval :=
  match v with
  | JObject fields => Json.obj_get "id" fields
  | _ => Json.undefined
  end.

(** The world once the lookup's child process has run. *)
Definition after_lookup (E : Env) (token : jsval) (w : world) : world :=
  set_fs (fst (shell E (curl_command E token) (cwd w) (fs w)))
    (record [Exec (curl_command E token)] w).

(** What the lookup's child process printed, if it exited with status 0. *)
Definition response (E : Env) (token : jsval) (w : world) : option string :=
  snd (shell E (curl_command E token) (cwd w) (fs w)).

(** The line that the invite-link step prints for the lookup's result
    [id]: the fallback for a falsy one, the link for one that converts to a
    string, and none for one that does not. *)
Definition invite_line (E : Env) (id : json) : option string :=
  if Json.truthy id then
    match Json.to_string (Number_toString E) id with
    | Some text => Some (invite_link +++ text)
    | None => None
    end
  else Some fallback.

(** The number that the literal [0] denotes. *)
Definition zero : Json.number :=
  {| Json.neg := false; Json.mant := 0; Json.exp10 := 0 |}.

(** The six messages of the create plan, as the runner logs them. *)
Definition create_messages (E : Env) (name : string) (dir : path) (token : jsval)
  : list event :=
  map (fun s => Log (message s)) (create_steps E name dir token).

(** Events that only touch the terminal: no file-system call, no change of
    directory, no child process. *)
Definition terminal (e : event) : bool :=
  match e with
  | Log _ | LogError _ | Ask _ | Invalid _ => true
  | Mkdir _ | Copy _ _ | Write _ _ | Chdir _ | Exec _ => false
  end.

Definition confirm_message (dir : path) : string :=
  "Directory '" +++ Path.to_string dir
    +++ "' already exists. Do you want to update it?".

(** A computation that leaves through [process.exit] does so with status 0. *)
Definition exits_zero {A} (m : M A) : Prop :=
  forall w c w', m w = (Exit c, w') -> c = 0%Z.

(** The world after the banner and the name prompt, and the prompt's result. *)
Definition asked (E : Env) (w : world) : completion jsval * world :=
  ask_name E (record [Log (banner E)] w).

(** The fields of an object other than those named [ks], in order. *)
Definition without (ks : list string) (o : list (string * json))
  : list (string * json) :=
  filter (fun kv => negb (existsb (String.eqb (fst kv)) ks)) o.

(** One member of a top-level object as [JSON.stringify(_, null, 2)] prints
    it, after its two spaces of indentation. *)
Definition member (E : Env) (kv : string * json) : string :=
  Json.quote (fst kv) +++ ": "
    +++ Json.serialize (Number_toString E) "  " "  " (snd kv).

(** The child process started by [command] never changes what the file at
    [p] holds. *)
Definition preserves (E : Env) (command : string) (p : path) : Prop :=
  forall cwd t, Fs.readFile p (fst (shell E command cwd t)) = Fs.readFile p t.

(** The two things the update plan copies, under a root directory. *)
Definition core_of (root : path) : path := root ++ ["src"; "core"].
Definition entry_of (root : path) : path := root ++ ["src"; "index.js"].

(** The update plan writes nowhere in the template: neither of the two
    places it copies to is at, above or below a place it copies from. *)
Definition template_untouched (E : Env) (dir : path) : bool :=
  Path.apart (core_of dir) (core_of (appDir E))
  && Path.apart (core_of dir) (entry_of (appDir E))
  && Path.apart (entry_of dir) (core_of (appDir E))
  && Path.apart (entry_of dir) (entry_of (appDir E)).

(** A name with no [/] in it. *)
Fixpoint no_slash (s : string) : bool :=
  match s with
  | EmptyString => true
  | String c r => negb (Ascii.eqb c "/") && no_slash r
  end.

(** The file tree [t] holds the project that the create plan makes for the
    name [app] and the credential [token] in the directory [dir]: the
    manifest, the ignore-file and the secrets file. *)
Definition project_files (E : Env) (app : string) (dir : path) (token : string)
  (t : Fs.node) : Prop :=
  Fs.is_dir dir t = true
  /\ Fs.readFile (dir ++ ["package.json"]) t
     = Some (Json.stringify2 (Number_toString E) (JObject (newPackage E app))
               +++ nl)
  /\ Fs.readFile (dir ++ [".gitignore"]) t
     = Some ("node_modules/" +++ nl +++ ".env" +++ nl)
  /\ Fs.readFile (dir ++ [".env"]) t = Some ("DISCORD_BOT_TOKEN=" +++ token).

(** The plan as a dry run sees it: the action of every step that is not
    exempt replaced by one that does nothing. *)
Definition muted (s : Step) : Step :=
  {| message := message s;
     action := if ignoreDry s then action s else ret tt;
     ignoreDry := ignoreDry s |}.

(** What a run may do once the target is found to exist: show the
    confirmation, write to the terminal, and make the two copies of the
    update step. *)
Definition update_event (E : Env) (dir : path) (e : event) : bool :=
  match e with
  | Ask m => String.eqb m (confirm_message dir)
  | Log _ => true
  | Copy src dest =>
      Fs.path_eqb src (core_of (appDir E)) && Fs.path_eqb dest (core_of dir)
      || Fs.path_eqb src (entry_of (appDir E)) && Fs.path_eqb dest (entry_of dir)
  | _ => false
  end.

(** Whatever [t] has at a path, [t'] has something of the same kind there:
    nothing was removed, and nothing turned from a file into a directory or
    back. *)
Definition keeps_entries (t t' : Fs.node) : Prop :=
  forall q x, Fs.get q t = Some x ->
              exists x', Fs.get q t' = Some x' /\ Fs.kind x' = Fs.kind x.

(** The file at [p] reads the same in [t'] as in [t]. *)
Definition same_file (p : path) (t t' : Fs.node) : Prop :=
  Fs.readFile p t' = Fs.readFile p t.

(** A computation that takes every file tree to one that is related to it
    by [R]. *)
Definition respects (R : Fs.node -> Fs.node -> Prop) {A} (m : M A) : Prop :=
  forall w, R (fs w) (fs (snd (m w))).

(** The entries of the target directory once the create plan has written
    its three files over a copy of the template's entries [items]. *)
Definition project_entries (E : Env) (name : string) (token : jsval)
  (items : list (string * Fs.node)) : list (string * Fs.node) :=
  Fs.bind_entry ".env" (Fs.File (env_text E token))
    (Fs.bind_entry "package.json" (Fs.File (manifest_text E name))
       (Fs.bind_entry ".gitignore" (Fs.File gitignore_text) items)).

(** What the four file steps of the create plan do, in order. *)
Definition file_step_events (E : Env) (name : string) (dir : path)
  (token : jsval) : list event :=
  [ Log (message (step_mkdir name dir)); Mkdir dir;
    Log (message (step_boilerplate E dir)); Copy (appDir E) dir;
    Write (dir ++ [".gitignore"]) gitignore_text;
    Log (message (step_manifest E name dir));
    Write (dir ++ ["package.json"]) (manifest_text E name);
    Log (message (step_env E dir token));
    Write (dir ++ [".env"]) (env_text E token) ].

(** What the last two steps and the end of the run do, in order; [line] is
    what the invite-link step prints. *)
Definition closing_events (E : Env) (name : string) (dir : path)
  (token : jsval) (line : string) : list event :=
  [ Log (message (step_install E dir)); Chdir dir; Exec "npm ci";
    Log (message (step_invite E token)); Exec (curl_command E token);
    Log line; Log ""; Log (done_message name) ].

(** The tree [s] fits onto [d]: wherever both have something, a file meets
    a file and a directory a directory. *)
Fixpoint fits (s d : Fs.node) : bool :=
  match s, d with
  | Fs.File _, Fs.File _ => true
  | Fs.Dir items, Fs.Dir es =>
      forallb (fun kv => match Fs.lookup (fst kv) es with
                         | Some d' => fits (snd kv) d'
                         | None => true
                         end) items
  | _, _ => false
  end.

(** White space only. *)
Fixpoint blank (s : string) : bool :=
  match s with
  | EmptyString => true
  | String c r => Json.is_ws c && blank r
  end.

(** A string without the bytes of a lone surrogate, as every string of
    UTF-8 text is. *)
Fixpoint plain_text (s : string) : bool :=
  match s with
  | EmptyString => true
  | String c r =>
      negb match r with
           | String c2 _ => Json.lone_surrogate c c2
           | EmptyString => false
           end
      && plain_text r
  end.

(** A value made of objects with keys of their own, arrays, strings of
    text, booleans and [null]. *)
Fixpoint plain (v : json) : bool :=
  match v with
  | JNull | JBool _ => true
  | JNumber _ => false
  | JString s => plain_text s
  | JArray items => forallb plain items
  | JObject fields =>
      Fs.distinct (map fst fields)
      && forallb (fun kv => plain_text (fst kv) && plain (snd kv)) fields
  end.

(** What separates two items of an array or two members of an object in the
    text that [JSON.stringify(_, null, 2)] prints, at the indentation
    [inner]. *)
Definition separator (inner : string) : string :=
  "," +++ Json.newline +++ inner.

(** One member of an object in that text. *)
Definition member_at (pr : Json.number -> string) (inner : string)
  (kv : string * json) : string :=
  Json.quote (fst kv) +++ ": " +++ Json.serialize pr "  " inner (snd kv).

(** [JSON.parse] reads the text of [v] back as [v], at any indentation,
    after any white space and whatever comes after it, given fuel for the
    length of the text. *)
Definition reads_back (pr : Json.number -> string) (v : json) : Prop :=
  forall indent pre rest fuel,
    blank indent = true -> blank pre = true ->
    (String.length (Json.serialize pr "  " indent v) <= fuel)%nat ->
    Json.parse_value fuel (pre +++ Json.serialize pr "  " indent v +++ rest)
    = Some (v, rest).

(* ================================================================== *)
(** * Properties *)

(** ** The monad *)

Lemma bind_unfold {A B} (m : M A) (k : A -> M B) (w : world) :
  bind m k w =
  match m w with
  | (Normal a, w') => k a w'
  | (Throw e, w') => (Throw e, w')
  | (Exit c, w') => (Exit c, w')
  | (Pending, w') => (Pending, w')
  | (Unhandled e, w') => (Unhandled e, w')
  end.
Proof. reflexivity. Qed.

Lemma bind_normal {A B} (m : M A) (k : A -> M B) w a w' :
  m w = (Normal a, w') -> bind m k w = k a w'.
Proof. intros H. unfold bind. now rewrite H. Qed.

Lemma bind_throw {A B} (m : M A) (k : A -> M B) w e w' :
  m w = (Throw e, w') -> bind m k w = (Throw e, w').
Proof. intros H. unfold bind. now rewrite H. Qed.

Lemma emit_bind {B} (e : event) (k : unit -> M B) w :
  bind (emit e) k w = k tt (record [e] w).
Proof. reflexivity. Qed.

Lemma record_record es es' w :
  record es' (record es w) = record (es ++ es') w.
Proof. unfold record; simpl. now rewrite app_assoc. Qed.

Lemma record_nil w : record [] w = w.
Proof. destruct w; unfold record; simpl. now rewrite app_nil_r. Qed.

(** ** The step runner *)

Lemma forEach_cons dry s rest w :
  forEach dry (s :: rest) w =
  bind (if ignoreDry s || negb dry then action s else ret tt)
       (fun _ => forEach dry rest) (record [Log (message s)] w).
Proof. reflexivity. Qed.

Lemma forEach_app dry pre post w :
  forEach dry (pre ++ post) w =
  bind (forEach dry pre) (fun _ => forEach dry post) w.
Proof.
  revert w. induction pre as [|s pre IH]; intros w.
  - reflexivity.
  - rewrite <- app_comm_cons, forEach_cons, bind_unfold.
    rewrite (bind_unfold (forEach dry (s :: pre))), forEach_cons, bind_unfold.
    destruct ((if ignoreDry s || negb dry then action s else ret tt)
                (record [Log (message s)] w)) as [[[]| | | |] w1];
      try reflexivity.
    apply IH.
Qed.

(** A step that is skipped only prints its message. *)
Lemma forEach_skip s rest w :
  ignoreDry s = false ->
  forEach true (s :: rest) w = forEach true rest (record [Log (message s)] w).
Proof. intros H. rewrite forEach_cons, H. reflexivity. Qed.

Lemma forEach_dry_muted steps w :
  forEach true steps w = forEach false (map muted steps) w.
Proof.
  revert w. induction steps as [|s steps IH]; intros w; [reflexivity|].
  simpl map. rewrite !forEach_cons, !bind_unfold. simpl.
  rewrite !orb_false_r, orb_true_r.
  destruct (ignoreDry s).
  - destruct (action s _) as [[[]| | | |] w1]; try reflexivity. apply IH.
  - apply IH.
Qed.

Lemma forEach_all_skipped steps w :
  Forall (fun s => ignoreDry s = false) steps ->
  forEach true steps w = (Normal tt, record (map (fun s => Log (message s)) steps) w).
Proof.
  intros H. revert w. induction H as [|s steps Hs _ IH]; intros w.
  - simpl. now rewrite record_nil.
  - rewrite forEach_skip by exact Hs. rewrite IH, record_record. reflexivity.
Qed.

(** The step that throws ends the loop: what comes after it plays no part. *)
Lemma forEach_throw dry pre s post w w1 e w2 :
  forEach dry pre w = (Normal tt, w1) ->
  ignoreDry s || negb dry = true ->
  action s (record [Log (message s)] w1) = (Throw e, w2) ->
  forEach dry (pre ++ s :: post) w = (Throw e, w2).
Proof.
  intros Hpre Hrun Hs.
  rewrite forEach_app, (bind_normal _ _ _ _ _ Hpre), forEach_cons, Hrun.
  now apply bind_throw.
Qed.


(** ** The identity lookup *)

Section Lookup.

Variable E : Env.

Lemma execSync_spec command w :
  execSync E command w =
  (match snd (shell E command (cwd w) (fs w)) with
   | Some out => Normal out
   | None => Throw (ExecError command)
   end,
   set_fs (fst (shell E command (cwd w) (fs w))) (record [Exec command] w)).
Proof.
  unfold execSync. rewrite emit_bind. simpl.
  destruct (shell E command (cwd w) (fs w)) as [t [out|]]; reflexivity.
Qed.

(** What the [try] block comes to, case by case. *)
Lemma lookup_id_spec token w :
  lookup_id E token w =
  (match response E token w with
   | None => Throw (ExecError (curl_command E token))
   | Some body =>
       match Json.parse body with
       | None => Throw SyntaxError
       | Some JNull => Throw (TypeError "Cannot read properties of null")
       | Some v =>
           Normal (match id_field v with
                   | Some x => if Json.truthy x then x else JNull
                   | None => JNull
                   end)
       end
   end, after_lookup E token w).
Proof.
  unfold lookup_id, response, after_lookup.
  rewrite bind_unfold, execSync_spec.
  destruct (snd (shell E (curl_command E token) (cwd w) (fs w))) as [body|];
    [|reflexivity].
  unfold JSON_parse. rewrite bind_unfold.
  destruct (Json.parse body) as [v|]; [|reflexivity].
  destruct v; reflexivity.
Qed.

Lemma getApplicationId_spec token w :
  getApplicationId E token w =
  (Normal
     match response E token w with
     | None => JNull
     | Some body =>
         match Json.parse body with
         | None => JNull
         | Some v =>
             match id_field v with
             | Some x => if Json.truthy x then x else JNull
             | None => JNull
             end
         end
     end, after_lookup E token w).
Proof.
  unfold getApplicationId, try_catch. rewrite lookup_id_spec.
  destruct (response E token w) as [body|]; [|reflexivity].
  destruct (Json.parse body) as [v|]; [|reflexivity].
  destruct v; reflexivity.
Qed.

(** The template literal of the link, by what [ToString] makes of the
    identifier. *)
Lemma invite_spec id w :
  invite E id w =
  match Json.to_string (Number_toString E) id with
  | Some text => (Normal (invite_link +++ text), w)
  | None => (Throw not_primitive, w)
  end.
Proof.
  unfold invite, template. simpl Json.to_string_val.
  destruct (Json.to_string (Number_toString E) id); reflexivity.
Qed.

(** The invite-link step: the lookup, then the line if there is one. *)
Lemma step_invite_spec token w :
  exists id,
    getApplicationId E token w = (Normal id, after_lookup E token w)
    /\ action (step_invite E token) w =
       match invite_line E id with
       | Some line => (Normal tt, record [Log line] (after_lookup E token w))
       | None => (Throw not_primitive, after_lookup E token w)
       end.
Proof.
  eexists. split; [apply getApplicationId_spec|].
  unfold step_invite; simpl action.
  rewrite bind_unfold, getApplicationId_spec. cbv iota.
  rewrite bind_unfold. unfold invite_line.
  match goal with |- context [Json.truthy ?x] => destruct (Json.truthy x) end.
  - rewrite invite_spec.
    match goal with
    | |- context [Json.to_string _ ?x] =>
        destruct (Json.to_string (Number_toString E) x)
    end; reflexivity.
  - reflexivity.
Qed.

End Lookup.

(** ** The runner on the two plans *)

Section Plans.

Variable E : Env.

Lemma execute_unfold name steps w :
  execute E name steps w =
  match forEach (isDryRun E) steps (record [Log ""] w) with
  | (Normal _, w') => (Exit 0, record [Log ""; Log (done_message name)] w')
  | (Throw e, w') => (Throw e, w')
  | (Exit c, w') => (Exit c, w')
  | (Pending, w') => (Pending, w')
  | (Unhandled e, w') => (Unhandled e, w')
  end.
Proof.
  unfold execute. unfold console_log at 1. rewrite emit_bind, bind_unfold.
  destruct (forEach (isDryRun E) steps (record [Log ""] w)) as [[[]| | | |] w'];
    try reflexivity.
  unfold console_log. rewrite !emit_bind. unfold process_exit.
  now rewrite record_record.
Qed.

Lemma isDryRun_flag rest :
  skipn 2 (argv E) = "--dry-run" :: rest -> isDryRun E = true.
Proof. unfold isDryRun. intros ->. reflexivity. Qed.

(** The create plan under a dry run: six messages, then the lookup. *)
Lemma forEach_dry_create name dir token w :
  forEach true (create_steps E name dir token) w =
  action (step_invite E token) (record (create_messages E name dir token) w).
Proof.
  unfold create_steps, create_messages.
  do 5 (rewrite forEach_skip by reflexivity).
  rewrite forEach_cons, !record_record.
  change (ignoreDry (step_invite E token) || negb true) with true. cbv iota.
  rewrite bind_unfold.
  destruct (action (step_invite E token) _) as [[[]|e|c| |e] w'];
    reflexivity.
Qed.

End Plans.

Section Install.

Variable E : Env.

Lemma step_install_spec dir w :
  Fs.is_dir dir (fs w) = true ->
  action (step_install E dir) w =
  (match snd (shell E "npm ci" dir (fs w)) with
   | Some _ => Normal tt
   | None => Throw (ExecError "npm ci")
   end,
   mkWorld (fst (shell E "npm ci" dir (fs w))) dir (stdin w)
     (trace w ++ [Chdir dir; Exec "npm ci"])).
Proof.
  intros Hdir. unfold step_install; simpl action.
  rewrite bind_unfold. unfold chdir. rewrite emit_bind.
  change (fs (record [Chdir dir] w)) with (fs w). rewrite Hdir.
  rewrite bind_unfold, execSync_spec.
  change (cwd (set_cwd dir (record [Chdir dir] w))) with dir.
  change (fs (set_cwd dir (record [Chdir dir] w))) with (fs w).
  unfold set_fs, set_cwd, record; simpl.
  rewrite <- app_assoc; simpl.
  destruct (snd (shell E "npm ci" dir (fs w))); reflexivity.
Qed.

End Install.

(* ================================================================== *)
(** * The claims about the runner and the lookup *)

(** X17.  When the first command-line argument is [--dry-run], the runner
    behaves on any plan as if every step that is not exempt had an action
    that does nothing: all messages are printed in order and only the exempt
    actions run.  On the create plan that is the six messages and then the
    action of the invite-link step, run as it runs without the flag: the
    lookup's one child process, then the line of the step (the fallback for
    a lookup that returned [null], the invite link for an identifier that
    converts to a string, as every string does) and the closing summary.
    There is no [fs] call, no change of directory and no installer.  (An
    identifier that does not convert makes the step throw, with the flag as
    without it; then no line and no summary are printed.)  On the update
    plan only messages are printed. *)
Theorem X17_dry_run_skips_actions
  (E : Env) (rest : list string) (steps : list Step) (w : world)
  (name : string) (dir : path) (token : jsval) (v : world) :
  skipn 2 (argv E) = "--dry-run" :: rest ->
  let shown := record (Log "" :: create_messages E name dir token) v in
  let looked :=
    mkWorld (fst (shell E (curl_command E token) (cwd v) (fs v)))
      (cwd v) (stdin v)
      (trace v ++ Log "" :: create_messages E name dir token
         ++ [Exec (curl_command E token)]) in
  forEach (isDryRun E) steps w = forEach false (map muted steps) w
  /\ forEach (isDryRun E) (create_steps E name dir token) (record [Log ""] v)
     = action (step_invite E token) shown
  /\ (exists id,
        getApplicationId E token shown = (Normal id, looked)
        /\ (forall line,
              invite_line E id = Some line ->
              execute E name (create_steps E name dir token) v =
              (Exit 0, record [Log line; Log ""; Log (done_message name)] looked))
        /\ (invite_line E id = None ->
            execute E name (create_steps E name dir token) v =
            (Throw not_primitive, looked))
        /\ (id = JNull -> invite_line E id = Some fallback)
        /\ (forall text,
              id = JString text -> text <> EmptyString ->
              invite_line E id = Some (invite_link +++ text)))
  /\ execute E name (update_steps E name dir) v =
     (Exit 0,
      record [Log ""; Log (message (step_update E name dir)); Log "";
              Log (done_message name)] v).
Proof.
  intros Hflag shown looked.
  pose proof (isDryRun_flag E rest Hflag) as Hdry.
  assert (Hshown : record (create_messages E name dir token) (record [Log ""] v)
                   = shown).
  { unfold shown. now rewrite record_record. }
  assert (Hlooked : after_lookup E token shown = looked).
  { unfold after_lookup, looked, shown, set_fs, record. cbn [fs cwd stdin trace].
    f_equal. change (Log "" :: create_messages E name dir token)
      with ([Log ""] ++ create_messages E name dir token).
    now rewrite <- !app_assoc. }
  split; [|split; [|split]].
  - rewrite Hdry. apply forEach_dry_muted.
  - now rewrite Hdry, forEach_dry_create, Hshown.
  - destruct (step_invite_spec E token shown) as (id & Hid & Hstep).
    rewrite Hlooked in Hid, Hstep.
    exists id. split; [exact Hid|].
    assert (Hexec : execute E name (create_steps E name dir token) v =
                    match invite_line E id with
                    | Some line =>
                        (Exit 0,
                         record [Log line; Log ""; Log (done_message name)] looked)
                    | None => (Throw not_primitive, looked)
                    end).
    { rewrite execute_unfold, Hdry, forEach_dry_create, Hshown, Hstep.
      destruct (invite_line E id); [|reflexivity].
      now rewrite record_record. }
    split; [|split; [|split]].
    + intros line Hline. now rewrite Hexec, Hline.
    + intros Hline. now rewrite Hexec, Hline.
    + intros ->. reflexivity.
    + intros text -> Hne. unfold invite_line. simpl.
      now rewrite (proj2 (String.eqb_neq _ _) Hne).
  - rewrite execute_unfold, Hdry.
    unfold update_steps.
    rewrite forEach_skip by reflexivity.
    simpl forEach. unfold ret.
    now rewrite !record_record.
Qed.

(** An instance of X17: a dry run of the create plan in the concrete
    environment, with the default name and token; the API turns the
    placeholder down and the step prints the fallback. *)
Lemma X17_dry_run_instance :
  let E := Demo.env ["--dry-run"] true Demo.discord in
  let token := Some (JString "DISCORD_BOT_TOKEN_PLACEHOLDER") in
  let dir := Demo.home ++ ["discord-bot"] in
  let v := Demo.start [] in
  execute E "discord-bot" (create_steps E "discord-bot" dir token) v
  = (Exit 0,
     mkWorld (fs v) (cwd v) (stdin v)
       (Log "" :: create_messages E "discord-bot" dir token
          ++ [Exec (curl_command E token); Log fallback; Log "";
              Log (done_message "discord-bot")])).
Proof.
  intros E token dir v.
  destruct (X17_dry_run_skips_actions E [] [] v "discord-bot" dir token v
              eq_refl) as (_ & _ & (id & Hid & Hline & _) & _).
  assert (Hnull : id = JNull).
  { vm_compute in Hid. now injection Hid as <-. }
  rewrite (Hline fallback) by (now rewrite Hnull).
  vm_compute. reflexivity.
Defined.

(** C5 fails on the code at one point.  Under [--dry-run] the exempt
    invite-link step does run, but when the API answers with an identifier
    that does not convert to a string (an object with a property [toString]
    of its own) the step throws in place of printing its result or the
    fallback: the dry run prints the six messages, starts the lookup and
    ends in the top-level handler with the [TypeError]; no invite link, no
    fallback and no closing summary are printed.  Nothing is written to the
    file tree. *)
Theorem C5_dry_run_prints_no_line_for_such_an_identifier :
  let E := Demo.env ["--dry-run"] true (fun _ => Some Demo.no_text_id) in
  let token := Some (JString "any-token") in
  let dir := Demo.home ++ ["my-bot"] in
  let w := Demo.start [Submit "my-bot"; Submit "any-token"] in
  let v := Demo.start [] in
  isDryRun E = true
  /\ execute E "my-bot" (create_steps E "my-bot" dir token) v
     = (Throw not_primitive,
        mkWorld (fs v) (cwd v) (stdin v)
          (Log "" :: create_messages E "my-bot" dir token
             ++ [Exec (curl_command E token)]))
  /\ fst (run E w) = Exited 0
  /\ last (trace (snd (run E w))) (Log EmptyString) = LogError not_primitive
  /\ existsb (fun e => match e with
                       | Log line => String.eqb line fallback
                                     || String.prefix invite_link line
                                     || String.eqb line (done_message "my-bot")
                       | _ => false
                       end) (trace (snd (run E w))) = false
  /\ fs (snd (run E w)) = fs w.
Proof.
  cbv zeta. repeat split; vm_compute; reflexivity.
Qed.

(** X18.  The lookup ([getApplicationId]) completes normally for every
    credential, whatever the child process and its output do: it returns [null] when the
    child exits with a status other than zero (a transport error), when the
    output is not JSON, and when the parsed value has no identifier field or
    a falsy one; a truthy identifier field of any type is returned as it is.
    (The HTTP status is not looked at: [curl -s] prints the body of an error
    response and exits with status zero.)  The invite-link step prints the
    literal fallback whenever the lookup returned [null]. *)
Theorem X18_lookup_never_raises (E : Env) (token : jsval) (w : world) :
  exists id,
    getApplicationId E token w = (Normal id, after_lookup E token w)
    /\ (response E token w = None -> id = JNull)
    /\ (forall body,
          response E token w = Some body -> Json.parse body = None -> id = JNull)
    /\ (forall body v,
          response E token w = Some body -> Json.parse body = Some v ->
          Json.truthy_val (id_field v) = false -> id = JNull)
    /\ (forall body v x,
          response E token w = Some body -> Json.parse body = Some v ->
          id_field v = Some x -> Json.truthy x = true -> id = x)
    /\ (id = JNull ->
        action (step_invite E token) w =
        (Normal tt, record [Log fallback] (after_lookup E token w))).
Proof.
  destruct (step_invite_spec E token w) as (id & Hid & Hstep).
  exists id. split; [exact Hid|].
  rewrite getApplicationId_spec in Hid.
  injection Hid as Hid.
  repeat split.
  - intros Hr. rewrite Hr in Hid. now symmetry.
  - intros body Hr Hp. rewrite Hr, Hp in Hid. now symmetry.
  - intros body v Hr Hp Hf. rewrite Hr, Hp in Hid.
    destruct (id_field v) as [x|]; simpl in Hf.
    + rewrite Hf in Hid. now symmetry.
    + now symmetry.
  - intros body v x Hr Hp Hx Ht. rewrite Hr, Hp, Hx, Ht in Hid. now symmetry.
  - intros ->. exact Hstep.
Qed.

(** C6 fails on the code.  When the API answers with an identifier that is
    an object with a property [toString] of its own, the lookup returns that
    object, neither a string nor [null] as its [@returns] says, and the
    invite-link step throws the [TypeError] of the conversion outside the
    lookup's [try]: the run prints the error in place of a link, a fallback
    or the closing summary.  With an empty object as identifier the step
    prints a link made of [[object Object]] where the claim wants the
    fallback. *)
Theorem C6_malformed_identifier_is_returned :
  let token := Some (JString "any-token") in
  let keys := [Submit "my-bot"; Submit "any-token"] in
  let E := Demo.env [] true (fun _ => Some Demo.no_text_id) in
  let E' := Demo.env [] true (fun _ => Some Demo.malformed) in
  (exists x,
      fst (getApplicationId E token (Demo.start [])) = Normal (JObject [("toString", x)]))
  /\ fst (action (step_invite E token) (Demo.start [])) = Throw not_primitive
  /\ fst (run E (Demo.start keys)) = Exited 0
  /\ last (trace (snd (run E (Demo.start keys)))) (Log EmptyString)
     = LogError not_primitive
  /\ existsb (fun e => match e with
                       | Log line => String.eqb line fallback
                                     || String.prefix invite_link line
                                     || String.eqb line (done_message "my-bot")
                       | _ => false
                       end) (trace (snd (run E (Demo.start keys)))) = false
  /\ fst (getApplicationId E' token (Demo.start [])) = Normal (JObject [])
  /\ trace (snd (action (step_invite E' token) (Demo.start []))) =
     [Exec (curl_command E' token);
      Log (invite_link +++ "[object Object]")].
Proof.
  cbv zeta. split; [eexists; vm_compute; reflexivity|].
  repeat split; vm_compute; reflexivity.
Qed.

(** C10.  When the response is a well-formed object whose identifier field is
    falsy, the lookup returns [null], exactly what it returns when the child
    process fails, and the invite-link step prints the fallback message.  The
    empty string, 0, [false] and [null] are all falsy. *)
Theorem C10_falsy_identifier_reads_as_failure
  (E : Env) (token : jsval) (w : world)
  (body : string) (fields : list (string * json)) (v : json) :
  response E token w = Some body ->
  Json.parse body = Some (JObject fields) ->
  Json.obj_get "id" fields = Some v ->
  Json.truthy v = false ->
  getApplicationId E token w = (Normal JNull, after_lookup E token w)
  /\ action (step_invite E token) w =
     (Normal tt, record [Log fallback] (after_lookup E token w))
  /\ (forall E' token' w',
        response E' token' w' = None ->
        fst (getApplicationId E' token' w') = Normal JNull)
  /\ Forall (fun x => Json.truthy x = false)
       [JString EmptyString; JNumber zero; JBool false; JNull].
Proof.
  intros Hr Hp Hid Hf.
  assert (Hget : getApplicationId E token w = (Normal JNull, after_lookup E token w)).
  { rewrite getApplicationId_spec, Hr, Hp. simpl id_field. now rewrite Hid, Hf. }
  split; [exact Hget|]. split; [|split].
  - unfold step_invite; simpl action. now rewrite bind_unfold, Hget.
  - intros E' token' w' Hnone.
    now rewrite getApplicationId_spec, Hnone.
  - repeat constructor.
Qed.

(** An instance of C10: the API answers with [0] as the identifier. *)
Lemma C10_zero_identifier_instance :
  let E := Demo.env [] true (fun _ => Some Demo.zero_id) in
  let token := Some (JString "good-token") in
  let w := Demo.start [] in
  getApplicationId E token w = (Normal JNull, after_lookup E token w)
  /\ action (step_invite E token) w =
     (Normal tt, record [Log fallback] (after_lookup E token w))
  /\ (forall E' token' w',
        response E' token' w' = None ->
        fst (getApplicationId E' token' w') = Normal JNull)
  /\ Forall (fun x => Json.truthy x = false)
       [JString EmptyString; JNumber zero; JBool false; JNull].
Proof.
  cbv zeta.
  apply (C10_falsy_identifier_reads_as_failure
           (Demo.env [] true (fun _ => Some Demo.zero_id))
           (Some (JString "good-token")) (Demo.start [])
           Demo.zero_id [("id", JNumber zero)] (JNumber zero));
    vm_compute; reflexivity.
Defined.

(** C7.  When a step's action throws, the loop ends there: the result is the
    thrown value and the world is the one the failing action left, whatever
    steps come after it.  In the create plan, when the first four steps went
    through and the installer exits with a status other than zero, the run of
    the plan ends with the installer's error; the last things that happened
    are the installer step's message, the change of directory and the
    installer itself, so the invite-link step did not run. *)
Theorem C7_failure_stops_the_plan
  (dry : bool) (pre : list Step) (s : Step) (post : list Step)
  (w w1 w2 : world) (e : exn)
  (E : Env) (name : string) (dir : path) (token : jsval) (v v4 : world)
  (t : Fs.node) :
  forEach dry pre w = (Normal tt, w1) ->
  ignoreDry s || negb dry = true ->
  action s (record [Log (message s)] w1) = (Throw e, w2) ->
  forEach false [step_mkdir name dir; step_boilerplate E dir;
                 step_manifest E name dir; step_env E dir token] v
    = (Normal tt, v4) ->
  Fs.is_dir dir (fs v4) = true ->
  shell E "npm ci" dir (fs v4) = (t, None) ->
  forEach dry (pre ++ s :: post) w = (Throw e, w2)
  /\ forEach false (create_steps E name dir token) v =
     (Throw (ExecError "npm ci"),
      mkWorld t dir (stdin v4)
        (trace v4 ++ [Log (message (step_install E dir)); Chdir dir;
                      Exec "npm ci"])).
Proof.
  intros Hpre Hrun Hs H4 Hdir Hnpm. split.
  - exact (forEach_throw dry pre s post w w1 e w2 Hpre Hrun Hs).
  - change (create_steps E name dir token)
      with ([step_mkdir name dir; step_boilerplate E dir;
             step_manifest E name dir; step_env E dir token]
              ++ step_install E dir :: [step_invite E token]).
    apply (forEach_throw false _ _ _ v v4); [exact H4|reflexivity|].
    rewrite step_install_spec by exact Hdir.
    change (fs (record [Log (message (step_install E dir))] v4)) with (fs v4).
    rewrite Hnpm. unfold record; simpl.
    now rewrite <- app_assoc.
Qed.

(** An instance of C7: the create plan in the concrete environment with an
    installer that fails. *)
Lemma C7_installer_failure_instance :
  let E := Demo.env [] false Demo.discord in
  let token := Some (JString "good-token") in
  let dir := Demo.home ++ ["my-bot"] in
  let v := Demo.start [] in
  let pre := [step_mkdir "my-bot" dir; step_boilerplate E dir;
              step_manifest E "my-bot" dir; step_env E dir token] in
  let v4 := snd (forEach false pre v) in
  let w2 := snd (action (step_install E dir)
                   (record [Log (message (step_install E dir))] v4)) in
  forEach false (pre ++ step_install E dir :: [step_invite E token]) v
  = (Throw (ExecError "npm ci"), w2)
  /\ forEach false (create_steps E "my-bot" dir token) v =
     (Throw (ExecError "npm ci"),
      mkWorld (fs v4) dir (stdin v4)
        (trace v4 ++ [Log (message (step_install E dir)); Chdir dir;
                      Exec "npm ci"])).
Proof.
  intros E token dir v pre v4 w2.
  apply (C7_failure_stops_the_plan false pre (step_install E dir)
           [step_invite E token] v v4 w2 (ExecError "npm ci")
           E "my-bot" dir token v v4 (fs v4));
    vm_compute; reflexivity.
Defined.

(* ================================================================== *)
(** * The prompts and the flow of a run *)

Section PromptFacts.

Variable initial : jsval.
Variable validate : jsval -> outcome json.

Lemma text_loop_again typed rest msg :
  Prompts.judge (validate (Prompts.submitted initial typed)) = Prompts.Rejected msg ->
  Prompts.text_loop initial validate (Submit typed :: rest) =
  (fst (fst (Prompts.text_loop initial validate rest)),
   snd (fst (Prompts.text_loop initial validate rest)),
   Invalid msg :: snd (Prompts.text_loop initial validate rest)).
Proof.
  intros H. simpl. rewrite H.
  destruct (Prompts.text_loop initial validate rest) as [[r rest'] es].
  reflexivity.
Qed.

(** An answer is either [undefined] (the prompt was cancelled) or a value the
    validator let through. *)
Lemma text_loop_answer ks a rest es :
  Prompts.text_loop initial validate ks = (Normal a, rest, es) ->
  a = Json.undefined \/ Prompts.judge (validate a) = Prompts.Accepted.
Proof.
  revert a rest es. induction ks as [|k ks IH]; intros a rest es H.
  - discriminate.
  - destruct k as [typed|]; simpl in H.
    + destruct (Prompts.judge (validate (Prompts.submitted initial typed)))
        as [|msg|e] eqn:Hj.
      * injection H as <- _ _. now right.
      * destruct (Prompts.text_loop initial validate ks) as [[r rest'] es'].
        injection H as -> _ _. eapply IH. reflexivity.
      * discriminate.
    + injection H as <- _ _. now left.
Qed.

(** A text prompt shows validation messages and nothing else. *)
Lemma text_loop_events ks :
  Forall (fun e => terminal e = true)
    (snd (Prompts.text_loop initial validate ks)).
Proof.
  induction ks as [|k ks IH]; [constructor|].
  destruct k as [typed|]; simpl; [|constructor].
  destruct (Prompts.text_loop initial validate ks) as [[r rest'] es'].
  simpl in IH.
  destruct (Prompts.judge _); simpl; constructor; [reflexivity|assumption].
Qed.

(** A text prompt ends with an answer, pending, or with the validator's
    failure. *)
Lemma text_loop_ends ks :
  match fst (fst (Prompts.text_loop initial validate ks)) with
  | Exit _ | Throw _ => False
  | _ => True
  end.
Proof.
  induction ks as [|k ks IH]; [exact I|].
  destruct k as [typed|]; simpl; [|exact I].
  destruct (Prompts.text_loop initial validate ks) as [[r rest'] es'].
  simpl in IH.
  destruct (Prompts.judge _); simpl; [exact I|assumption|exact I].
Qed.

End PromptFacts.

Lemma confirm_loop_ends ks :
  match fst (Prompts.confirm_loop ks) with
  | Normal _ | Pending => True
  | _ => False
  end.
Proof.
  induction ks as [|k ks IH]; [exact I|].
  destruct k as [typed|]; simpl; [|exact I].
  destruct typed as [|c r]; [exact I|].
  destruct (_ || _); [exact I|].
  destruct (_ || _); [exact I|assumption].
Qed.

Section Flow.

Variable E : Env.

Lemma validate_accepts candidate :
  validForNewPackages (validateName E candidate) = true ->
  Prompts.judge (validate E candidate) = Prompts.Accepted.
Proof. intros H. unfold validate. rewrite H. reflexivity. Qed.

Lemma validate_rejects candidate texts :
  validForNewPackages (validateName E candidate) = false ->
  complaints (validateName E candidate) = Some texts ->
  Prompts.judge (validate E candidate)
  = Prompts.Rejected ("Error: " +++ Text.join ", " texts +++ ".").
Proof.
  intros H Hc. unfold validate. rewrite H, Hc. reflexivity.
Qed.

Lemma validate_accepted_valid candidate :
  Prompts.judge (validate E candidate) = Prompts.Accepted ->
  validForNewPackages (validateName E candidate) = true.
Proof.
  unfold validate.
  destruct (validForNewPackages (validateName E candidate)); [reflexivity|].
  destruct (complaints (validateName E candidate)); discriminate.
Qed.

Lemma ask_name_unfold w :
  ask_name E w =
  (fst (fst (Prompts.text_loop (Json.obj_get "name" (appPackage E))
               (validate E) (stdin w))),
   set_stdin
     (snd (fst (Prompts.text_loop (Json.obj_get "name" (appPackage E))
                  (validate E) (stdin w))))
     (record (Ask "Application name?"
                :: snd (Prompts.text_loop (Json.obj_get "name" (appPackage E))
                          (validate E) (stdin w))) w)).
Proof.
  unfold ask_name, Prompts.text.
  destruct (Prompts.text_loop _ _ _) as [[r rest] es]. reflexivity.
Qed.

(** The name prompt touches the terminal only. *)
Lemma asked_quiet w r w1 :
  asked E w = (r, w1) ->
  fs w1 = fs w /\ cwd w1 = cwd w
  /\ exists es, trace w1 = trace w ++ es
                /\ Forall (fun e => terminal e = true) es.
Proof.
  unfold asked. rewrite ask_name_unfold. intros H. injection H as _ <-.
  split; [reflexivity|]. split; [reflexivity|].
  exists (Log (banner E) :: Ask "Application name?"
            :: snd (Prompts.text_loop (Json.obj_get "name" (appPackage E))
                      (validate E) (stdin w))).
  split.
  - simpl. now rewrite <- app_assoc.
  - repeat (constructor; [reflexivity|]). apply text_loop_events.
Qed.

(** The promise chain, by the result of the name prompt. *)
Lemma main_unfold w :
  main E w =
  match asked E w with
  | (Normal a, w1) =>
      match on_name E a w1 with
      | (Throw e, w2) => (Normal tt, record [LogError e] w2)
      | r => r
      end
  | (Throw e, w1) => (Normal tt, record [LogError e] w1)
  | (Exit c, w1) => (Exit c, w1)
  | (Pending, w1) => (Pending, w1)
  | (Unhandled e, w1) => (Unhandled e, w1)
  end.
Proof.
  unfold main, asked. unfold console_log at 1.
  rewrite emit_bind. unfold try_catch. rewrite bind_unfold.
  destruct (ask_name E (record [Log (banner E)] w)) as [[a|e|c| |e] w1];
    reflexivity.
Qed.

Lemma on_name_unfold a w :
  on_name E a w =
  match plan E a w with
  | (Normal p, w') => execute E (fst p) (snd p) w'
  | (Throw e, w') => (Throw e, w')
  | (Exit c, w') => (Exit c, w')
  | (Pending, w') => (Pending, w')
  | (Unhandled e, w') => (Unhandled e, w')
  end.
Proof. reflexivity. Qed.

(** A cancelled name prompt: [path.resolve(undefined)] throws at once. *)
Lemma plan_undefined w :
  exists e, plan E Json.undefined w = (Throw e, w).
Proof. eexists. reflexivity. Qed.

Lemma plan_existing name w :
  Fs.existsSync (Path.resolve (cwd w) name) (fs w) = true ->
  plan E (Some (JString name)) w =
  let dir := Path.resolve (cwd w) name in
  let w' := set_stdin (snd (Prompts.confirm_loop (stdin w)))
              (record [Ask (confirm_message dir)] w) in
  match fst (Prompts.confirm_loop (stdin w)) with
  | Normal (Some true) => (Normal (name, update_steps E name dir), w')
  | Normal _ => (Throw (ThrownString "Quitting..."), record [Log ""] w')
  | Throw e => (Throw e, w')
  | Exit c => (Exit c, w')
  | Pending => (Pending, w')
  | Unhandled e => (Unhandled e, w')
  end.
Proof.
  intros Hex. unfold plan, process_cwd. rewrite bind_unfold.
  unfold existsSync at 1. rewrite bind_unfold, Hex.
  rewrite bind_unfold. unfold Prompts.confirm at 1.
  fold (confirm_message (Path.resolve (cwd w) name)).
  destruct (Prompts.confirm_loop (stdin w)) as [[[[|]|]|e|c| |e] rest];
    reflexivity.
Qed.

Lemma plan_fresh name w :
  Fs.existsSync (Path.resolve (cwd w) name) (fs w) = false ->
  plan E (Some (JString name)) w =
  let dir := Path.resolve (cwd w) name in
  match stdin w with
  | [] => (Pending, set_stdin [] (record [Ask "Discord bot token?"] w))
  | k :: rest =>
      (Normal (name,
               create_steps E name dir
                 match k with
                 | Submit typed =>
                     Prompts.submitted
                       (Some (JString "DISCORD_BOT_TOKEN_PLACEHOLDER")) typed
                 | Cancel => Json.undefined
                 end),
       set_stdin rest (record [Ask "Discord bot token?"] w))
  end.
Proof.
  intros Hex. unfold plan, process_cwd. rewrite bind_unfold.
  unfold existsSync at 1. rewrite bind_unfold, Hex.
  rewrite bind_unfold. unfold Prompts.password, Prompts.text.
  destruct (stdin w) as [|[typed|] rest]; reflexivity.
Qed.

(** The token of a create plan is the answer of the password prompt: a
    string or [undefined], so its conversion in a template literal never
    throws. *)
Lemma plan_token_is_text name w p w' :
  Fs.existsSync (Path.resolve (cwd w) name) (fs w) = false ->
  plan E (Some (JString name)) w = (Normal p, w') ->
  exists token,
    snd p = create_steps E name (Path.resolve (cwd w) name) token
    /\ (token = Json.undefined \/ exists text, token = Some (JString text))
    /\ Json.to_string_val (Number_toString E) token <> None.
Proof.
  intros Hex. rewrite (plan_fresh name w Hex). cbv zeta.
  destruct (stdin w) as [|k rest]; [discriminate|].
  intros H. injection H as <- _. eexists. split; [reflexivity|].
  destruct k as [typed|]; [|split; [now left|discriminate]].
  unfold Prompts.submitted.
  destruct (String.eqb typed ""); (split; [right; eauto|discriminate]).
Qed.

End Flow.

(* ================================================================== *)
(** * The claims about the prompts and the outcome of a run *)

(** C8.  The name collector is [ask_name], the text prompt of the script
    with its [validate] callback.  When the candidate that the user submits
    is rejected by the validator, which reports errors or warnings, the
    callback returns their text and the collector shows the question, then
    that text, and asks again: it ends as it would have ended on what the
    user does next, with the text shown in between.  It never answers with
    the rejected candidate: an answer is [undefined] (the prompt was
    cancelled) or a name the validator accepts, and on [undefined] the run
    throws at once without doing anything.  The prompt starts from the
    template's own name: an empty entry submits it, and it is the answer
    when the validator accepts it. *)
Theorem C8_invalid_names_are_asked_again
  (E : Env) (typed : string) (rest : list key) (texts : list string)
  (w : world) :
  let candidate :=
    Prompts.submitted (Json.obj_get "name" (appPackage E)) typed in
  let message := "Error: " +++ Text.join ", " texts +++ "." in
  stdin w = Submit typed :: rest ->
  validForNewPackages (validateName E candidate) = false ->
  complaints (validateName E candidate) = Some texts ->
  validate E candidate = Ok (JString message)
  /\ (exists r left shown,
        ask_name E (set_stdin rest w)
        = (r, mkWorld (fs w) (cwd w) left
                (trace w ++ Ask "Application name?" :: shown))
        /\ ask_name E w
           = (r, mkWorld (fs w) (cwd w) left
                   (trace w ++ Ask "Application name?"
                      :: Invalid message :: shown)))
  /\ (candidate <> Json.undefined ->
      forall v v1, ask_name E v <> (Normal candidate, v1))
  /\ (forall v a v1,
        ask_name E v = (Normal a, v1) ->
        a = Json.undefined \/ validForNewPackages (validateName E a) = true)
  /\ (forall v left,
        stdin v = Submit EmptyString :: left ->
        validForNewPackages
          (validateName E (Json.obj_get "name" (appPackage E))) = true ->
        ask_name E v
        = (Normal (Json.obj_get "name" (appPackage E)),
           set_stdin left (record [Ask "Application name?"] v)))
  /\ (forall v a v1,
        asked E v = (Normal a, v1) ->
        (a = Json.undefined /\ exists e, on_name E a v1 = (Throw e, v1))
        \/ validForNewPackages (validateName E a) = true).
Proof.
  intros candidate message Hin Hbad Htexts.
  set (initial := Json.obj_get "name" (appPackage E)) in *.
  assert (Hval : validate E candidate = Ok (JString message)).
  { unfold validate. now rewrite Hbad, Htexts. }
  assert (Hanswer : forall v a v1,
             ask_name E v = (Normal a, v1) ->
             a = Json.undefined
             \/ validForNewPackages (validateName E a) = true).
  { intros v a v1 H. rewrite ask_name_unfold in H. fold initial in H.
    destruct (Prompts.text_loop initial (validate E) (stdin v))
      as [[r left] es] eqn:Hl.
    simpl fst in H. injection H as -> _.
    destruct (text_loop_answer _ _ _ _ _ _ Hl) as [Hu|Hacc]; [now left|].
    right. now apply validate_accepted_valid. }
  split; [exact Hval|]. split; [|split; [|split; [|split]]].
  - rewrite !ask_name_unfold. fold initial.
    change (stdin (set_stdin rest w)) with rest. rewrite Hin.
    rewrite (text_loop_again initial (validate E) typed rest message)
      by (fold candidate; now rewrite Hval).
    destruct (Prompts.text_loop initial (validate E) rest) as [[r left] es].
    exists r, left, es. split; reflexivity.
  - intros Hdef v v1 H.
    destruct (Hanswer _ _ _ H) as [Hu|Hok]; congruence.
  - exact Hanswer.
  - intros v left Hv Hok. rewrite ask_name_unfold. fold initial. rewrite Hv.
    simpl Prompts.text_loop.
    change (Prompts.submitted initial EmptyString) with initial.
    rewrite (validate_accepts E initial Hok). reflexivity.
  - intros v a v1 H. unfold asked in H.
    destruct (Hanswer _ _ _ H) as [Hu|Hok]; [left|now right].
    split; [exact Hu|]. subst a. eexists. reflexivity.
Qed.

(** An instance of C8: [My Bot] is rejected with the validator's text and
    the collector goes on to the next entry, [my-bot], which it accepts. *)
Lemma C8_rejected_name_instance :
  let E := Demo.env [] true Demo.discord in
  let w := Demo.start [Submit "My Bot"; Submit "my-bot"] in
  let message := "Error: name can only contain URL-friendly characters." in
  validate E (Some (JString "My Bot")) = Ok (JString message)
  /\ ask_name E w
     = (Normal (Some (JString "my-bot")),
        mkWorld (fs w) (cwd w) []
          [Ask "Application name?"; Invalid message]).
Proof.
  intros E w message.
  destruct (C8_invalid_names_are_asked_again E "My Bot" [Submit "my-bot"]
              ["name can only contain URL-friendly characters"] w)
    as (Hval & (r & left & shown & Hrest & Hall) & _);
    [reflexivity | vm_compute; reflexivity | vm_compute; reflexivity |].
  split; [exact Hval|].
  rewrite Hall.
  assert (Hr : ask_name E (set_stdin [Submit "my-bot"] w)
               = (Normal (Some (JString "my-bot")),
                  mkWorld (fs w) (cwd w) [] [Ask "Application name?"]))
    by (vm_compute; reflexivity).
  rewrite Hr in Hrest. injection Hrest as <- <- Hshown.
  destruct shown; [reflexivity|discriminate].
Defined.

(** C2.  When the target path exists and the answer to the confirmation is
    anything but an explicit yes (a no, ENTER, a cancelled prompt, or no
    answer at all), the run leaves the whole file tree as it was, stays in
    its working directory, and does nothing but write to the terminal: no
    [fs] call, no change of directory, no child process. *)
Theorem C2_declined_update_changes_nothing
  (E : Env) (w w1 : world) (name : string) :
  asked E w = (Normal (Some (JString name)), w1) ->
  Fs.existsSync (Path.resolve (cwd w) name) (fs w) = true ->
  fst (Prompts.confirm_loop (stdin w1)) <> Normal (Some true) ->
  fs (snd (run E w)) = fs w
  /\ cwd (snd (run E w)) = cwd w
  /\ (fst (run E w) = Exited 0 \/ fst (run E w) = Waiting)
  /\ exists es,
       trace (snd (run E w)) = trace w ++ es
       /\ Forall (fun e => terminal e = true) es.
Proof.
  intros Hasked Hex Hno.
  destruct (asked_quiet E w _ _ Hasked) as (Hfs & Hcwd & es & Htr & Hes).
  unfold run. rewrite main_unfold, Hasked, on_name_unfold.
  rewrite plan_existing by (now rewrite Hfs, Hcwd).
  cbv zeta.
  pose proof (confirm_loop_ends (stdin w1)) as Hends.
  destruct (Prompts.confirm_loop (stdin w1)) as [c rest]. simpl in *.
  set (dir := Path.resolve (cwd w1) name).
  destruct c as [[[|]|]|e|c| |e]; try contradiction; simpl;
    (split; [exact Hfs|]; split; [exact Hcwd|]; split; [auto|]).
  - exists (es ++ [Ask (confirm_message dir); Log ""; LogError (ThrownString "Quitting...")]).
    rewrite Htr, <- !app_assoc. split; [reflexivity|].
    apply Forall_app. split; [exact Hes|]. repeat constructor.
  - exists (es ++ [Ask (confirm_message dir); Log ""; LogError (ThrownString "Quitting...")]).
    rewrite Htr, <- !app_assoc. split; [reflexivity|].
    apply Forall_app. split; [exact Hes|]. repeat constructor.
  - exists (es ++ [Ask (confirm_message dir)]).
    rewrite Htr, <- !app_assoc. split; [reflexivity|].
    apply Forall_app. split; [exact Hes|]. repeat constructor.
Qed.

(** An instance of C2: the user names an existing project and answers [n]. *)
Lemma C2_declined_update_instance :
  let E := Demo.env [] true Demo.discord in
  let w := Demo.start [Submit "old-bot"; Submit "n"] in
  fs (snd (run E w)) = fs w
  /\ cwd (snd (run E w)) = cwd w
  /\ (fst (run E w) = Exited 0 \/ fst (run E w) = Waiting)
  /\ exists es,
       trace (snd (run E w)) = trace w ++ es
       /\ Forall (fun e => terminal e = true) es.
Proof.
  intros E w.
  apply (C2_declined_update_changes_nothing E w (snd (asked E w)) "old-bot").
  - vm_compute. reflexivity.
  - vm_compute. reflexivity.
  - vm_compute. discriminate.
Defined.

(** ** The exit status *)

Lemma exits_zero_bind {A B} (m : M A) (k : A -> M B) :
  exits_zero m -> (forall a, exits_zero (k a)) -> exits_zero (bind m k).
Proof.
  intros Hm Hk w c w' H. rewrite bind_unfold in H.
  destruct (m w) as [[a|e|c'| |e] w1] eqn:Hmw; try discriminate.
  - exact (Hk a _ _ _ H).
  - injection H as <- _. exact (Hm _ _ _ Hmw).
Qed.

Lemma exits_zero_ret {A} (a : A) : exits_zero (ret a).
Proof. intros w c w' H. discriminate. Qed.

Lemma exits_zero_throw {A} (e : exn) : exits_zero (@throw A e).
Proof. intros w c w' H. discriminate. Qed.

Lemma exits_zero_emit (e : event) : exits_zero (emit e).
Proof. intros w c w' H. discriminate. Qed.

Lemma exits_zero_process_exit {A} : exits_zero (@process_exit A 0).
Proof. intros w c w' H. now injection H as <- _. Qed.

Lemma exits_zero_try_catch {A} (m : M A) (h : exn -> M A) :
  exits_zero m -> (forall e, exits_zero (h e)) -> exits_zero (try_catch m h).
Proof.
  intros Hm Hh w c w' H. unfold try_catch in H.
  destruct (m w) as [[a|e|c'| |e] w1] eqn:Hmw; try discriminate.
  - exact (Hh e _ _ _ H).
  - injection H as <- _. exact (Hm _ _ _ Hmw).
Qed.

Lemma exits_zero_mkdirSync p : exits_zero (mkdirSync p).
Proof.
  apply exits_zero_bind; [apply exits_zero_emit|].
  intros _ w c w' H. destruct (Fs.mkdirSync p (fs w)); discriminate.
Qed.

Lemma exits_zero_writeFileSync p data : exits_zero (writeFileSync p data).
Proof.
  apply exits_zero_bind; [apply exits_zero_emit|].
  intros _ w c w' H. destruct (Fs.writeFileSync p data (fs w)); discriminate.
Qed.

Lemma exits_zero_copySync src dest : exits_zero (copySync src dest).
Proof.
  apply exits_zero_bind; [apply exits_zero_emit|].
  intros _ w c w' H. destruct (Fs.copySync src dest (fs w)) as [t [e|]];
    discriminate.
Qed.

Lemma exits_zero_chdir p : exits_zero (chdir p).
Proof.
  apply exits_zero_bind; [apply exits_zero_emit|].
  intros _ w c w' H. destruct (Fs.is_dir p (fs w)); discriminate.
Qed.

Lemma exits_zero_execSync E command : exits_zero (execSync E command).
Proof.
  intros w c w' H. rewrite execSync_spec in H.
  destruct (snd (shell E command (cwd w) (fs w))); discriminate.
Qed.

Lemma exits_zero_getApplicationId E token : exits_zero (getApplicationId E token).
Proof. intros w c w' H. rewrite getApplicationId_spec in H. discriminate. Qed.

Lemma exits_zero_invite E id : exits_zero (invite E id).
Proof. intros w c w' H. rewrite invite_spec in H. destruct (Json.to_string _ id); discriminate. Qed.

Create HintDb exits.

#[local] Hint Resolve exits_zero_ret exits_zero_throw exits_zero_emit
  exits_zero_process_exit exits_zero_mkdirSync exits_zero_writeFileSync
  exits_zero_copySync exits_zero_chdir exits_zero_execSync
  exits_zero_getApplicationId exits_zero_invite : exits.

Ltac exits :=
  repeat first
    [ solve [auto with exits]
    | apply exits_zero_bind; [|intros ?] ].

Lemma exits_zero_forEach dry steps :
  Forall (fun s => exits_zero (action s)) steps ->
  exits_zero (forEach dry steps).
Proof.
  induction 1 as [|s steps Hs _ IH]; simpl; [apply exits_zero_ret|].
  apply exits_zero_bind; [apply exits_zero_emit|]. intros _.
  apply exits_zero_bind; [|intros _; exact IH].
  destruct (ignoreDry s || negb dry); [exact Hs|apply exits_zero_ret].
Qed.

Lemma exits_zero_create_steps E name dir token :
  Forall (fun s => exits_zero (action s)) (create_steps E name dir token).
Proof.
  unfold create_steps.
  repeat constructor; simpl action; unfold console_log; exits.
  match goal with |- context [Json.truthy ?x] => destruct (Json.truthy x) end;
    exits.
Qed.

Lemma exits_zero_update_steps E name dir :
  Forall (fun s => exits_zero (action s)) (update_steps E name dir).
Proof. unfold update_steps. repeat constructor; simpl action; exits. Qed.

(** The plan is one of the two step lists, and planning never leaves through
    [process.exit]. *)
Lemma plan_steps E a w p w' :
  plan E a w = (Normal p, w') ->
  Forall (fun s => exits_zero (action s)) (snd p).
Proof.
  destruct a as [[| | |name| |]|]; try discriminate.
  destruct (Fs.existsSync (Path.resolve (cwd w) name) (fs w)) eqn:Hex.
  - rewrite plan_existing by exact Hex. cbv zeta.
    destruct (fst (Prompts.confirm_loop (stdin w))) as [[[|]|]|e|c| |e];
      try discriminate.
    intros H. injection H as <- _. apply exits_zero_update_steps.
  - rewrite plan_fresh by exact Hex. cbv zeta.
    destruct (stdin w) as [|k rest]; [discriminate|].
    intros H. injection H as <- _. apply exits_zero_create_steps.
Qed.

Lemma plan_no_exit E a w c w' : plan E a w <> (Exit c, w').
Proof.
  destruct a as [[| | |name| |]|]; try discriminate.
  destruct (Fs.existsSync (Path.resolve (cwd w) name) (fs w)) eqn:Hex.
  - rewrite plan_existing by exact Hex. cbv zeta.
    pose proof (confirm_loop_ends (stdin w)) as Hends.
    destruct (fst (Prompts.confirm_loop (stdin w))) as [[[|]|]|e|c'| |e];
      try discriminate; contradiction.
  - rewrite plan_fresh by exact Hex. cbv zeta.
    destruct (stdin w) as [|k rest]; discriminate.
Qed.

Lemma exits_zero_execute E name steps :
  Forall (fun s => exits_zero (action s)) steps ->
  exits_zero (execute E name steps).
Proof.
  intros H. unfold execute, console_log.
  apply exits_zero_bind; [apply exits_zero_emit|]. intros _.
  apply exits_zero_bind; [now apply exits_zero_forEach|]. intros _.
  exits.
Qed.

Lemma exits_zero_main E : exits_zero (main E).
Proof.
  intros w c w' H. rewrite main_unfold in H.
  destruct (asked E w) as [[a|e|c'| |e] w1] eqn:Ha; try discriminate.
  - rewrite on_name_unfold in H.
    destruct (plan E a w1) as [[p|e|c'| |e] w2] eqn:Hp; try discriminate.
    + destruct (execute E (fst p) (snd p) w2) as [[[]|e|c'| |e] w3] eqn:Hx;
        try discriminate.
      injection H as <- _.
      exact (exits_zero_execute E _ _ (plan_steps E a w1 p w2 Hp) _ _ _ Hx).
    + exfalso. exact (plan_no_exit E a w1 c' w2 Hp).
  - exfalso. unfold asked in Ha. rewrite ask_name_unfold in Ha.
    injection Ha as Ha _.
    pose proof (text_loop_ends (Json.obj_get "name" (appPackage E)) (validate E)
                  (stdin w)) as Hends.
    now rewrite Ha in Hends.
Qed.

(** C1, as the code has it.  The script never sets an exit status other than
    0: whenever the process exits, it exits with status 0.  A declined
    update throws ["Quitting..."], a failing step throws its error; either
    way the top-level handler prints the thrown value with [console.error],
    the closing summary is not printed, and the process ends with status 0.
    A run whose steps all go through prints the summary and leaves through
    [process.exit(0)]. *)
Theorem C1_every_exit_has_status_zero (E : Env) (w : world) :
  (forall c, fst (run E w) = Exited c -> c = 0%Z)
  /\ (forall name w1 u rest,
        asked E w = (Normal (Some (JString name)), w1) ->
        Fs.existsSync (Path.resolve (cwd w1) name) (fs w1) = true ->
        Prompts.confirm_loop (stdin w1) = (Normal u, rest) ->
        u <> Some true ->
        run E w =
        (Exited 0,
         record [Log ""; LogError (ThrownString "Quitting...")]
           (set_stdin rest
              (record [Ask (confirm_message (Path.resolve (cwd w1) name))] w1))))
  /\ (forall a w1 p w2 e w3,
        asked E w = (Normal a, w1) ->
        plan E a w1 = (Normal p, w2) ->
        forEach (isDryRun E) (snd p) (record [Log ""] w2) = (Throw e, w3) ->
        run E w = (Exited 0, record [LogError e] w3))
  /\ (forall a w1 p w2 w3,
        asked E w = (Normal a, w1) ->
        plan E a w1 = (Normal p, w2) ->
        forEach (isDryRun E) (snd p) (record [Log ""] w2) = (Normal tt, w3) ->
        run E w =
        (Exited 0, record [Log ""; Log (done_message (fst p))] w3)).
Proof.
  split; [|split; [|split]].
  - intros c H. unfold run in H.
    destruct (main E w) as [[[]|e|c'| |e] w'] eqn:Hm; try discriminate.
    + now injection H as <-.
    + injection H as <-. exact (exits_zero_main E _ _ _ Hm).
  - intros name w1 u rest Hasked Hex Hc Hu.
    unfold run. rewrite main_unfold, Hasked, on_name_unfold.
    rewrite plan_existing by exact Hex. cbv zeta. rewrite Hc. simpl fst; simpl snd.
    destruct u as [[|]|]; [contradiction| |];
      cbv iota; now rewrite record_record.
  - intros a w1 p w2 e w3 Hasked Hplan Hrun.
    unfold run. rewrite main_unfold, Hasked, on_name_unfold, Hplan.
    now rewrite execute_unfold, Hrun.
  - intros a w1 p w2 w3 Hasked Hplan Hrun.
    unfold run. rewrite main_unfold, Hasked, on_name_unfold, Hplan.
    now rewrite execute_unfold, Hrun.
Qed.

(** An instance of C1: the abort of a declined update. *)
Lemma C1_declined_update_instance :
  let E := Demo.env [] true Demo.discord in
  let w := Demo.start [Submit "old-bot"; Submit "n"] in
  let w1 := snd (asked E w) in
  run E w =
  (Exited 0,
   record [Log ""; LogError (ThrownString "Quitting...")]
     (set_stdin []
        (record [Ask (confirm_message (Path.resolve (cwd w1) "old-bot"))] w1))).
Proof.
  intros E w w1.
  destruct (C1_every_exit_has_status_zero E w) as (_ & Habort & _).
  apply (Habort "old-bot" w1 (Some false) []).
  - vm_compute. reflexivity.
  - vm_compute. reflexivity.
  - vm_compute. reflexivity.
  - discriminate.
Defined.

(** C1 as stated fails on an abort and on a step failure: the declined
    update, and the create plan with a failing installer, both end with
    exit status 0, the same status as a fully successful run. *)
Lemma C1_abort_and_step_failure_exit_with_zero :
  let declined := run (Demo.env [] true Demo.discord)
                    (Demo.start [Submit "old-bot"; Submit "n"]) in
  let failed := run (Demo.env [] false Demo.discord)
                  (Demo.start [Submit "my-bot"; Submit "good-token"]) in
  let succeeded := run (Demo.env [] true Demo.discord)
                     (Demo.start [Submit "my-bot"; Submit "good-token"]) in
  fst declined = Exited 0
  /\ last (trace (snd declined)) (Log EmptyString)
     = LogError (ThrownString "Quitting...")
  /\ fst failed = Exited 0
  /\ last (trace (snd failed)) (Log EmptyString) = LogError (ExecError "npm ci")
  /\ fst succeeded = Exited 0
  /\ last (trace (snd succeeded)) (Log EmptyString) = Log (done_message "my-bot").
Proof.
  cbv zeta. repeat split; vm_compute; reflexivity.
Qed.

(* ================================================================== *)
(** * Objects and the manifest *)

Lemma obj_get_set_same k v o : Json.obj_get k (Json.obj_set k v o) = Some v.
Proof.
  induction o as [|[k' v'] o IH]; simpl.
  - now rewrite String.eqb_refl.
  - destruct (String.eqb k k') eqn:Hk; simpl.
    + now rewrite String.eqb_refl.
    + now rewrite Hk.
Qed.

Lemma obj_get_set_other k k' v o :
  k <> k' -> Json.obj_get k (Json.obj_set k' v o) = Json.obj_get k o.
Proof.
  intros Hne. induction o as [|[k2 v2] o IH]; simpl.
  - now rewrite (proj2 (String.eqb_neq k k') Hne).
  - destruct (String.eqb k' k2) eqn:Hk; simpl.
    + apply String.eqb_eq in Hk. subst k2.
      now rewrite (proj2 (String.eqb_neq k k') Hne).
    + destruct (String.eqb k k2); [reflexivity|exact IH].
Qed.

(** Setting a field leaves the others where they are. *)
Lemma without_set ks k v o :
  In k ks -> without ks (Json.obj_set k v o) = without ks o.
Proof.
  intros Hin.
  assert (Hk : existsb (String.eqb k) ks = true).
  { apply existsb_exists. exists k. split; [exact Hin|apply String.eqb_refl]. }
  induction o as [|[k' v'] o IH]; simpl.
  - now rewrite Hk.
  - destruct (String.eqb k k') eqn:Hkk; simpl.
    + apply String.eqb_eq in Hkk. subst k'. now rewrite Hk.
    + now rewrite IH.
Qed.

Lemma obj_set_cons k v o : exists f fs, Json.obj_set k v o = f :: fs.
Proof.
  destruct o as [|[k' v'] o]; simpl; [eauto|].
  destruct (String.eqb k k'); eauto.
Qed.

Lemma stringify2_object nts f fs :
  Json.stringify2 nts (JObject (f :: fs)) =
  "{" +++ nl +++ "  "
    +++ Text.join ("," +++ nl +++ "  ")
          (map (fun kv => Json.quote (fst kv) +++ ": "
                            +++ Json.serialize nts "  " "  " (snd kv))
               (f :: fs))
    +++ nl +++ "}".
Proof. reflexivity. Qed.

(* ================================================================== *)
(** * The file tree *)

Module FsFacts.

Import Fs.

Lemma lookup_bind_same n x es : lookup n (bind_entry n x es) = Some x.
Proof.
  induction es as [|[m y] es IH]; simpl.
  - now rewrite String.eqb_refl.
  - destruct (String.eqb n m) eqn:Hn; simpl; now rewrite Hn.
Qed.

Lemma lookup_bind_other n m x es :
  n <> m -> lookup n (bind_entry m x es) = lookup n es.
Proof.
  intros Hne. apply String.eqb_neq in Hne.
  induction es as [|[k y] es IH]; simpl.
  - now rewrite Hne.
  - destruct (String.eqb m k) eqn:Hm; simpl.
    + apply String.eqb_eq in Hm. subst k. now rewrite Hne.
    + destruct (String.eqb n k); [reflexivity|exact IH].
Qed.

(** Binding a name to what it is bound to changes nothing. *)
Lemma bind_entry_lookup n x es : lookup n es = Some x -> bind_entry n x es = es.
Proof.
  induction es as [|[m y] es IH]; simpl; [discriminate|].
  destruct (String.eqb n m) eqn:Hn.
  - intros H. injection H as ->. reflexivity.
  - intros H. now rewrite IH.
Qed.

Lemma get_put_same p x t t' : put p x t = Some t' -> get p t' = Some x.
Proof.
  revert t t'. induction p as [|c p IH]; intros t t' H; simpl in *.
  - now injection H as ->.
  - destruct t as [data|es]; [discriminate|].
    destruct p as [|c' p'].
    + injection H as <-. simpl. now rewrite lookup_bind_same.
    + destruct (lookup c es) as [y|]; [|discriminate].
      destruct (put (c' :: p') x y) as [y'|] eqn:Hy; [|discriminate].
      injection H as <-. rewrite lookup_bind_same. exact (IH _ _ Hy).
Qed.

(** Putting back what is there changes nothing. *)
Lemma put_get_id p x t : get p t = Some x -> put p x t = Some t.
Proof.
  revert t. induction p as [|c p IH]; intros t H; simpl in *.
  - now injection H as ->.
  - destruct t as [data|es]; [discriminate|].
    destruct (lookup c es) as [y|] eqn:Hc; [|discriminate].
    destruct p as [|c' p'].
    + simpl in H. injection H as ->. now rewrite (bind_entry_lookup _ _ _ Hc).
    + rewrite (IH _ H). now rewrite (bind_entry_lookup _ _ _ Hc).
Qed.

Lemma get_put_apart p q x t t' :
  put p x t = Some t' ->
  Path.is_prefix p q = false -> Path.is_prefix q p = false ->
  get q t' = get q t.
Proof.
  revert q t t'. induction p as [|c p IH]; intros q t t' H Hpq Hqp.
  - discriminate.
  - destruct q as [|d q]; [discriminate|].
    simpl in H. destruct t as [data|es]; [discriminate|].
    simpl in Hpq, Hqp.
    destruct (String.eqb c d) eqn:Hcd.
    + apply String.eqb_eq in Hcd. subst d. rewrite String.eqb_refl in Hqp.
      simpl in Hpq, Hqp.
      destruct p as [|c' p']; [discriminate|].
      destruct (lookup c es) as [y|] eqn:Hc; [|discriminate].
      destruct (put (c' :: p') x y) as [y'|] eqn:Hy; [|discriminate].
      injection H as <-. simpl. rewrite lookup_bind_same, Hc.
      exact (IH _ _ _ Hy Hpq Hqp).
    + assert (Hne : d <> c).
      { intros ->. now rewrite String.eqb_refl in Hcd. }
      destruct (match p with
                | [] => Some x
                | _ :: _ => match lookup c es with
                            | Some y => put p x y
                            | None => None
                            end
                end) as [y'|]; [|discriminate].
      injection H as <-. simpl. now rewrite (lookup_bind_other _ _ _ _ Hne).
Qed.

Lemma stat_get_file p t data : get p t = Some (File data) -> stat_at p t = IsFile.
Proof.
  revert t. induction p as [|c p IH]; intros t H; simpl in *.
  - now injection H as ->.
  - destruct t as [d|es]; [discriminate|].
    destruct (lookup c es); [now apply IH|discriminate].
Qed.

Lemma stat_get p t x : get p t = Some x -> stat_at p t = kind x.
Proof.
  revert t. induction p as [|c p IH]; intros t H; simpl in *.
  - now injection H as ->.
  - destruct t as [d|es]; [discriminate|].
    destruct (lookup c es); [now apply IH|discriminate].
Qed.

(** A file on the way to [p] makes [stat] fail with [ENOTDIR]. *)
Lemma stat_below_file q p t data :
  get q t = Some (File data) ->
  Path.is_prefix q p = true -> Path.is_prefix p q = false ->
  stat_at p t = NotDir.
Proof.
  revert p t. induction q as [|c q IH]; intros p t H Hqp Hpq.
  - simpl in H. injection H as ->. destruct p; [discriminate|reflexivity].
  - destruct p as [|d p]; [discriminate|].
    simpl in *. destruct t as [x|es]; [discriminate|].
    destruct (String.eqb c d) eqn:Hcd; [|discriminate].
    apply String.eqb_eq in Hcd. subst d. rewrite String.eqb_refl in Hpq.
    simpl in *.
    destruct (lookup c es); [|discriminate].
    now apply IH.
Qed.

Lemma get_parent p c t x :
  get (p ++ [c]) t = Some x -> exists es, get p t = Some (Dir es).
Proof.
  revert t. induction p as [|d p IH]; intros t H; simpl in *.
  - destruct t as [data|es]; [discriminate|]. eauto.
  - destruct t as [data|es]; [discriminate|].
    destruct (lookup d es); [now apply IH|discriminate].
Qed.

Lemma writeFileSync_put p data t t' :
  writeFileSync p data t = Ok t' -> put p (File data) t = Some t'.
Proof.
  unfold writeFileSync, put_or.
  destruct (stat_at p t); try discriminate.
  - destruct (put p (File data) t); [|discriminate].
    intros H. now injection H as ->.
  - destruct (is_dir (removelast p) t); [|discriminate].
    destruct (put p (File data) t); [|discriminate].
    intros H. now injection H as ->.
Qed.

Lemma readFile_written p data t t' :
  writeFileSync p data t = Ok t' -> readFile p t' = Some data.
Proof.
  intros H. apply writeFileSync_put in H. unfold readFile.
  now rewrite (get_put_same _ _ _ _ H).
Qed.

Lemma prefix_refl p : Path.is_prefix p p = true.
Proof. induction p; simpl; [reflexivity|]. now rewrite String.eqb_refl. Qed.

(** Two different names in one directory are apart. *)
Lemma siblings_apart d a b :
  a <> b -> Path.is_prefix (d ++ [a]) (d ++ [b]) = false.
Proof.
  intros Hne. induction d as [|c d IH]; simpl.
  - now rewrite (proj2 (String.eqb_neq a b) Hne).
  - now rewrite String.eqb_refl.
Qed.

Lemma readFile_other_written d a b data t t' :
  a <> b ->
  writeFileSync (d ++ [a]) data t = Ok t' ->
  readFile (d ++ [b]) t' = readFile (d ++ [b]) t.
Proof.
  intros Hne H. apply writeFileSync_put in H. unfold readFile.
  rewrite (get_put_apart _ (d ++ [b]) _ _ _ H); [reflexivity| |];
    apply siblings_apart; congruence.
Qed.

End FsFacts.

(* ================================================================== *)
(** * Running the actions *)

Lemma bind_normal_inv {A B} (m : M A) (k : A -> M B) w b w' :
  bind m k w = (Normal b, w') ->
  exists a w1, m w = (Normal a, w1) /\ k a w1 = (Normal b, w').
Proof.
  rewrite bind_unfold.
  destruct (m w) as [[a|e|c| |e] w1]; try discriminate. eauto.
Qed.

Lemma forEach_normal_inv s rest w w' :
  forEach false (s :: rest) w = (Normal tt, w') ->
  exists w1,
    action s (record [Log (message s)] w) = (Normal tt, w1)
    /\ forEach false rest w1 = (Normal tt, w').
Proof.
  rewrite forEach_cons, orb_true_r. intros H.
  apply bind_normal_inv in H. destruct H as ([] & w1 & H1 & H2). eauto.
Qed.

Lemma writeFileSync_normal p data w w' :
  writeFileSync p data w = (Normal tt, w') ->
  exists t, Fs.writeFileSync p data (fs w) = Ok t
            /\ w' = set_fs t (record [Write p data] w).
Proof.
  unfold writeFileSync. rewrite emit_bind.
  change (fs (record [Write p data] w)) with (fs w).
  destruct (Fs.writeFileSync p data (fs w)) as [t|e]; [|discriminate].
  intros H. injection H as <-. eauto.
Qed.

Lemma copySync_normal src dest w w' :
  copySync src dest w = (Normal tt, w') ->
  exists t, Fs.copySync src dest (fs w) = (t, None)
            /\ w' = set_fs t (record [Copy src dest] w).
Proof.
  unfold copySync. rewrite emit_bind.
  change (fs (record [Copy src dest] w)) with (fs w).
  destruct (Fs.copySync src dest (fs w)) as [t [e|]]; [discriminate|].
  intros H. injection H as <-. eauto.
Qed.

Lemma chdir_normal p w w' :
  chdir p w = (Normal tt, w') -> fs w' = fs w /\ cwd w' = p.
Proof.
  unfold chdir. rewrite emit_bind.
  change (fs (record [Chdir p] w)) with (fs w).
  destruct (Fs.is_dir p (fs w)); [|discriminate].
  intros H. now injection H as <-.
Qed.

Lemma execSync_cwd E command w r w' :
  execSync E command w = (r, w') -> cwd w' = cwd w.
Proof. rewrite execSync_spec. intros H. now injection H as _ <-. Qed.

Lemma execSync_fs E command w r w' :
  execSync E command w = (r, w') ->
  fs w' = fst (shell E command (cwd w) (fs w)).
Proof. rewrite execSync_spec. intros H. now injection H as _ <-. Qed.

(* ================================================================== *)
(** * The claims about the files of the create plan *)

(** C4.  The manifest step writes one file, [package.json] in the target
    directory.  Its text is [JSON.stringify(newPackage, null, 2)] and a
    newline: an opening brace, one member per line behind two spaces, a
    closing brace.  [newPackage] holds the supplied name and the generator
    string under [name] and [description]; every other field of the
    template's manifest is there with the value it had, and these fields
    stand in the order they had. *)
Theorem C4_manifest_keeps_other_fields (E : Env) (name : string) (dir : path) :
  action (step_manifest E name dir)
  = writeFileSync (dir ++ ["package.json"]) (manifest_text E name)
  /\ manifest_text E name
     = Json.stringify2 (Number_toString E) (JObject (newPackage E name)) +++ nl
  /\ manifest_text E name
     = ("{" +++ nl +++ "  "
          +++ Text.join ("," +++ nl +++ "  ") (map (member E) (newPackage E name))
          +++ nl +++ "}") +++ nl
  /\ Json.obj_get "name" (newPackage E name) = Some (JString name)
  /\ Json.obj_get "description" (newPackage E name)
     = Some (JString (description E))
  /\ (forall k, k <> "name" -> k <> "description" ->
        Json.obj_get k (newPackage E name) = Json.obj_get k (appPackage E))
  /\ without ["name"; "description"] (newPackage E name)
     = without ["name"; "description"] (appPackage E)
  /\ (forall w w',
        action (step_manifest E name dir) w = (Normal tt, w') ->
        Fs.readFile (dir ++ ["package.json"]) (fs w')
        = Some (manifest_text E name)).
Proof.
  repeat split.
  - unfold manifest_text, newPackage.
    destruct (obj_set_cons "description" (JString (description E))
                (Json.obj_set "name" (JString name) (appPackage E)))
      as (f & fs & ->).
    now rewrite stringify2_object.
  - unfold newPackage.
    rewrite obj_get_set_other by discriminate. apply obj_get_set_same.
  - unfold newPackage. apply obj_get_set_same.
  - intros k Hn Hd. unfold newPackage.
    now rewrite !obj_get_set_other by assumption.
  - unfold newPackage. rewrite !without_set; simpl; auto.
  - intros w w' H. simpl action in H.
    apply writeFileSync_normal in H. destruct H as (t & Ht & ->).
    exact (FsFacts.readFile_written _ _ _ _ Ht).
Qed.

(** An instance of C4: the manifest step in a freshly made project
    directory. *)
Lemma C4_manifest_instance :
  let E := Demo.env [] true Demo.discord in
  let dir := Demo.home ++ ["old-bot"] in
  let w' := snd (action (step_manifest E "my-bot" dir) (Demo.start [])) in
  Fs.readFile (dir ++ ["package.json"]) (fs w') = Some (manifest_text E "my-bot")
  /\ Json.obj_get "version" (newPackage E "my-bot") = Some (JString "1.0.0").
Proof.
  intros E dir w'.
  destruct (C4_manifest_keeps_other_fields E "my-bot" dir)
    as (_ & _ & _ & _ & _ & Hother & _ & Hfile).
  split.
  - apply (Hfile (Demo.start [])). vm_compute. reflexivity.
  - rewrite Hother by discriminate. reflexivity.
Defined.

Section CreatePlan.

Variable E : Env.

(** The files the first four steps leave in the target directory. *)
Lemma first_four_steps_files name dir token w w4 :
  forEach false [step_mkdir name dir; step_boilerplate E dir;
                 step_manifest E name dir; step_env E dir token] w
    = (Normal tt, w4) ->
  Fs.readFile (dir ++ ["package.json"]) (fs w4) = Some (manifest_text E name)
  /\ Fs.readFile (dir ++ [".gitignore"]) (fs w4) = Some gitignore_text
  /\ Fs.readFile (dir ++ [".env"]) (fs w4) = Some (env_text E token).
Proof.
  intros H.
  apply forEach_normal_inv in H. destruct H as (w1 & _ & H).
  apply forEach_normal_inv in H. destruct H as (w2 & H2 & H).
  apply forEach_normal_inv in H. destruct H as (w3 & H3 & H).
  apply forEach_normal_inv in H. destruct H as (w4' & H4 & H).
  simpl in H. injection H as <-.
  simpl action in H2, H3, H4.
  apply bind_normal_inv in H2. destruct H2 as ([] & w2' & _ & H2).
  apply writeFileSync_normal in H2. destruct H2 as (t2 & Ht2 & ->).
  apply writeFileSync_normal in H3. destruct H3 as (t3 & Ht3 & ->).
  apply writeFileSync_normal in H4. destruct H4 as (t4 & Ht4 & ->).
  simpl fs in *.
  split; [|split].
  - rewrite (FsFacts.readFile_other_written dir ".env" "package.json" _ _ _
               ltac:(discriminate) Ht4).
    exact (FsFacts.readFile_written _ _ _ _ Ht3).
  - rewrite (FsFacts.readFile_other_written dir ".env" ".gitignore" _ _ _
               ltac:(discriminate) Ht4).
    rewrite (FsFacts.readFile_other_written dir "package.json" ".gitignore" _ _ _
               ltac:(discriminate) Ht3).
    exact (FsFacts.readFile_written _ _ _ _ Ht2).
  - exact (FsFacts.readFile_written _ _ _ _ Ht4).
Qed.

(** The last two steps change the file tree through their child processes
    only, both started in the target directory. *)
Lemma last_two_steps_fs dir token w4 w' :
  forEach false [step_install E dir; step_invite E token] w4 = (Normal tt, w') ->
  fs w' = fst (shell E (curl_command E token) dir
                 (fst (shell E "npm ci" dir (fs w4)))).
Proof.
  intros H.
  apply forEach_normal_inv in H. destruct H as (w5 & H5 & H).
  apply forEach_normal_inv in H. destruct H as (w6 & H6 & H).
  simpl in H. injection H as <-.
  simpl action in H5.
  apply bind_normal_inv in H5. destruct H5 as ([] & wa & Ha & H5).
  apply bind_normal_inv in H5. destruct H5 as (out & wb & Hb & H5).
  injection H5 as <-.
  apply chdir_normal in Ha. destruct Ha as (Hfa & Hca).
  pose proof (execSync_cwd _ _ _ _ _ Hb) as Hcb.
  apply execSync_fs in Hb.
  destruct (step_invite_spec E token
              (record [Log (message (step_invite E token))] wb))
    as (id & _ & Hs).
  rewrite Hs in H6.
  destruct (invite_line E id) as [line|]; [|discriminate].
  injection H6 as <-.
  unfold after_lookup. simpl. now rewrite Hb, Hcb, Hca, Hfa.
Qed.

End CreatePlan.

(** C3.  Take a create plan that ran to completion without the dry-run
    flag.  In [newPackage] the [name] is the supplied name and the
    [description] is the generator string made from the tool's own name and
    version.  When the plan's own four file steps are done, the target is a
    directory that holds [package.json] with the text of [newPackage],
    [.gitignore] with exactly the two entries [node_modules/] and [.env],
    and [.env] with the one line [DISCORD_BOT_TOKEN=] followed by the
    supplied credential.  From there on the file tree changes only through
    the two child processes, the installer and the lookup, both started in
    the target directory; when these leave the three files alone, the
    finished run has them as described. *)
Theorem C3_create_plan_files
  (E : Env) (app : string) (dir : path) (token : string) (w w' : world) :
  isDryRun E = false ->
  forEach (isDryRun E) (create_steps E app dir (Some (JString token))) w
    = (Normal tt, w') ->
  Json.obj_get "name" (newPackage E app) = Some (JString app)
  /\ Json.obj_get "description" (newPackage E app)
     = Some (JString ("Generated by "
                        +++ (str E (name E) +++ " v" +++ str E (version E))
                        +++ "."))
  /\ (exists w4,
        forEach false [step_mkdir app dir; step_boilerplate E dir;
                       step_manifest E app dir;
                       step_env E dir (Some (JString token))] w
          = (Normal tt, w4)
        /\ project_files E app dir token (fs w4)
        /\ fs w' = fst (shell E (curl_command E (Some (JString token))) dir
                          (fst (shell E "npm ci" dir (fs w4)))))
  /\ ((forall p,
         In p [dir ++ ["package.json"]; dir ++ [".gitignore"]; dir ++ [".env"]] ->
         preserves E "npm ci" p
         /\ preserves E (curl_command E (Some (JString token))) p) ->
      project_files E app dir token (fs w')).
Proof.
  intros Hdry Hrun. rewrite Hdry in Hrun.
  change (create_steps E app dir (Some (JString token)))
    with ([step_mkdir app dir; step_boilerplate E dir;
           step_manifest E app dir; step_env E dir (Some (JString token))]
            ++ [step_install E dir; step_invite E (Some (JString token))])
    in Hrun.
  rewrite forEach_app in Hrun.
  apply bind_normal_inv in Hrun. destruct Hrun as ([] & w4 & H4 & H6).
  destruct (first_four_steps_files E _ _ _ _ _ H4) as (Hm & Hg & He).
  pose proof (last_two_steps_fs E _ _ _ _ H6) as Hfs.
  assert (Hdir : forall t data,
             Fs.readFile (dir ++ [".env"]) t = Some data ->
             Fs.is_dir dir t = true).
  { intros t data Hr. unfold Fs.readFile in Hr. unfold Fs.is_dir.
    destruct (Fs.get (dir ++ [".env"]) t) as [x|] eqn:Hx; [|discriminate].
    destruct (FsFacts.get_parent _ _ _ _ Hx) as (es & ->). reflexivity. }
  assert (H4files : project_files E app dir token (fs w4)).
  { unfold project_files. split; [exact (Hdir _ _ He)|]. repeat split; assumption. }
  split; [|split; [|split]].
  - unfold newPackage.
    rewrite obj_get_set_other by discriminate. apply obj_get_set_same.
  - unfold newPackage. apply obj_get_set_same.
  - exists w4. split; [exact H4|]. split; [exact H4files|exact Hfs].
  - intros Hframe.
    assert (Hkeep : forall p,
               In p [dir ++ ["package.json"]; dir ++ [".gitignore"];
                     dir ++ [".env"]] ->
               Fs.readFile p (fs w') = Fs.readFile p (fs w4)).
    { intros p Hp. destruct (Hframe p Hp) as (Hnpm & Hcurl).
      now rewrite Hfs, Hcurl, Hnpm. }
    assert (Henv : Fs.readFile (dir ++ [".env"]) (fs w')
                   = Some ("DISCORD_BOT_TOKEN=" +++ token)).
    { rewrite Hkeep by (simpl; auto). exact He. }
    unfold project_files. split; [exact (Hdir _ _ Henv)|].
    split; [|split].
    + rewrite Hkeep by (simpl; auto). exact Hm.
    + rewrite Hkeep by (simpl; auto). exact Hg.
    + exact Henv.
Qed.

(* ================================================================== *)
(** * Frames of the file-tree operations *)

Module FrameFacts.

Import Fs.

(** Above the place where a node is put there are directories, before and
    after. *)
Lemma put_above p q x t t' :
  put q x t = Some t' ->
  Path.is_prefix p q = true -> Path.is_prefix q p = false ->
  (exists es, get p t = Some (Dir es)) /\ (exists es, get p t' = Some (Dir es)).
Proof.
  revert q t t'. induction p as [|c p IH]; intros q t t' H Hpq Hqp.
  - destruct q as [|d q]; [discriminate|].
    simpl in H. destruct t as [data|es]; [discriminate|].
    destruct (match q with
              | [] => Some x
              | _ :: _ => match lookup d es with
                          | Some y => put q x y
                          | None => None
                          end
              end); [|discriminate].
    injection H as <-. simpl. eauto.
  - destruct q as [|d q]; [discriminate|].
    simpl in Hpq, Hqp.
    destruct (String.eqb c d) eqn:Hcd; [|discriminate].
    apply String.eqb_eq in Hcd. subst d.
    rewrite String.eqb_refl in Hqp. simpl in Hpq, Hqp.
    simpl in H. destruct t as [data|es]; [discriminate|].
    destruct q as [|d' q'].
    + destruct p; discriminate.
    + destruct (lookup c es) as [y|] eqn:Hc; [|discriminate].
      destruct (put (d' :: q') x y) as [y'|] eqn:Hy; [|discriminate].
      injection H as <-. simpl. rewrite Hc, FsFacts.lookup_bind_same.
      exact (IH _ _ _ Hy Hpq Hqp).
Qed.

(** Putting a node at [q] leaves every file that is not at or below [q]. *)
Lemma readFile_put q x t t' p :
  put q x t = Some t' ->
  Path.is_prefix q p = false ->
  readFile p t' = readFile p t.
Proof.
  intros H Hqp. unfold readFile.
  destruct (Path.is_prefix p q) eqn:Hpq.
  - destruct (put_above p q x t t' H Hpq Hqp) as ((es & ->) & (es' & ->)).
    reflexivity.
  - now rewrite (FsFacts.get_put_apart _ _ _ _ _ H Hqp Hpq).
Qed.

(** A path that has [a] as the last component of one of its prefixes
    contains [a]. *)
Lemma prefix_ends d a p :
  Path.is_prefix (d ++ [a]) p = true -> existsb (String.eqb a) p = true.
Proof.
  revert p. induction d as [|c d IH]; intros p H.
  - destruct p as [|b p]; [discriminate|]. simpl in *.
    apply andb_prop in H. destruct H as [H _].
    now rewrite H.
  - destruct p as [|b p]; [discriminate|]. simpl in *.
    apply andb_prop in H. destruct H as [_ H].
    rewrite (IH _ H). apply orb_true_r.
Qed.

End FrameFacts.

(** The child processes of the concrete environment keep every file whose
    path has no [node_modules] in it. *)
Lemma demo_child_preserves args npm_ok answers command p :
  existsb (String.eqb "node_modules") p = false ->
  preserves (Demo.env args npm_ok answers) command p.
Proof.
  intros Hp cwd t. unfold Demo.env, shell, Demo.child.
  destruct (String.eqb command "npm ci").
  - destruct npm_ok; [|reflexivity].
    destruct (Fs.put (cwd ++ ["node_modules"]) (Fs.Dir []) t) as [t'|] eqn:Hput;
      [|reflexivity].
    simpl fst. apply (FrameFacts.readFile_put _ _ _ _ _ Hput).
    destruct (Path.is_prefix (cwd ++ ["node_modules"]) p) eqn:Hpre;
      [|reflexivity].
    apply FrameFacts.prefix_ends in Hpre. congruence.
  - destruct (String.prefix "curl " command); reflexivity.
Qed.

(** An instance of C3: the create plan for [my-bot] in the concrete
    environment, whose child processes leave the three files alone; the
    manifest that was written parses back to [newPackage]. *)
Lemma C3_create_plan_instance :
  let E := Demo.env [] true Demo.discord in
  let dir := Demo.home ++ ["my-bot"] in
  let w' := snd (forEach false
                   (create_steps E "my-bot" dir (Some (JString "good-token")))
                   (Demo.start [])) in
  project_files E "my-bot" dir "good-token" (fs w')
  /\ Json.parse (manifest_text E "my-bot") = Some (JObject (newPackage E "my-bot")).
Proof.
  intros E dir w'.
  split; [|vm_compute; reflexivity].
  destruct (C3_create_plan_files E "my-bot" dir "good-token" (Demo.start []) w')
    as (_ & _ & _ & Hfiles).
  - reflexivity.
  - vm_compute. reflexivity.
  - apply Hfiles. intros p Hp. split; apply demo_child_preserves;
      simpl in Hp; decompose [or] Hp; subst; try reflexivity; contradiction.
Defined.

(* ================================================================== *)
(** * Copying a tree twice *)

Module CopyFacts.

Import Fs.

(** Induction on trees, with the hypothesis for every entry of a
    directory. *)
Lemma node_induction (P : node -> Prop) :
  (forall data, P (File data)) ->
  (forall es, Forall (fun kv => P (snd kv)) es -> P (Dir es)) ->
  forall t, P t.
Proof.
  intros Hfile Hdir.
  refine (fix IH (t : node) : P t :=
            match t with
            | File data => Hfile data
            | Dir es =>
                Hdir es
                  ((fix go (l : list (string * node))
                      : Forall (fun kv => P (snd kv)) l :=
                      match l with
                      | [] => Forall_nil _
                      | kv :: l' => Forall_cons kv (IH (snd kv)) (go l')
                      end) es)
            end).
Qed.

Section Items.

Variable copy : node -> option node -> node * option exn.

(** Copying items leaves the entries with other names alone. *)
Lemma copy_items_other items acc es' o n :
  copy_items copy items acc = (es', o) ->
  existsb (String.eqb n) (map fst items) = false ->
  lookup n es' = lookup n acc.
Proof.
  revert acc. induction items as [|[m c] items IH]; intros acc H Hn.
  - simpl in H. now injection H as <- _.
  - simpl in H, Hn. apply orb_false_elim in Hn. destruct Hn as [Hnm Hn].
    assert (Hne : n <> m) by (now apply String.eqb_neq).
    destruct (copy c (lookup m acc)) as [c' [e|]].
    + injection H as <- _. now apply FsFacts.lookup_bind_other.
    + rewrite (IH _ H Hn). now apply FsFacts.lookup_bind_other.
Qed.

(** Items that went through once go through again, onto any entries that
    hold what the first pass left under their names, and change nothing. *)
Lemma copy_items_again items :
  distinct (map fst items) = true ->
  Forall (fun kv => forall d r, copy (snd kv) d = (r, None) ->
                                copy (snd kv) (Some r) = (r, None)) items ->
  forall acc es' fin,
    copy_items copy items acc = (es', None) ->
    (forall n, existsb (String.eqb n) (map fst items) = true ->
               lookup n fin = lookup n es') ->
    copy_items copy items fin = (fin, None).
Proof.
  induction items as [|[m c] items IH]; intros Hd Hall acc es' fin H Hfin.
  - reflexivity.
  - simpl in Hd. apply andb_prop in Hd. destruct Hd as [Hm Hd].
    apply negb_true_iff in Hm.
    inversion Hall as [|kv l Hc Hrest]; subst. simpl in Hc.
    simpl in H.
    destruct (copy c (lookup m acc)) as [c' [e|]] eqn:Hcopy; [discriminate|].
    assert (Hmfin : lookup m fin = Some c').
    { rewrite Hfin by (simpl; now rewrite String.eqb_refl).
      rewrite (copy_items_other _ _ _ _ _ H Hm).
      apply FsFacts.lookup_bind_same. }
    simpl. rewrite Hmfin, (Hc _ _ Hcopy).
    rewrite (FsFacts.bind_entry_lookup _ _ _ Hmfin).
    apply (IH Hd Hrest _ _ _ H).
    intros n Hn. apply Hfin. simpl. rewrite Hn. apply orb_true_r.
Qed.

End Items.

(** A tree that was copied onto a destination copies onto the result again
    without changing it. *)
Lemma copy_node_again s :
  wf s = true ->
  forall d r, copy_node s d = (r, None) -> copy_node s (Some r) = (r, None).
Proof.
  induction s as [data|items IH] using node_induction; intros Hwf d r H.
  - simpl in H. destruct d as [[x|es]|]; try discriminate;
      injection H as <-; reflexivity.
  - simpl in Hwf. apply andb_prop in Hwf. destruct Hwf as [Hd Hall].
    assert (Hitems :
              Forall (fun kv => forall d r, copy_node (snd kv) d = (r, None) ->
                                  copy_node (snd kv) (Some r) = (r, None)) items).
    { rewrite forallb_forall in Hall. rewrite Forall_forall in IH |- *.
      intros kv Hin. apply IH; [exact Hin|now apply Hall]. }
    simpl in H.
    destruct d as [[x|es]|]; [discriminate| |].
    + destruct (copy_items copy_node items es) as [es' [e|]] eqn:Hc;
        [discriminate|].
      injection H as <-. simpl.
      now rewrite (copy_items_again copy_node items Hd Hitems es es' es' Hc).
    + destruct (copy_items copy_node items []) as [es' [e|]] eqn:Hc;
        [discriminate|].
      injection H as <-. simpl.
      now rewrite (copy_items_again copy_node items Hd Hitems [] es' es' Hc).
Qed.

(** A copy that went through fits the kinds: file onto file, directory onto
    directory. *)
Lemma copy_node_kind s d r : copy_node s d = (r, None) -> kind r = kind s.
Proof.
  destruct s as [data|items]; simpl.
  - destruct d as [[x|es]|]; intros H; try discriminate;
      injection H as <-; reflexivity.
  - destruct d as [[x|es]|]; [discriminate| |];
      destruct (copy_items copy_node items _) as [es' e]; intros H;
      injection H as <- _; reflexivity.
Qed.

End CopyFacts.

Module CopySyncFacts.

Import Fs.

Lemma wf_lookup n es x :
  forallb (fun kv => wf (snd kv)) es = true -> lookup n es = Some x ->
  wf x = true.
Proof.
  induction es as [|[m y] es IH]; simpl; [discriminate|].
  intros H. apply andb_prop in H. destruct H as [Hy Hes].
  destruct (String.eqb n m).
  - intros Hx. now injection Hx as <-.
  - now apply IH.
Qed.

(** Every node of a well-formed tree is well-formed. *)
Lemma wf_get p t x : wf t = true -> get p t = Some x -> wf x = true.
Proof.
  revert t. induction p as [|c p IH]; intros t Hwf H; simpl in H.
  - now injection H as <-.
  - destruct t as [data|es]; [discriminate|].
    simpl in Hwf. apply andb_prop in Hwf. destruct Hwf as [_ Hall].
    destruct (lookup c es) as [y|] eqn:Hc; [|discriminate].
    exact (IH _ (wf_lookup _ _ _ Hall Hc) H).
Qed.

Lemma get_nil_dir q : q <> [] -> get q (Dir []) = None.
Proof. destruct q; [congruence|reflexivity]. Qed.

(** [mkdirs] leaves everything that is not on the way to [p]. *)
Lemma mkdirs_get whole p t t1 q :
  mkdirs whole p t = Ok t1 ->
  Path.is_prefix q p = false ->
  get q t1 = get q t.
Proof.
  revert t t1 q. induction p as [|c p IH]; intros t t1 q H Hq.
  - destruct t as [data|es]; simpl in H; [discriminate|].
    now injection H as <-.
  - destruct t as [data|es]; simpl in H; [discriminate|].
    destruct q as [|d q]; [discriminate|].
    destruct (mkdirs whole p
                match lookup c es with Some x => x | None => Dir [] end)
      as [y|e] eqn:Hy; [|discriminate].
    injection H as <-. simpl in Hq |- *.
    destruct (String.eqb d c) eqn:Hdc.
    + apply String.eqb_eq in Hdc. subst d. simpl in Hq.
      rewrite FsFacts.lookup_bind_same.
      rewrite (IH _ _ _ Hy Hq).
      destruct (lookup c es) as [x|]; [reflexivity|].
      apply get_nil_dir. intros ->. discriminate.
    + rewrite FsFacts.lookup_bind_other; [reflexivity|].
      intros ->. now rewrite String.eqb_refl in Hdc.
Qed.

(** On the way to [p] there are directories afterwards, and there was
    nothing or a directory before. *)
Lemma mkdirs_along whole p t t1 q :
  mkdirs whole p t = Ok t1 ->
  Path.is_prefix q p = true ->
  (exists es, get q t1 = Some (Dir es))
  /\ (get q t = None \/ exists es, get q t = Some (Dir es)).
Proof.
  revert t t1 q. induction p as [|c p IH]; intros t t1 q H Hq.
  - destruct q; [|discriminate].
    destruct t as [data|es]; simpl in H; [discriminate|].
    injection H as <-. simpl. eauto.
  - destruct t as [data|es]; simpl in H; [discriminate|].
    destruct (mkdirs whole p
                match lookup c es with Some x => x | None => Dir [] end)
      as [y|e] eqn:Hy; [|discriminate].
    injection H as <-.
    destruct q as [|d q]; [simpl; eauto|].
    simpl in Hq. apply andb_prop in Hq. destruct Hq as [Hdc Hq].
    apply String.eqb_eq in Hdc. subst d. simpl.
    rewrite FsFacts.lookup_bind_same.
    destruct (IH _ _ _ Hy Hq) as (Hafter & Hbefore).
    split; [exact Hafter|].
    destruct (lookup c es) as [x|]; [exact Hbefore|now left].
Qed.

Lemma mkdirs_readFile whole p t t1 q :
  mkdirs whole p t = Ok t1 -> readFile q t1 = readFile q t.
Proof.
  intros H. unfold readFile.
  destruct (Path.is_prefix q p) eqn:Hq.
  - destruct (mkdirs_along _ _ _ _ _ H Hq) as ((es & ->) & [-> | (es' & ->)]);
      reflexivity.
  - now rewrite (mkdirs_get _ _ _ _ _ H Hq).
Qed.

Lemma prefix_removelast q p :
  Path.is_prefix q (removelast p) = true -> Path.is_prefix q p = true.
Proof.
  revert q. induction p as [|c p IH]; intros q H; [exact H|].
  destruct q as [|d q]; [reflexivity|].
  destruct p as [|c' p']; [discriminate|].
  change (removelast (c :: c' :: p')) with (c :: removelast (c' :: p')) in H.
  simpl in H |- *. apply andb_prop in H. destruct H as [-> H].
  exact (IH _ H).
Qed.

Lemma path_eqb_refl p : path_eqb p p = true.
Proof. induction p; simpl; [reflexivity|]. now rewrite String.eqb_refl. Qed.

Lemma get_removelast p t x :
  get p t = Some x -> existsSync (removelast p) t = true.
Proof.
  unfold existsSync.
  destruct p as [|c p] using rev_ind; intros H.
  - reflexivity.
  - rewrite removelast_last.
    destruct (FsFacts.get_parent _ _ _ _ H) as (es & ->). reflexivity.
Qed.

(** What a [copySync] that went through has done. *)
Lemma copySync_ok src dest t t' :
  copySync src dest t = (t', None) ->
  exists s t1 r,
    get src t = Some s
    /\ path_eqb src dest = false
    /\ match s with Dir _ => Path.is_prefix src dest | File _ => false end = false
    /\ (t1 = t \/ mkdirs (removelast dest) (removelast dest) t = Ok t1)
    /\ copy_node s (get dest t1) = (r, None)
    /\ put dest r t1 = Some t'.
Proof.
  unfold copySync.
  destruct (get src t) as [s|] eqn:Hs; [|discriminate].
  intros H. exists s.
  assert (Hbody :
            (if path_eqb src dest then (t, Some same_path)
             else
               if match s with Dir _ => Path.is_prefix src dest | File _ => false end
               then (t, Some into_itself)
               else
                 match (if existsSync (removelast dest) t then Ok t
                        else mkdirs (removelast dest) (removelast dest) t) with
                 | Err e => (t, Some e)
                 | Ok t1 =>
                     let '(r, e) := copy_node s (get dest t1) in
                     match put dest r t1 with
                     | Some t2 => (t2, e)
                     | None => (t1, Some (SystemError "ENOENT" dest))
                     end
                 end) = (t', None)).
  { destruct (stat_at dest t); try discriminate;
      destruct (path_eqb src dest); try discriminate;
      destruct s; try discriminate; exact H. }
  clear H.
  destruct (path_eqb src dest); [discriminate|].
  destruct (match s with Dir _ => Path.is_prefix src dest | File _ => false end);
    [discriminate|].
  destruct (if existsSync (removelast dest) t then Ok t
            else mkdirs (removelast dest) (removelast dest) t)
    as [t1|e] eqn:Ht1; [|discriminate].
  destruct (copy_node s (get dest t1)) as [r e] eqn:Hr.
  destruct (put dest r t1) as [t2|] eqn:Hput; [|discriminate].
  injection Hbody as -> ->.
  exists t1, r. repeat split; try assumption.
  destruct (existsSync (removelast dest) t); [left; congruence|now right].
Qed.



(** The same [copySync] once more, on a tree where the source still holds
    what it held and the destination holds what the first copy left, goes
    through and changes nothing. *)
Lemma copySync_again src dest t s r :
  get src t = Some s ->
  get dest t = Some r ->
  copy_node s (Some r) = (r, None) ->
  path_eqb src dest = false ->
  match s with Dir _ => Path.is_prefix src dest | File _ => false end = false ->
  copySync src dest t = (t, None).
Proof.
  intros Hs Hr Hcopy Hne Hpre. unfold copySync.
  rewrite Hs, (FsFacts.stat_get _ _ _ Hr), Hne.
  pose proof (CopyFacts.copy_node_kind _ _ _ Hcopy) as Hkind.
  rewrite (get_removelast _ _ _ Hr), Hr, Hcopy, (FsFacts.put_get_id _ _ _ Hr).
  destruct s as [data|items], r as [data'|es]; try discriminate;
    simpl kind; cbv iota; rewrite ?Hpre; reflexivity.
Qed.

End CopySyncFacts.

Module PathFacts.

Lemma prefix_app_cases p q a b :
  Path.is_prefix (p ++ a) (q ++ b) = true ->
  Path.is_prefix p q = true \/ Path.is_prefix q p = true.
Proof.
  revert q. induction p as [|c p IH]; intros q H; [now left|].
  destruct q as [|d q]; [now right|].
  simpl in H |- *. apply andb_prop in H. destruct H as [Hcd H].
  rewrite Hcd. apply String.eqb_eq in Hcd. subst d.
  rewrite String.eqb_refl. simpl. exact (IH _ H).
Qed.

Lemma apart_sym p q : Path.apart p q = Path.apart q p.
Proof. unfold Path.apart. apply andb_comm. Qed.

(** Paths that are apart stay apart however they go on. *)
Lemma apart_app p q a b :
  Path.apart p q = true -> Path.apart (p ++ a) (q ++ b) = true.
Proof.
  unfold Path.apart. intros H. apply andb_prop in H. destruct H as [Hpq Hqp].
  apply negb_true_iff in Hpq, Hqp.
  apply andb_true_intro. split; apply negb_true_iff.
  - destruct (Path.is_prefix (p ++ a) (q ++ b)) eqn:H; [|reflexivity].
    destruct (prefix_app_cases _ _ _ _ H); congruence.
  - destruct (Path.is_prefix (q ++ b) (p ++ a)) eqn:H; [|reflexivity].
    destruct (prefix_app_cases _ _ _ _ H); congruence.
Qed.

Lemma eqb_prefix p q : Fs.path_eqb p q = true -> Path.is_prefix p q = true.
Proof.
  revert q. induction p as [|c p IH]; intros q H; [reflexivity|].
  destruct q as [|d q]; [discriminate|].
  simpl in *. apply andb_prop in H. destruct H as [-> H]. exact (IH _ H).
Qed.

Lemma apart_prefix p q : Path.apart p q = true -> Path.is_prefix p q = false.
Proof.
  unfold Path.apart. intros H. apply andb_prop in H.
  now apply negb_true_iff.
Qed.

Lemma apart_neq p q : Path.apart p q = true -> Fs.path_eqb p q = false.
Proof.
  intros H. destruct (Fs.path_eqb p q) eqn:He; [|reflexivity].
  apply eqb_prefix in He. apply apart_prefix in H. congruence.
Qed.

(** Two different names in one directory, and whatever lies below them. *)
Lemma apart_siblings d a b r r' :
  a <> b -> Path.apart ((d ++ [a]) ++ r) ((d ++ [b]) ++ r') = true.
Proof.
  intros Hne. apply apart_app. unfold Path.apart.
  rewrite !FsFacts.siblings_apart by congruence. reflexivity.
Qed.

End PathFacts.

Module ContentFacts.

Import Fs.

Lemma get_app p q t :
  get (p ++ q) t = match get p t with
                   | Some x => get q x
                   | None => None
                   end.
Proof.
  revert t. induction p as [|c p IH]; intros t; [reflexivity|].
  simpl. destruct t as [data|es]; [reflexivity|].
  destruct (lookup c es); [apply IH|reflexivity].
Qed.

Lemma lookup_names n es x :
  lookup n es = Some x -> existsb (String.eqb n) (map fst es) = true.
Proof.
  induction es as [|[m y] es IH]; simpl; [discriminate|].
  destruct (String.eqb n m); [reflexivity|exact IH].
Qed.



End ContentFacts.

(* ================================================================== *)
(** * The claim about the update plan *)

Lemma core_of_split root : core_of root = (root ++ ["src"]) ++ ["core"].
Proof. unfold core_of. now rewrite <- app_assoc. Qed.

Lemma entry_of_split root : entry_of root = (root ++ ["src"]) ++ ["index.js"].
Proof. unfold entry_of. now rewrite <- app_assoc. Qed.



(* ================================================================== *)
(** * Further properties of the script *)

(** X1.  A name prompt that is cancelled at once leaves the name
    [undefined]; [path.resolve] then throws a [TypeError], which the
    top-level handler prints, and the process ends with status 0 without a
    second question, a file-system call or a child process. *)
Theorem X1_cancelled_name_prompt (E : Env) (w : world) (rest : list key) :
  stdin w = Cancel :: rest ->
  run E w =
  (Exited 0,
   mkWorld (fs w) (cwd w) rest
     (trace w ++ [Log (banner E); Ask "Application name?";
                  LogError (TypeError "The path argument must be of type string")])).
Proof.
  intros Hin. unfold run. rewrite main_unfold.
  unfold asked. rewrite ask_name_unfold.
  change (stdin (record [Log (banner E)] w)) with (stdin w). rewrite Hin.
  simpl. unfold record, set_stdin; simpl.
  now rewrite <- !app_assoc.
Qed.

(** An instance of X1 in the concrete environment. *)
Lemma X1_cancelled_name_prompt_instance :
  let E := Demo.env [] true Demo.discord in
  let w := Demo.start [Cancel; Submit "y"] in
  run E w =
  (Exited 0,
   mkWorld (fs w) (cwd w) [Submit "y"]
     (trace w ++ [Log (banner E); Ask "Application name?";
                  LogError (TypeError "The path argument must be of type string")])).
Proof.
  intros E w.
  apply (X1_cancelled_name_prompt E w [Submit "y"]). reflexivity.
Defined.

(** X3.  The installer step first makes the target directory the working
    directory and then runs [npm ci] there: whatever the installer does to
    the file tree, it does it from the target directory, and the process
    stays in that directory afterwards. *)
Theorem X3_installer_runs_in_target
  (E : Env) (dir : path) (w : world) :
  Fs.is_dir dir (fs w) = true ->
  fs (snd (action (step_install E dir) w)) = fst (shell E "npm ci" dir (fs w))
  /\ cwd (snd (action (step_install E dir) w)) = dir
  /\ trace (snd (action (step_install E dir) w))
     = trace w ++ [Chdir dir; Exec "npm ci"]
  /\ (snd (shell E "npm ci" dir (fs w)) = None ->
      fst (action (step_install E dir) w) = Throw (ExecError "npm ci")).
Proof.
  intros Hdir. rewrite (step_install_spec E dir w Hdir). simpl.
  repeat split. intros ->. reflexivity.
Qed.

(** An instance of X3: the installer in the user's older project. *)
Lemma X3_installer_runs_in_target_instance :
  let E := Demo.env [] true Demo.discord in
  let dir := Demo.home ++ ["old-bot"] in
  let w := Demo.start [] in
  fs (snd (action (step_install E dir) w)) = fst (shell E "npm ci" dir (fs w))
  /\ cwd (snd (action (step_install E dir) w)) = dir
  /\ trace (snd (action (step_install E dir) w))
     = trace w ++ [Chdir dir; Exec "npm ci"]
  /\ (snd (shell E "npm ci" dir (fs w)) = None ->
      fst (action (step_install E dir) w) = Throw (ExecError "npm ci")).
Proof.
  intros E dir w.
  apply (X3_installer_runs_in_target E dir w). vm_compute. reflexivity.
Defined.

Lemma split_on_no_slash s : no_slash s = true -> Text.split_on "/" s = [s].
Proof.
  induction s as [|c r IH]; [reflexivity|].
  simpl. intros H. apply andb_prop in H. destruct H as [Hc Hr].
  apply negb_true_iff in Hc. rewrite Hc, (IH Hr). reflexivity.
Qed.

(** X4.  For a name that is a single path component (no [/], and not empty,
    [.] or [..]) the target directory is the entry of that name in the
    working directory. *)
Theorem X4_target_is_in_working_directory (here : path) (name : string) :
  no_slash name = true ->
  name <> EmptyString -> name <> "." -> name <> ".." ->
  Path.resolve here name = here ++ [name].
Proof.
  intros Hplain He Hd Hdd. unfold Path.resolve.
  rewrite (split_on_no_slash _ Hplain).
  assert (Hstart : Text.starts_with_char "/" name = false).
  { destruct name as [|c r]; [reflexivity|].
    unfold Text.starts_with_char.
    change (no_slash (String c r))
      with (negb (Ascii.eqb c "/") && no_slash r) in Hplain.
    apply andb_prop in Hplain. destruct Hplain as [Hc _].
    apply negb_true_iff in Hc. now rewrite Ascii.eqb_sym. }
  rewrite Hstart. simpl. unfold Path.normalize_step.
  rewrite (proj2 (String.eqb_neq _ _) He), (proj2 (String.eqb_neq _ _) Hd),
    (proj2 (String.eqb_neq _ _) Hdd).
  reflexivity.
Qed.

(** An instance of X4: [my-bot] in the user's home. *)
Lemma X4_target_instance :
  Path.resolve Demo.home "my-bot" = Demo.home ++ ["my-bot"].
Proof.
  apply (X4_target_is_in_working_directory Demo.home "my-bot");
    [reflexivity | discriminate | discriminate | discriminate].
Defined.

(* ================================================================== *)
(** * The prompts' answers and the two plans *)

(** ** The [fs] actions, forwards *)

Lemma copySync_spec src dest w :
  copySync src dest w =
  (match snd (Fs.copySync src dest (fs w)) with
   | None => Normal tt
   | Some e => Throw e
   end,
   set_fs (fst (Fs.copySync src dest (fs w))) (record [Copy src dest] w)).
Proof.
  unfold copySync. rewrite emit_bind.
  change (fs (record [Copy src dest] w)) with (fs w).
  destruct (Fs.copySync src dest (fs w)) as [t [e|]]; reflexivity.
Qed.

Lemma mkdirSync_spec p w :
  mkdirSync p w =
  match Fs.mkdirSync p (fs w) with
  | Ok t => (Normal tt, set_fs t (record [Mkdir p] w))
  | Err e => (Throw e, record [Mkdir p] w)
  end.
Proof.
  unfold mkdirSync. rewrite emit_bind.
  change (fs (record [Mkdir p] w)) with (fs w).
  destruct (Fs.mkdirSync p (fs w)); reflexivity.
Qed.

Lemma mkdirSync_normal p w w' :
  mkdirSync p w = (Normal tt, w') ->
  exists t, Fs.mkdirSync p (fs w) = Ok t
            /\ w' = set_fs t (record [Mkdir p] w).
Proof.
  rewrite mkdirSync_spec.
  destruct (Fs.mkdirSync p (fs w)) as [t|e]; [|discriminate].
  intros H. injection H as <-. eauto.
Qed.

Lemma writeFileSync_spec p data w :
  writeFileSync p data w =
  match Fs.writeFileSync p data (fs w) with
  | Ok t => (Normal tt, set_fs t (record [Write p data] w))
  | Err e => (Throw e, record [Write p data] w)
  end.
Proof.
  unfold writeFileSync. rewrite emit_bind.
  change (fs (record [Write p data] w)) with (fs w).
  destruct (Fs.writeFileSync p data (fs w)); reflexivity.
Qed.

Module StatFacts.

Import Fs.

(** Where nothing is found, [stat] fails with [ENOENT] or [ENOTDIR]. *)
Lemma stat_missing p t :
  get p t = None -> stat_at p t = NoEnt \/ stat_at p t = NotDir.
Proof.
  revert t. induction p as [|c p IH]; intros t H; simpl in *; [discriminate|].
  destruct t as [data|es]; [now right|].
  destruct (lookup c es) as [x|]; [now apply IH|now left].
Qed.

Lemma prefix_app p q : Path.is_prefix p (p ++ q) = true.
Proof. induction p; simpl; [reflexivity|]. now rewrite String.eqb_refl. Qed.

Lemma not_prefix_longer p c q : Path.is_prefix (p ++ c :: q) p = false.
Proof.
  induction p as [|d p IH]; simpl; [reflexivity|].
  now rewrite String.eqb_refl.
Qed.

End StatFacts.

(** ** The token prompt *)

(** X5.  The token prompt takes anything: what is typed goes into the plan
    as it is, ENTER alone gives the placeholder, and a cancelled prompt does
    not stop the run: the create plan is made with the token [undefined],
    whose secrets file reads [DISCORD_BOT_TOKEN=undefined]. *)
Theorem X5_token_prompt_answers
  (E : Env) (name : string) (w : world) (rest : list key) :
  Fs.existsSync (Path.resolve (cwd w) name) (fs w) = false ->
  let dir := Path.resolve (cwd w) name in
  let w' := set_stdin rest (record [Ask "Discord bot token?"] w) in
  (stdin w = Cancel :: rest ->
   plan E (Some (JString name)) w
   = (Normal (name, create_steps E name dir Json.undefined), w')
   /\ env_text E Json.undefined = "DISCORD_BOT_TOKEN=undefined")
  /\ (stdin w = Submit EmptyString :: rest ->
      plan E (Some (JString name)) w
      = (Normal (name,
                 create_steps E name dir
                   (Some (JString "DISCORD_BOT_TOKEN_PLACEHOLDER"))), w')
      /\ env_text E (Some (JString "DISCORD_BOT_TOKEN_PLACEHOLDER"))
         = "DISCORD_BOT_TOKEN=DISCORD_BOT_TOKEN_PLACEHOLDER")
  /\ (forall typed,
        typed <> EmptyString ->
        stdin w = Submit typed :: rest ->
        plan E (Some (JString name)) w
        = (Normal (name, create_steps E name dir (Some (JString typed))), w')
        /\ env_text E (Some (JString typed)) = "DISCORD_BOT_TOKEN=" +++ typed).
Proof.
  intros Hex dir w'. rewrite (plan_fresh E name w Hex). cbv zeta.
  split; [|split].
  - intros ->. split; reflexivity.
  - intros ->. split; reflexivity.
  - intros typed Hne ->. unfold Prompts.submitted.
    rewrite (proj2 (String.eqb_neq _ _) Hne). split; reflexivity.
Qed.

(** An instance of X5: a fresh name in the concrete environment. *)
Lemma X5_token_prompt_instance :
  let E := Demo.env [] true Demo.discord in
  let w := Demo.start [Cancel] in
  let dir := Path.resolve (cwd w) "my-bot" in
  let w' := set_stdin [] (record [Ask "Discord bot token?"] w) in
  (stdin w = Cancel :: [] ->
   plan E (Some (JString "my-bot")) w
   = (Normal ("my-bot", create_steps E "my-bot" dir Json.undefined), w')
   /\ env_text E Json.undefined = "DISCORD_BOT_TOKEN=undefined")
  /\ (stdin w = Submit EmptyString :: [] ->
      plan E (Some (JString "my-bot")) w
      = (Normal ("my-bot",
                 create_steps E "my-bot" dir
                   (Some (JString "DISCORD_BOT_TOKEN_PLACEHOLDER"))), w')
      /\ env_text E (Some (JString "DISCORD_BOT_TOKEN_PLACEHOLDER"))
         = "DISCORD_BOT_TOKEN=DISCORD_BOT_TOKEN_PLACEHOLDER")
  /\ (forall typed,
        typed <> EmptyString ->
        stdin w = Submit typed :: [] ->
        plan E (Some (JString "my-bot")) w
        = (Normal ("my-bot", create_steps E "my-bot" dir (Some (JString typed))),
           w')
        /\ env_text E (Some (JString typed)) = "DISCORD_BOT_TOKEN=" +++ typed).
Proof.
  intros E w.
  apply (X5_token_prompt_answers E "my-bot" w []). reflexivity.
Defined.

(** ** A target that is a regular file *)

(** X6.  [fs.existsSync] does not tell a directory from a file: when the
    name resolves to a regular file the script offers to update it.  Once
    that is confirmed (and the run is not a dry run) the update step throws
    on its first copy, with an [fs] error, and the file tree is left as it
    was.  With the template in place the error is [ENOTDIR] on the target's
    [src/core]: the target is in the way. *)
Theorem X6_target_is_a_file
  (E : Env) (name : string) (w : world) (data : string) (rest : list key) :
  Fs.get (Path.resolve (cwd w) name) (fs w) = Some (Fs.File data) ->
  Prompts.confirm_loop (stdin w) = (Normal (Some true), rest) ->
  isDryRun E = false ->
  let dir := Path.resolve (cwd w) name in
  exists code p,
    on_name E (Some (JString name)) w
    = (Throw (SystemError code p),
       set_stdin rest
         (record [Ask (confirm_message dir); Log "";
                  Log (message (step_update E name dir));
                  Copy (core_of (appDir E)) (core_of dir)] w))
    /\ (Fs.existsSync (core_of (appDir E)) (fs w) = true ->
        code = "ENOTDIR" /\ p = core_of dir).
Proof.
  intros Hfile Hyes Hdry dir.
  assert (Hex : Fs.existsSync (Path.resolve (cwd w) name) (fs w) = true).
  { unfold Fs.existsSync. now rewrite Hfile. }
  rewrite on_name_unfold, (plan_existing E name w Hex). cbv zeta.
  rewrite Hyes. simpl fst; simpl snd. cbv iota. simpl fst; simpl snd.
  rewrite execute_unfold, Hdry. unfold update_steps.
  rewrite forEach_cons. simpl ignoreDry. simpl negb. simpl orb. cbv iota.
  rewrite bind_unfold.
  change (action (step_update E name (Path.resolve (cwd w) name)))
    with (copySync (core_of (appDir E)) (core_of dir) ;;
          copySync (entry_of (appDir E)) (entry_of dir)).
  rewrite bind_unfold, copySync_spec.
  match goal with
  | |- context [Fs.copySync ?s ?d (fs ?W)] =>
      change (fs W) with (fs w);
      assert (Hc : exists code p,
                 Fs.copySync s d (fs w) = (fs w, Some (SystemError code p))
                 /\ (Fs.existsSync s (fs w) = true ->
                     code = "ENOTDIR" /\ p = d))
  end.
  { unfold Fs.copySync, Fs.existsSync.
    destruct (Fs.get (core_of (appDir E)) (fs w)) as [s|].
    - assert (Hst : Fs.stat_at (core_of dir) (fs w) = Fs.NotDir).
      { apply (FsFacts.stat_below_file dir _ _ data Hfile).
        - apply StatFacts.prefix_app.
        - apply StatFacts.not_prefix_longer. }
      rewrite Hst. eauto.
    - do 2 eexists. split; [reflexivity|discriminate]. }
  destruct Hc as (code & p & Hc & Hcode). rewrite Hc. simpl fst; simpl snd.
  exists code, p. split; [|exact Hcode]. f_equal.
  unfold set_fs, set_stdin, record; simpl.
  f_equal. now rewrite <- !app_assoc.
Qed.

(** An instance of X6: with the tool installed as in the concrete
    environment, the user names [notes], a file in the home directory. *)
Lemma X6_target_is_a_file_instance :
  let E := Demo.env [] true Demo.discord in
  let w := mkWorld
             (Fs.Dir [ ("opt",
                        Fs.Dir [("cdb", Fs.Dir [ ("src", Fs.Dir []);
                                                 ("app", Demo.template) ])]);
                       ("home", Fs.Dir [("u", Fs.Dir [("notes", Fs.File "x")])])
                     ])
             Demo.home [Submit "y"] [] in
  let dir := Path.resolve (cwd w) "notes" in
  Fs.existsSync (core_of (appDir E)) (fs w) = true
  /\ on_name E (Some (JString "notes")) w
     = (Throw (SystemError "ENOTDIR" (core_of dir)),
        set_stdin []
          (record [Ask (confirm_message dir); Log "";
                   Log (message (step_update E "notes" dir));
                   Copy (core_of (appDir E)) (core_of dir)] w)).
Proof.
  intros E w dir. split; [reflexivity|].
  destruct (X6_target_is_a_file E "notes" w "x" [])
    as (code & p & Hrun & Hcode); [reflexivity..|].
  destruct (Hcode eq_refl) as (-> & ->). exact Hrun.
Defined.

(** ** A target whose parent is missing *)

(** X7.  [fs.mkdirSync] is not recursive.  When the name resolves to a path
    whose parent is not an existing directory (a name with a [/] in it, such
    as a scoped package name), the create plan fails at its first step: the
    token has been asked for, the first message printed, and [mkdirSync]
    throws [ENOENT] or [ENOTDIR]; nothing is created. *)
Theorem X7_missing_parent_stops_the_create_plan
  (E : Env) (name : string) (w : world) (k : key) (rest : list key) :
  Fs.existsSync (Path.resolve (cwd w) name) (fs w) = false ->
  Fs.is_dir (removelast (Path.resolve (cwd w) name)) (fs w) = false ->
  stdin w = k :: rest ->
  isDryRun E = false ->
  let dir := Path.resolve (cwd w) name in
  exists code,
    (code = "ENOENT" \/ code = "ENOTDIR")
    /\ on_name E (Some (JString name)) w
       = (Throw (SystemError code dir),
          set_stdin rest
            (record [Ask "Discord bot token?"; Log "";
                     Log ("Creating directory '" +++ name +++ "'...");
                     Mkdir dir] w)).
Proof.
  intros Hex Hparent Hin Hdry dir.
  rewrite on_name_unfold, (plan_fresh E name w Hex). cbv zeta. rewrite Hin.
  simpl fst; simpl snd.
  rewrite execute_unfold, Hdry. unfold create_steps.
  rewrite forEach_cons. simpl ignoreDry. simpl negb. simpl orb. cbv iota.
  rewrite bind_unfold. simpl action. rewrite mkdirSync_spec.
  match goal with
  | |- context [Fs.mkdirSync ?d (fs ?W)] => change (fs W) with (fs w)
  end.
  fold dir.
  assert (Hmk : exists code,
             (code = "ENOENT" \/ code = "ENOTDIR")
             /\ Fs.mkdirSync dir (fs w) = Err (SystemError code dir)).
  { unfold Fs.mkdirSync. fold dir in Hparent. rewrite Hparent.
    unfold Fs.existsSync in Hex. fold dir in Hex.
    destruct (Fs.get dir (fs w)) eqn:Hg; [discriminate|].
    destruct (StatFacts.stat_missing _ _ Hg) as [-> | ->]; eauto. }
  destruct Hmk as (code & Hcode & ->).
  exists code. split; [exact Hcode|]. f_equal.
  unfold set_fs, set_stdin, record; simpl.
  f_equal. now rewrite <- !app_assoc.
Qed.

(** An instance of X7: the scoped name [@me/bot] in the user's home, where
    there is no directory [@me]. *)
Lemma X7_missing_parent_instance :
  let E := Demo.env [] true Demo.discord in
  let w := Demo.start [Submit "good-token"] in
  let dir := Path.resolve (cwd w) "@me/bot" in
  dir = Demo.home ++ ["@me"; "bot"]
  /\ exists code,
       (code = "ENOENT" \/ code = "ENOTDIR")
       /\ on_name E (Some (JString "@me/bot")) w
          = (Throw (SystemError code dir),
             set_stdin []
               (record [Ask "Discord bot token?"; Log "";
                        Log ("Creating directory '" +++ "@me/bot" +++ "'...");
                        Mkdir dir] w)).
Proof.
  intros E w. split; [reflexivity|].
  apply (X7_missing_parent_stops_the_create_plan E "@me/bot" w
           (Submit "good-token") []); reflexivity.
Defined.

(** ** What the update path does *)

Lemma update_event_refl_core E dir :
  update_event E dir (Copy (core_of (appDir E)) (core_of dir)) = true.
Proof.
  unfold update_event. now rewrite !CopySyncFacts.path_eqb_refl.
Qed.

Lemma update_event_refl_entry E dir :
  update_event E dir (Copy (entry_of (appDir E)) (entry_of dir)) = true.
Proof.
  unfold update_event. rewrite !CopySyncFacts.path_eqb_refl.
  apply orb_true_r.
Qed.

Lemma update_event_ask E dir :
  update_event E dir (Ask (confirm_message dir)) = true.
Proof. apply String.eqb_refl. Qed.

Ltac each_event :=
  cbn [app];
  repeat match goal with
         | |- forallb _ (_ :: _) = true => apply andb_true_intro; split
         | |- _ && _ = true => apply andb_true_intro; split
         end;
  try reflexivity; try assumption.

(** What running the update plan does, dry run or not. *)
Lemma update_execute_events E name dir v :
  cwd (snd (execute E name (update_steps E name dir) v)) = cwd v
  /\ exists es,
       trace (snd (execute E name (update_steps E name dir) v)) = trace v ++ es
       /\ forallb (update_event E dir) es = true.
Proof.
  pose proof (update_event_refl_core E dir) as Hcore.
  pose proof (update_event_refl_entry E dir) as Hentry.
  rewrite execute_unfold. unfold update_steps.
  rewrite forEach_cons, bind_unfold.
  change (ignoreDry (step_update E name dir)) with false.
  destruct (isDryRun E).
  - simpl. split; [reflexivity|].
    eexists. rewrite <- !app_assoc. split; reflexivity.
  - change (false || negb false) with true. cbv iota.
    change (action (step_update E name dir))
      with (copySync (core_of (appDir E)) (core_of dir) ;;
            copySync (entry_of (appDir E)) (entry_of dir)).
    rewrite bind_unfold, copySync_spec.
    destruct (snd (Fs.copySync (core_of (appDir E)) (core_of dir) _)).
    + simpl. split; [reflexivity|].
      eexists. rewrite <- !app_assoc. split; [reflexivity|].
      each_event.
    + rewrite copySync_spec.
      destruct (snd (Fs.copySync (entry_of (appDir E)) (entry_of dir) _)).
      * simpl. split; [reflexivity|].
        eexists. rewrite <- !app_assoc. split; [reflexivity|].
        each_event.
      * simpl. split; [reflexivity|].
        eexists. rewrite <- !app_assoc. split; [reflexivity|].
        each_event.
Qed.

(** X8.  When the target exists, whatever is answered and whatever comes of
    it, the rest of the run stays in its working directory and does nothing
    but show the confirmation, write to the terminal and make the two copies
    of the update step: it never asks for the token, never creates a
    directory or writes a file with [fs], and never starts a child process
    (neither the installer nor the lookup). *)
Theorem X8_update_path_is_local (E : Env) (name : string) (w : world) :
  Fs.existsSync (Path.resolve (cwd w) name) (fs w) = true ->
  let dir := Path.resolve (cwd w) name in
  let w' := snd (on_name E (Some (JString name)) w) in
  cwd w' = cwd w
  /\ exists es,
       trace w' = trace w ++ es
       /\ forallb (update_event E dir) es = true.
Proof.
  intros Hex dir w'. unfold w'.
  rewrite on_name_unfold, (plan_existing E name w Hex). cbv zeta. fold dir.
  pose proof (confirm_loop_ends (stdin w)) as Hends.
  destruct (Prompts.confirm_loop (stdin w)) as [c rest]. simpl in Hends.
  pose proof (update_event_ask E dir) as Hask.
  destruct c as [[[|]|]|e|c| |e]; try contradiction;
    cbv beta iota; simpl fst; simpl snd.
  - (* confirmed *)
    destruct (update_execute_events E name dir
                (set_stdin rest (record [Ask (confirm_message dir)] w)))
      as (Hcwd & es & Htr & Hes).
    split; [exact Hcwd|].
    exists (Ask (confirm_message dir) :: es). split.
    + rewrite Htr. simpl. now rewrite <- app_assoc.
    + each_event.
  - split; [reflexivity|].
    eexists. simpl. rewrite <- !app_assoc. split; [reflexivity|].
    each_event.
  - split; [reflexivity|].
    eexists. simpl. rewrite <- !app_assoc. split; [reflexivity|].
    each_event.
  - split; [reflexivity|].
    eexists. simpl. split; [reflexivity|].
    each_event.
Qed.

(** An instance of X8: the confirmed update of the user's older project. *)
Lemma X8_update_path_instance :
  let E := Demo.env [] true Demo.discord in
  let w := Demo.start [Submit "y"] in
  let dir := Path.resolve (cwd w) "old-bot" in
  let w' := snd (on_name E (Some (JString "old-bot")) w) in
  cwd w' = cwd w
  /\ exists es,
       trace w' = trace w ++ es
       /\ forallb (update_event E dir) es = true.
Proof.
  intros E w.
  apply (X8_update_path_is_local E "old-bot" w). reflexivity.
Defined.

(** ** The result of the lookup *)

(** X15.  The lookup returns [null] or a truthy value, never another falsy
    one: the caller's test [applicationId ? ... : ...] is a test for
    [null].  The invite-link step prints the fallback exactly when the
    lookup returned [null]; otherwise it prints a link made from the text of
    the result, which is never the fallback line, or it throws the
    [TypeError] of the conversion when the result has no text, and prints
    nothing. *)
Theorem X15_lookup_result_is_null_or_truthy
  (E : Env) (token : jsval) (w : world) :
  exists id,
    getApplicationId E token w = (Normal id, after_lookup E token w)
    /\ (id = JNull \/ Json.truthy id = true)
    /\ (id = JNull ->
        action (step_invite E token) w
        = (Normal tt, record [Log fallback] (after_lookup E token w)))
    /\ (forall text,
          id <> JNull ->
          Json.to_string (Number_toString E) id = Some text ->
          action (step_invite E token) w
          = (Normal tt,
             record [Log (invite_link +++ text)] (after_lookup E token w))
          /\ invite_link +++ text <> fallback)
    /\ (id <> JNull ->
        Json.to_string (Number_toString E) id = None ->
        action (step_invite E token) w
        = (Throw not_primitive, after_lookup E token w)).
Proof.
  destruct (step_invite_spec E token w) as (id & Hid & Hstep).
  exists id. split; [exact Hid|].
  assert (Hcases : id = JNull \/ Json.truthy id = true).
  { rewrite getApplicationId_spec in Hid. injection Hid as <-.
    destruct (response E token w) as [body|]; [|now left].
    destruct (Json.parse body) as [v|]; [|now left].
    destruct (id_field v) as [x|]; [|now left].
    destruct (Json.truthy x) eqn:Hx; [now right|now left]. }
  split; [exact Hcases|]. split; [|split].
  - intros ->. exact Hstep.
  - intros text Hne Htext. destruct Hcases as [->|Ht]; [congruence|].
    unfold invite_line in Hstep. rewrite Ht, Htext in Hstep.
    split; [exact Hstep|]. unfold invite_link, fallback. discriminate.
  - intros Hne Htext. destruct Hcases as [->|Ht]; [congruence|].
    unfold invite_line in Hstep. now rewrite Ht, Htext in Hstep.
Qed.

(* ================================================================== *)
(** * What a run leaves alone *)

(** ** The shape of [copySync] *)

Module CopyShape.

Import Fs.

(** What [copySync] leaves: the tree it found; or that tree with the parents
    of the destination made; or that with the outcome of the copy put at the
    destination. *)
Lemma copySync_cases src dest t :
  fst (copySync src dest t) = t
  \/ exists t1,
       (t1 = t \/ mkdirs (removelast dest) (removelast dest) t = Ok t1)
       /\ (fst (copySync src dest t) = t1
           \/ exists s r e,
                get src t = Some s
                /\ copy_node s (get dest t1) = (r, e)
                /\ put dest r t1 = Some (fst (copySync src dest t))).
Proof.
  unfold copySync.
  destruct (get src t) as [s|] eqn:Hs; [|now left].
  set (go :=
         if match s with Dir _ => Path.is_prefix src dest | File _ => false end
         then (t, Some into_itself)
         else
           match (if existsSync (removelast dest) t then Ok t
                  else mkdirs (removelast dest) (removelast dest) t) with
           | Err e => (t, Some e)
           | Ok t1 =>
               let '(r, e) := copy_node s (get dest t1) in
               match put dest r t1 with
               | Some t2 => (t2, e)
               | None => (t1, Some (SystemError "ENOENT" dest))
               end
           end).
  assert (Hgo : fst go = t
                \/ exists t1,
                     (t1 = t \/ mkdirs (removelast dest) (removelast dest) t = Ok t1)
                     /\ (fst go = t1
                         \/ exists s0 r e,
                              Some s = Some s0
                              /\ copy_node s0 (get dest t1) = (r, e)
                              /\ put dest r t1 = Some (fst go))).
  { unfold go.
    destruct (match s with Dir _ => Path.is_prefix src dest | File _ => false end);
      [now left|].
    destruct (if existsSync (removelast dest) t then Ok t
              else mkdirs (removelast dest) (removelast dest) t)
      as [t1|e1] eqn:Ht1; [|now left].
    right. exists t1. split.
    { destruct (existsSync (removelast dest) t); [left; congruence|now right]. }
    destruct (copy_node s (get dest t1)) as [r e] eqn:Hr.
    destruct (put dest r t1) as [t2|] eqn:Hput; [|now left].
    right. exists s, r, e. auto. }
  destruct (stat_at dest t); try (now left);
    destruct (path_eqb src dest); try (now left);
    destruct s; try (now left); exact Hgo.
Qed.

End CopyShape.

(** ** Nothing is removed *)

Module KeepFacts.

Import Fs.

Lemma keeps_refl t : keeps_entries t t.
Proof. intros q x H. eauto. Qed.

Lemma keeps_trans a b c :
  keeps_entries a b -> keeps_entries b c -> keeps_entries a c.
Proof.
  intros Hab Hbc q x H.
  destruct (Hab q x H) as (y & Hy & Hk).
  destruct (Hbc q y Hy) as (z & Hz & Hk').
  exists z. split; [exact Hz|congruence].
Qed.

Lemma keeps_file a b : keeps_entries (File a) (File b).
Proof.
  intros q x H. destruct q; [|discriminate].
  simpl in H. injection H as <-. exists (File b). now split.
Qed.

Lemma keeps_dir es es' :
  (forall n old, lookup n es = Some old ->
                 exists new, lookup n es' = Some new /\ keeps_entries old new) ->
  keeps_entries (Dir es) (Dir es').
Proof.
  intros H q x Hq. destruct q as [|c q].
  - simpl in Hq. injection Hq as <-. exists (Dir es'). now split.
  - simpl in Hq |- *.
    destruct (lookup c es) as [old|] eqn:Hc; [|discriminate].
    destruct (H c old Hc) as (new & -> & Hk). exact (Hk q x Hq).
Qed.

Lemma keeps_bind_entry n x es :
  (forall old, lookup n es = Some old -> keeps_entries old x) ->
  keeps_entries (Dir es) (Dir (bind_entry n x es)).
Proof.
  intros H. apply keeps_dir. intros m old Hm.
  destruct (String.eqb m n) eqn:Hmn.
  - apply String.eqb_eq in Hmn. subst m. exists x.
    split; [apply FsFacts.lookup_bind_same|now apply H].
  - exists old. split; [|apply keeps_refl].
    rewrite FsFacts.lookup_bind_other; [exact Hm|].
    intros ->. now rewrite String.eqb_refl in Hmn.
Qed.

(** Putting a node keeps the entries when it keeps those of the node it
    replaces. *)
Lemma put_keeps p x t t' :
  put p x t = Some t' ->
  (forall old, get p t = Some old -> keeps_entries old x) ->
  keeps_entries t t'.
Proof.
  revert t t'. induction p as [|c p IH]; intros t t' H Hold.
  - simpl in H. injection H as <-. now apply Hold.
  - simpl in H. destruct t as [data|es]; [discriminate|].
    destruct p as [|c' p'].
    + injection H as <-. apply keeps_bind_entry.
      intros old Hc. apply Hold. simpl. now rewrite Hc.
    + destruct (lookup c es) as [y|] eqn:Hc; [|discriminate].
      destruct (put (c' :: p') x y) as [y'|] eqn:Hy; [|discriminate].
      injection H as <-. apply keeps_bind_entry.
      intros old Hold'. rewrite Hc in Hold'. injection Hold' as <-.
      apply (IH _ _ Hy). intros old Hg. apply Hold.
      change (get (c :: c' :: p') (Dir es))
        with (match lookup c es with
              | Some x0 => get (c' :: p') x0
              | None => None
              end).
      now rewrite Hc.
Qed.

Lemma mkdirs_keeps whole p t t1 :
  mkdirs whole p t = Ok t1 -> keeps_entries t t1.
Proof.
  revert t t1. induction p as [|c p IH]; intros t t1 H.
  - destruct t as [data|es]; simpl in H; [discriminate|].
    injection H as <-. apply keeps_refl.
  - destruct t as [data|es]; simpl in H; [discriminate|].
    destruct (mkdirs whole p
                match lookup c es with Some x => x | None => Dir [] end)
      as [y|e] eqn:Hy; [|discriminate].
    injection H as <-. apply keeps_bind_entry.
    intros old Hc. rewrite Hc in Hy. exact (IH _ _ Hy).
Qed.

Section Items.

Variable copy : node -> option node -> node * option exn.

Lemma copy_items_keeps items :
  Forall (fun kv => forall d r e, copy (snd kv) (Some d) = (r, e) ->
                                  keeps_entries d r) items ->
  forall acc es' e,
    copy_items copy items acc = (es', e) ->
    forall n old, lookup n acc = Some old ->
                  exists new, lookup n es' = Some new /\ keeps_entries old new.
Proof.
  induction 1 as [|[m c] items Hc _ IH]; intros acc es' e H n old Hn.
  - simpl in H. injection H as <- _. exists old.
    split; [exact Hn|apply keeps_refl].
  - simpl in H, Hc.
    destruct (copy c (lookup m acc)) as [c' o] eqn:Hcopy.
    assert (Hstep : exists mid, lookup n (bind_entry m c' acc) = Some mid
                                /\ keeps_entries old mid).
    { destruct (String.eqb n m) eqn:Hnm.
      - apply String.eqb_eq in Hnm. subst m. exists c'.
        split; [apply FsFacts.lookup_bind_same|].
        rewrite Hn in Hcopy. exact (Hc _ _ _ Hcopy).
      - exists old. split; [|apply keeps_refl].
        rewrite FsFacts.lookup_bind_other; [exact Hn|].
        intros ->. now rewrite String.eqb_refl in Hnm. }
    destruct Hstep as (mid & Hmid & Hk1).
    destruct o as [e'|].
    + injection H as <- _. eauto.
    + destruct (IH _ _ _ H n mid Hmid) as (new & Hnew & Hk2).
      exists new. split; [exact Hnew|]. exact (keeps_trans _ _ _ Hk1 Hk2).
Qed.

End Items.

(** A copy, finished or not, keeps the entries of the destination. *)
Lemma copy_node_keeps s :
  forall d r e, copy_node s (Some d) = (r, e) -> keeps_entries d r.
Proof.
  induction s as [data|items IH] using CopyFacts.node_induction;
    intros d r e H.
  - simpl in H. destruct d as [x|es]; injection H as <- _.
    + apply keeps_file.
    + apply keeps_refl.
  - simpl in H. destruct d as [x|es].
    + injection H as <- _. apply keeps_refl.
    + destruct (copy_items copy_node items es) as [es' e'] eqn:Hc.
      injection H as <- _. apply keeps_dir.
      exact (copy_items_keeps copy_node items IH es es' e' Hc).
Qed.

Lemma copySync_keeps src dest t :
  keeps_entries t (fst (copySync src dest t)).
Proof.
  destruct (CopyShape.copySync_cases src dest t) as [-> | (t1 & Ht1 & Hres)];
    [apply keeps_refl|].
  assert (H1 : keeps_entries t t1).
  { destruct Ht1 as [->|Hmk]; [apply keeps_refl|exact (mkdirs_keeps _ _ _ _ Hmk)]. }
  destruct Hres as [-> | (s & r & e & _ & Hcopy & Hput)]; [exact H1|].
  apply (keeps_trans _ _ _ H1). apply (put_keeps _ _ _ _ Hput).
  intros old Hold. rewrite Hold in Hcopy. exact (copy_node_keeps _ _ _ _ Hcopy).
Qed.

Lemma stat_noent p t : stat_at p t = NoEnt -> get p t = None.
Proof.
  revert t. induction p as [|c p IH]; intros t H; simpl in *.
  - destruct t; discriminate.
  - destruct t as [data|es]; [reflexivity|].
    destruct (lookup c es); [now apply IH|reflexivity].
Qed.

Lemma stat_file p t :
  stat_at p t = IsFile -> exists data, get p t = Some (File data).
Proof.
  revert t. induction p as [|c p IH]; intros t H; simpl in *.
  - destruct t; [eauto|discriminate].
  - destruct t as [data|es]; [discriminate|].
    destruct (lookup c es); [now apply IH|discriminate].
Qed.

End KeepFacts.

(** ** Files outside the destination *)

Module OutsideFacts.

Import Fs.

Lemma prefix_shorter d a p :
  Path.is_prefix (d ++ a) p = true -> Path.is_prefix d p = true.
Proof.
  revert p. induction d as [|c d IH]; intros p H; [reflexivity|].
  destruct p as [|b p]; [discriminate|].
  simpl in *. apply andb_prop in H. destruct H as [-> H]. exact (IH _ H).
Qed.

Lemma not_prefix_app d a p :
  Path.is_prefix d p = false -> Path.is_prefix (d ++ a) p = false.
Proof.
  intros H. destruct (Path.is_prefix (d ++ a) p) eqn:Hp; [|reflexivity].
  apply prefix_shorter in Hp. congruence.
Qed.

(** A [copySync], finished or not, leaves every file that is not at or
    below its destination. *)
Lemma copySync_same_file src dest t q :
  Path.is_prefix dest q = false ->
  same_file q t (fst (copySync src dest t)).
Proof.
  intros Hq. unfold same_file.
  destruct (CopyShape.copySync_cases src dest t) as [-> | (t1 & Ht1 & Hres)];
    [reflexivity|].
  assert (H1 : readFile q t1 = readFile q t).
  { destruct Ht1 as [->|Hmk]; [reflexivity|].
    exact (CopySyncFacts.mkdirs_readFile _ _ _ _ _ Hmk). }
  destruct Hres as [-> | (s & r & e & _ & _ & Hput)]; [exact H1|].
  now rewrite (FrameFacts.readFile_put _ _ _ _ _ Hput Hq).
Qed.

Lemma mkdirSync_same_file p t t' q :
  Path.is_prefix p q = false ->
  mkdirSync p t = Ok t' -> same_file q t t'.
Proof.
  intros Hq. unfold mkdirSync, put_or, same_file.
  destruct (stat_at p t); try discriminate.
  destruct (is_dir (removelast p) t); [|discriminate].
  destruct (put p (Dir []) t) as [t1|] eqn:Hput; [|discriminate].
  intros H. injection H as <-.
  exact (FrameFacts.readFile_put _ _ _ _ _ Hput Hq).
Qed.

Lemma writeFileSync_same_file p data t t' q :
  Path.is_prefix p q = false ->
  writeFileSync p data t = Ok t' -> same_file q t t'.
Proof.
  intros Hq H. apply FsFacts.writeFileSync_put in H.
  exact (FrameFacts.readFile_put _ _ _ _ _ H Hq).
Qed.

End OutsideFacts.

(** ** Relations that a run respects *)

Section Respect.

Variable E : Env.
Variable R : Fs.node -> Fs.node -> Prop.

Hypothesis R_refl : forall t, R t t.
Hypothesis R_trans : forall a b c, R a b -> R b c -> R a c.

Lemma respects_ret {A} (a : A) : respects R (ret a).
Proof using R_refl. intros w. apply R_refl. Qed.

Lemma respects_exit {A} (c : Z) : respects R (@process_exit A c).
Proof using R_refl. intros w. apply R_refl. Qed.

Lemma respects_emit (e : event) : respects R (emit e).
Proof using R_refl. intros w. apply R_refl. Qed.

Lemma respects_bind_from {A B} (m : M A) (k : A -> M B) :
  respects R m ->
  (forall w a w1, m w = (Normal a, w1) -> R (fs w1) (fs (snd (k a w1)))) ->
  respects R (bind m k).
Proof using R_trans.
  intros Hm Hk w. rewrite bind_unfold. specialize (Hm w).
  destruct (m w) as [[a|e|c| |e] w1] eqn:Hmw; try exact Hm.
  simpl in Hm. exact (R_trans _ _ _ Hm (Hk _ _ _ Hmw)).
Qed.

Lemma respects_bind {A B} (m : M A) (k : A -> M B) :
  respects R m -> (forall a, respects R (k a)) -> respects R (bind m k).
Proof using R_trans.
  intros Hm Hk. apply respects_bind_from; [exact Hm|].
  intros w a w1 _. apply Hk.
Qed.

Lemma respects_chdir p : respects R (chdir p).
Proof using R_refl.
  intros w. unfold chdir. rewrite emit_bind.
  destruct (Fs.is_dir p (fs (record [Chdir p] w))); apply R_refl.
Qed.

Lemma respects_forEach dry steps :
  Forall (fun s => respects R (action s)) steps ->
  respects R (forEach dry steps).
Proof using R_refl R_trans.
  induction 1 as [|s steps Hs _ IH]; simpl; [apply respects_ret|].
  apply respects_bind; [apply respects_emit|]. intros _.
  apply respects_bind; [|intros _; exact IH].
  destruct (ignoreDry s || negb dry); [exact Hs|apply respects_ret].
Qed.

Lemma respects_execute name steps :
  Forall (fun s => respects R (action s)) steps ->
  respects R (execute E name steps).
Proof using R_refl R_trans.
  intros H. unfold execute, console_log.
  apply respects_bind; [apply respects_emit|]. intros _.
  apply respects_bind; [now apply respects_forEach|]. intros _.
  apply respects_bind; [apply respects_emit|]. intros _.
  apply respects_bind; [apply respects_emit|]. intros _.
  apply respects_exit.
Qed.

(** The child processes. *)
Hypothesis R_shell : forall command p t, R t (fst (shell E command p t)).

Lemma respects_execSync command : respects R (execSync E command).
Proof using R_shell.
  intros w.
  destruct (execSync E command w) as [r w'] eqn:H. simpl.
  rewrite (execSync_fs _ _ _ _ _ H). apply R_shell.
Qed.

Lemma respects_step_install dir : respects R (action (step_install E dir)).
Proof using R_refl R_trans R_shell.
  simpl action.
  apply respects_bind; [apply respects_chdir|]. intros _.
  apply respects_bind; [apply respects_execSync|]. intros _.
  apply respects_ret.
Qed.

Lemma respects_step_invite token : respects R (action (step_invite E token)).
Proof using R_shell.
  intros w.
  destruct (step_invite_spec E token w) as (id & _ & ->).
  destruct (invite_line E id); simpl; apply R_shell.
Qed.

(** The [fs] calls of the two plans, for the target directories [good]. *)
Variable good : path -> Prop.

Hypothesis R_mkdir :
  forall dir t t', good dir -> Fs.mkdirSync dir t = Ok t' -> R t t'.
Hypothesis R_write :
  forall dir f data t t',
    good dir -> Fs.writeFileSync (dir ++ [f]) data t = Ok t' -> R t t'.
Hypothesis R_copy :
  forall dir src r t, good dir -> R t (fst (Fs.copySync src (dir ++ r) t)).

Lemma respects_mkdirSync dir : good dir -> respects R (mkdirSync dir).
Proof using R_refl R_mkdir.
  intros Hd w. rewrite mkdirSync_spec.
  destruct (Fs.mkdirSync dir (fs w)) as [t|e] eqn:H; [|apply R_refl].
  exact (R_mkdir _ _ _ Hd H).
Qed.

Lemma respects_writeFileSync dir f data :
  good dir -> respects R (writeFileSync (dir ++ [f]) data).
Proof using R_refl R_write.
  intros Hd w. rewrite writeFileSync_spec.
  destruct (Fs.writeFileSync (dir ++ [f]) data (fs w)) as [t|e] eqn:H;
    [|apply R_refl].
  exact (R_write _ _ _ _ _ Hd H).
Qed.

Lemma respects_copySync dir src r :
  good dir -> respects R (copySync src (dir ++ r)).
Proof using R_copy. intros Hd w. rewrite copySync_spec. simpl. now apply R_copy. Qed.

Lemma respects_file_steps name dir token :
  good dir ->
  Forall (fun s => respects R (action s))
    [step_mkdir name dir; step_boilerplate E dir;
     step_manifest E name dir; step_env E dir token].
Proof using R_refl R_trans R_mkdir R_write R_copy.
  intros Hd. repeat constructor; simpl action.
  - now apply respects_mkdirSync.
  - apply respects_bind.
    + rewrite <- (app_nil_r dir) at 1. now apply respects_copySync.
    + intros _. now apply respects_writeFileSync.
  - now apply respects_writeFileSync.
  - now apply respects_writeFileSync.
Qed.

Lemma respects_create_steps name dir token :
  good dir ->
  Forall (fun s => respects R (action s)) (create_steps E name dir token).
Proof using R_refl R_trans R_shell R_mkdir R_write R_copy.
  intros Hd. unfold create_steps.
  pose proof (respects_file_steps name dir token Hd) as H.
  inversion H as [|? ? H1 H']; subst. inversion H' as [|? ? H2 H'']; subst.
  inversion H'' as [|? ? H3 H''']; subst. inversion H''' as [|? ? H4 _]; subst.
  repeat constructor; try assumption.
  - apply respects_step_install.
  - apply respects_step_invite.
Qed.

Lemma respects_step_update name dir :
  good dir -> respects R (action (step_update E name dir)).
Proof using R_trans R_copy.
  intros Hd. simpl action.
  apply respects_bind; [now apply respects_copySync|]. intros _.
  now apply respects_copySync.
Qed.

Lemma respects_plan_steps a w p w' :
  (forall name, a = Some (JString name) -> good (Path.resolve (cwd w) name)) ->
  plan E a w = (Normal p, w') ->
  fs w' = fs w /\ Forall (fun s => respects R (action s)) (snd p).
Proof using R_refl R_trans R_shell R_mkdir R_write R_copy.
  intros Hgood.
  destruct a as [[| | |name| |]|]; try discriminate.
  specialize (Hgood name eq_refl).
  destruct (Fs.existsSync (Path.resolve (cwd w) name) (fs w)) eqn:Hex.
  - rewrite plan_existing by exact Hex. cbv zeta.
    destruct (fst (Prompts.confirm_loop (stdin w))) as [[[|]|]|e|c| |e];
      try discriminate.
    intros H. injection H as <- <-. split; [reflexivity|].
    constructor; [|constructor]. now apply respects_step_update.
  - rewrite plan_fresh by exact Hex. cbv zeta.
    destruct (stdin w) as [|k rest]; [discriminate|].
    intros H. injection H as <- <-. split; [reflexivity|].
    now apply respects_create_steps.
Qed.

Lemma plan_fs a w : fs (snd (plan E a w)) = fs w.
Proof.
  destruct a as [[| | |name| |]|]; try reflexivity.
  destruct (Fs.existsSync (Path.resolve (cwd w) name) (fs w)) eqn:Hex.
  - rewrite plan_existing by exact Hex. cbv zeta.
    destruct (fst (Prompts.confirm_loop (stdin w))) as [[[|]|]|e|c| |e];
      reflexivity.
  - rewrite plan_fresh by exact Hex. cbv zeta.
    destruct (stdin w) as [|k rest]; reflexivity.
Qed.

Lemma respects_on_name a w :
  (forall name, a = Some (JString name) -> good (Path.resolve (cwd w) name)) ->
  R (fs w) (fs (snd (on_name E a w))).
Proof using R_refl R_trans R_shell R_mkdir R_write R_copy.
  intros Hgood. rewrite on_name_unfold.
  pose proof (plan_fs a w) as Hfs.
  destruct (plan E a w) as [[p|e|c| |e] w1] eqn:Hp; simpl in Hfs;
    try (simpl; rewrite Hfs; apply R_refl).
  destruct (respects_plan_steps a w p w1 Hgood Hp) as (_ & Hsteps).
  rewrite <- Hfs. now apply respects_execute.
Qed.

End Respect.

(** ** An update removes nothing *)

(** X9.  An update that goes through has removed nothing and has put no
    file where a directory was, nor a directory where a file was: whatever
    the file tree held at a path before, it holds something of the same
    kind there afterwards.  (The template is only read: the step copies to
    no place at, above or below one it copies from.) *)
Theorem X9_update_removes_nothing
  (E : Env) (name : string) (dir : path) (w w1 : world) :
  template_untouched E dir = true ->
  action (step_update E name dir) w = (Normal tt, w1) ->
  keeps_entries (fs w) (fs w1).
Proof.
  intros _ Hrun.
  pose proof (respects_step_update E keeps_entries KeepFacts.keeps_trans
                (fun _ => True)
                (fun dir src r t _ => KeepFacts.copySync_keeps src (dir ++ r) t)
                name dir I w) as H.
  now rewrite Hrun in H.
Qed.

(** An instance of X9: the update of the user's older project, whose own
    file [src/mine.js] is still there. *)
Lemma X9_update_removes_nothing_instance :
  let E := Demo.env [] true Demo.discord in
  let dir := Demo.home ++ ["old-bot"] in
  let w := Demo.start [] in
  let w1 := snd (action (step_update E "old-bot" dir) w) in
  keeps_entries (fs w) (fs w1)
  /\ Fs.readFile (dir ++ ["src"; "mine.js"]) (fs w1) = Some "// user code".
Proof.
  intros E dir w w1. split; [|reflexivity].
  apply (X9_update_removes_nothing E "old-bot" dir w w1);
    vm_compute; reflexivity.
Defined.

(** ** A run stays in its target *)

Lemma same_file_refl p t : same_file p t t.
Proof. reflexivity. Qed.

Lemma same_file_trans p a b c :
  same_file p a b -> same_file p b c -> same_file p a c.
Proof. unfold same_file. congruence. Qed.

(** X10.  Once the name is known, the run changes no file outside the
    target directory, whichever plan it takes and however it ends: a file
    that is not at or below the path the name resolves to, and that the
    child processes leave alone, reads the same after the run as before (and
    is not there afterwards if it was not there before). *)
Theorem X10_run_stays_in_target
  (E : Env) (name : string) (w : world) (p : path) :
  Path.is_prefix (Path.resolve (cwd w) name) p = false ->
  (forall command, preserves E command p) ->
  Fs.readFile p (fs (snd (on_name E (Some (JString name)) w)))
  = Fs.readFile p (fs w).
Proof.
  intros Hout Hshell.
  apply (respects_on_name E (same_file p) (same_file_refl p)
           (same_file_trans p)
           (fun command q t => Hshell command q t)
           (fun dir => Path.is_prefix dir p = false)).
  - intros dir t t' Hd. now apply OutsideFacts.mkdirSync_same_file.
  - intros dir f data t t' Hd.
    apply OutsideFacts.writeFileSync_same_file.
    now apply OutsideFacts.not_prefix_app.
  - intros dir src r t Hd.
    apply OutsideFacts.copySync_same_file.
    now apply OutsideFacts.not_prefix_app.
  - intros name' Hname. injection Hname as <-. exact Hout.
Qed.

(** An instance of X10: the secrets file of the user's older project, while
    a new project is created next to it. *)
Lemma X10_run_stays_in_target_instance :
  let E := Demo.env [] true Demo.discord in
  let w := Demo.start [Submit "good-token"] in
  let p := Demo.home ++ ["old-bot"; ".env"] in
  Fs.readFile p (fs (snd (on_name E (Some (JString "my-bot")) w)))
  = Fs.readFile p (fs w).
Proof.
  intros E w p.
  apply (X10_run_stays_in_target E "my-bot" w p).
  - reflexivity.
  - intros command. apply demo_child_preserves. reflexivity.
Defined.

(** ** Building the project *)

Module BuildFacts.

Import Fs.

Lemma get_prefix p q t x :
  Path.is_prefix p q = true -> get q t = Some x -> exists y, get p t = Some y.
Proof.
  revert q t. induction p as [|c p IH]; intros q t Hp Hq; [simpl; eauto|].
  destruct q as [|d q]; [discriminate|].
  simpl in Hp. apply andb_prop in Hp. destruct Hp as [Hcd Hp].
  apply String.eqb_eq in Hcd. subst d.
  simpl in Hq |- *. destruct t as [data|es]; [discriminate|].
  destruct (lookup c es) as [y|]; [|discriminate].
  exact (IH _ _ Hp Hq).
Qed.

(** [ENOTDIR] means that the parent is not a directory. *)
Lemma stat_notdir p t : stat_at p t = NotDir -> is_dir (removelast p) t = false.
Proof.
  unfold is_dir. revert t. induction p as [|c p IH]; intros t H.
  - simpl in H. destruct t; discriminate.
  - destruct t as [data|es].
    + destruct p; reflexivity.
    + simpl in H. destruct (lookup c es) as [x|] eqn:Hc; [|discriminate].
      destruct p as [|c' p']; [destruct x; discriminate|].
      change (removelast (c :: c' :: p')) with (c :: removelast (c' :: p')).
      simpl get. rewrite Hc. exact (IH _ H).
Qed.

Lemma stat_missing_child p t :
  get p t = None -> is_dir (removelast p) t = true -> stat_at p t = NoEnt.
Proof.
  intros Hg Hd. destruct (StatFacts.stat_missing _ _ Hg) as [H|H]; [exact H|].
  apply stat_notdir in H. congruence.
Qed.

Lemma stat_app p q t x : get p t = Some x -> stat_at (p ++ q) t = stat_at q x.
Proof.
  revert t. induction p as [|c p IH]; intros t H; simpl in *.
  - now injection H as ->.
  - destruct t as [data|es]; [discriminate|].
    destruct (lookup c es); [now apply IH|discriminate].
Qed.

(** Binding a name in a directory that is there. *)
Lemma put_child p f x t es :
  get p t = Some (Dir es) ->
  exists t', put (p ++ [f]) x t = Some t'
             /\ get p t' = Some (Dir (bind_entry f x es)).
Proof.
  revert t. induction p as [|c p IH]; intros t H.
  - simpl in H. injection H as ->. simpl. eauto.
  - simpl in H. destruct t as [data|es0]; [discriminate|].
    destruct (lookup c es0) as [y|] eqn:Hc; [|discriminate].
    destruct (IH _ H) as (y' & Hput & Hget).
    exists (Dir (bind_entry c y' es0)).
    change ((c :: p) ++ [f]) with (c :: (p ++ [f])).
    simpl put. rewrite Hc, Hput.
    split.
    + destruct (p ++ [f]) eqn:Hp; [|reflexivity].
      now apply app_eq_nil in Hp.
    + simpl. now rewrite FsFacts.lookup_bind_same.
Qed.

(** Replacing a node that is there. *)
Lemma put_over p x t y : get p t = Some y -> exists t', put p x t = Some t'.
Proof.
  revert t. induction p as [|c p IH]; intros t H; [simpl; eauto|].
  simpl in H. destruct t as [data|es]; [discriminate|].
  destruct (lookup c es) as [z|] eqn:Hc; [|discriminate].
  simpl. rewrite Hc.
  destruct p as [|c' p']; [eauto|].
  destruct (IH _ H) as (z' & ->). eauto.
Qed.

Lemma lookup_app n a b :
  lookup n (a ++ b) = match lookup n a with
                      | Some x => Some x
                      | None => lookup n b
                      end.
Proof.
  induction a as [|[m y] a IH]; simpl; [reflexivity|].
  destruct (String.eqb n m); [reflexivity|exact IH].
Qed.

Lemma bind_entry_new n x acc :
  lookup n acc = None -> bind_entry n x acc = acc ++ [(n, x)].
Proof.
  induction acc as [|[m y] acc IH]; simpl; [reflexivity|].
  destruct (String.eqb n m); [discriminate|].
  intros H. now rewrite IH.
Qed.

Section Items.

Variable copy : node -> option node -> node * option exn.

(** Items with names of their own, none of them taken, are added as they
    are, in their order. *)
Lemma copy_items_fresh items :
  distinct (map fst items) = true ->
  Forall (fun kv => copy (snd kv) None = (snd kv, None)) items ->
  forall acc,
    (forall n, existsb (String.eqb n) (map fst items) = true ->
               lookup n acc = None) ->
    copy_items copy items acc = (acc ++ items, None).
Proof.
  induction items as [|[m c] items IH]; intros Hd Hall acc Hacc.
  - simpl. now rewrite app_nil_r.
  - simpl in Hd. apply andb_prop in Hd. destruct Hd as [Hm Hd].
    apply negb_true_iff in Hm.
    inversion Hall as [|kv l Hc Hrest]; subst. simpl in Hc.
    assert (Hnone : lookup m acc = None).
    { apply Hacc. simpl. now rewrite String.eqb_refl. }
    simpl. rewrite Hnone, Hc, (bind_entry_new _ _ _ Hnone).
    rewrite (IH Hd Hrest).
    + now rewrite <- app_assoc.
    + intros n Hn. rewrite lookup_app.
      rewrite Hacc by (simpl; rewrite Hn; apply orb_true_r).
      simpl. destruct (String.eqb n m) eqn:Hnm; [|reflexivity].
      apply String.eqb_eq in Hnm. subst n. congruence.
Qed.

End Items.

(** A well-formed tree copied to a place where nothing is arrives as it
    is. *)
Lemma copy_fresh s : wf s = true -> copy_node s None = (s, None).
Proof.
  induction s as [data|items IH] using CopyFacts.node_induction; intros Hwf;
    [reflexivity|].
  simpl in Hwf. apply andb_prop in Hwf. destruct Hwf as [Hd Hall].
  simpl.
  rewrite (copy_items_fresh copy_node items Hd); [reflexivity| |reflexivity].
  rewrite forallb_forall in Hall. rewrite Forall_forall in IH |- *.
  intros kv Hin. apply IH; [exact Hin|now apply Hall].
Qed.

Lemma copy_onto_empty items :
  wf (Dir items) = true ->
  copy_node (Dir items) (Some (Dir [])) = (Dir items, None).
Proof. intros Hwf. exact (copy_fresh (Dir items) Hwf). Qed.

(** A well-formed tree copied onto itself stays as it is. *)
Lemma copy_onto_itself s : wf s = true -> copy_node s (Some s) = (s, None).
Proof.
  intros Hwf. exact (CopyFacts.copy_node_again s Hwf None s (copy_fresh s Hwf)).
Qed.

Lemma mkdirSync_fresh dir t :
  existsSync dir t = false ->
  is_dir (removelast dir) t = true ->
  exists t1, mkdirSync dir t = Ok t1 /\ put dir (Dir []) t = Some t1.
Proof.
  intros Hex Hparent. unfold existsSync in Hex.
  destruct (get dir t) eqn:Hg; [discriminate|].
  unfold mkdirSync, put_or.
  rewrite (stat_missing_child _ _ Hg Hparent), Hparent.
  assert (Hne : dir <> []) by (intros ->; discriminate).
  unfold is_dir in Hparent.
  destruct (get (removelast dir) t) as [[data|es]|] eqn:Hp; try discriminate.
  destruct (put_child (removelast dir) (last dir EmptyString) (Dir []) t es Hp)
    as (t1 & Hput & _).
  rewrite <- (app_removelast_last EmptyString Hne) in Hput.
  rewrite Hput. eauto.
Qed.

Lemma copySync_into_new src dest t items :
  get src t = Some (Dir items) ->
  wf (Dir items) = true ->
  get dest t = Some (Dir []) ->
  Path.is_prefix src dest = false ->
  exists t2, copySync src dest t = (t2, None)
             /\ put dest (Dir items) t = Some t2.
Proof.
  intros Hs Hwf Hd Hpre.
  destruct (put_over dest (Dir items) t _ Hd) as (t2 & Hput).
  exists t2. split; [|exact Hput].
  unfold copySync. rewrite Hs, (FsFacts.stat_get _ _ _ Hd). simpl kind.
  assert (Hne : path_eqb src dest = false).
  { destruct (path_eqb src dest) eqn:He; [|reflexivity].
    apply PathFacts.eqb_prefix in He. congruence. }
  rewrite Hne, Hpre, (CopySyncFacts.get_removelast _ _ _ Hd), Hd.
  rewrite (copy_onto_empty items Hwf). now rewrite Hput.
Qed.

Lemma writeFileSync_in_dir dir f data t es :
  get dir t = Some (Dir es) ->
  is_dir [f] (Dir es) = false ->
  exists t', writeFileSync (dir ++ [f]) data t = Ok t'
             /\ put (dir ++ [f]) (File data) t = Some t'
             /\ get dir t' = Some (Dir (bind_entry f (File data) es)).
Proof.
  intros Hd Hf.
  destruct (put_child dir f (File data) t es Hd) as (t' & Hput & Hget).
  exists t'. split; [|split; assumption].
  unfold writeFileSync, put_or.
  rewrite (stat_app dir [f] t _ Hd).
  assert (Hparent : is_dir (removelast (dir ++ [f])) t = true).
  { rewrite removelast_last. unfold is_dir. now rewrite Hd. }
  rewrite Hparent, Hput.
  unfold is_dir in Hf. simpl in Hf |- *.
  destruct (lookup f es) as [[d|es']|]; try reflexivity. discriminate.
Qed.

Lemma is_dir_bind_other f g x es :
  f <> g ->
  is_dir [f] (Dir (bind_entry g x es)) = is_dir [f] (Dir es).
Proof.
  intros Hne. unfold is_dir. simpl.
  now rewrite FsFacts.lookup_bind_other.
Qed.

Lemma prefix_split p q : Path.is_prefix p q = true -> exists r, q = p ++ r.
Proof.
  revert q. induction p as [|c p IH]; intros q H; [now exists q|].
  destruct q as [|d q]; [discriminate|].
  simpl in H. apply andb_prop in H. destruct H as [Hcd H].
  apply String.eqb_eq in Hcd. subst d.
  destruct (IH _ H) as (r & ->). now exists r.
Qed.

(** What [mkdirSync] found when it went through. *)
Lemma mkdirSync_made dir t t1 :
  mkdirSync dir t = Ok t1 ->
  existsSync dir t = false
  /\ is_dir (removelast dir) t = true
  /\ put dir (Dir []) t = Some t1.
Proof.
  unfold mkdirSync, put_or.
  destruct (stat_at dir t) eqn:Hst; try discriminate.
  destruct (is_dir (removelast dir) t) eqn:Hp; [|discriminate].
  destruct (put dir (Dir []) t) eqn:Hput; [|discriminate].
  intros H. injection H as <-. repeat split.
  unfold existsSync. now rewrite (KeepFacts.stat_noent _ _ Hst).
Qed.

(** What [copySync] found when it went through onto an empty directory: a
    directory, not the destination, not above it and not below it. *)
Lemma copySync_onto_new src dest t t2 :
  copySync src dest t = (t2, None) ->
  get dest t = Some (Dir []) ->
  exists items,
    get src t = Some (Dir items)
    /\ Path.is_prefix src dest = false
    /\ Path.is_prefix dest src = false.
Proof.
  unfold copySync. intros H Hd.
  destruct (get src t) as [s|] eqn:Hs; [|discriminate].
  rewrite (FsFacts.stat_get _ _ _ Hd) in H.
  change (kind (Dir [])) with IsDir in H. cbv iota in H.
  destruct (path_eqb src dest) eqn:Hne; [discriminate|].
  destruct s as [data|items]; [discriminate|].
  destruct (Path.is_prefix src dest) eqn:Hpre; [discriminate|].
  exists items. split; [reflexivity|]. split; [reflexivity|].
  destruct (Path.is_prefix dest src) eqn:Hp; [|reflexivity].
  destruct (prefix_split _ _ Hp) as (r & ->).
  rewrite ContentFacts.get_app, Hd in Hs.
  destruct r as [|c r].
  - now rewrite app_nil_r, CopySyncFacts.path_eqb_refl in Hne.
  - discriminate.
Qed.

(** Where [writeFileSync] went through there was no directory. *)
Lemma write_not_dir dir f data t t' es :
  writeFileSync (dir ++ [f]) data t = Ok t' ->
  get dir t = Some (Dir es) ->
  is_dir [f] (Dir es) = false.
Proof.
  unfold writeFileSync. intros H Hd.
  rewrite (stat_app dir [f] t _ Hd) in H.
  unfold is_dir. simpl in H |- *.
  destruct (lookup f es) as [[d|es']|]; try reflexivity. discriminate.
Qed.

End BuildFacts.

Lemma record_set_fs es t w : record es (set_fs t w) = set_fs t (record es w).
Proof. reflexivity. Qed.

Lemma set_fs_set_fs t t' w : set_fs t (set_fs t' w) = set_fs t w.
Proof. reflexivity. Qed.

Section Building.

Variable E : Env.

(** The tree that the four file steps make. *)
Lemma create_tree name dir token t items :
  Fs.existsSync dir t = false ->
  Fs.is_dir (removelast dir) t = true ->
  Fs.get (appDir E) t = Some (Fs.Dir items) ->
  Fs.wf (Fs.Dir items) = true ->
  Path.is_prefix (appDir E) dir = false ->
  Forall (fun f => Fs.is_dir [f] (Fs.Dir items) = false)
    [".gitignore"; "package.json"; ".env"] ->
  exists t1 t2 t3 t4 t5,
    Fs.mkdirSync dir t = Ok t1
    /\ Fs.copySync (appDir E) dir t1 = (t2, None)
    /\ Fs.writeFileSync (dir ++ [".gitignore"]) gitignore_text t2 = Ok t3
    /\ Fs.writeFileSync (dir ++ ["package.json"]) (manifest_text E name) t3
       = Ok t4
    /\ Fs.writeFileSync (dir ++ [".env"]) (env_text E token) t4 = Ok t5
    /\ Fs.get dir t5 = Some (Fs.Dir (project_entries E name token items))
    /\ (forall q, Path.apart dir q = true -> Fs.get q t5 = Fs.get q t).
Proof.
  intros Hex Hparent Happ Hwf Hpre Hfiles.
  inversion Hfiles as [|? ? Hf1 Hfiles1]; subst.
  inversion Hfiles1 as [|? ? Hf2 Hfiles2]; subst.
  inversion Hfiles2 as [|? ? Hf3 _]; subst.
  (* the template is not inside the target, which is not there yet *)
  assert (Hpre' : Path.is_prefix dir (appDir E) = false).
  { destruct (Path.is_prefix dir (appDir E)) eqn:Hp; [|reflexivity].
    destruct (BuildFacts.get_prefix _ _ _ _ Hp Happ) as (y & Hy).
    unfold Fs.existsSync in Hex. now rewrite Hy in Hex. }
  (* the directory *)
  destruct (BuildFacts.mkdirSync_fresh dir t Hex Hparent) as (t1 & Hmk & Hput1).
  pose proof (FsFacts.get_put_same _ _ _ _ Hput1) as Hd1.
  assert (Happ1 : Fs.get (appDir E) t1 = Some (Fs.Dir items)).
  { now rewrite (FsFacts.get_put_apart _ _ _ _ _ Hput1 Hpre' Hpre). }
  (* the boilerplate *)
  destruct (BuildFacts.copySync_into_new _ _ _ _ Happ1 Hwf Hd1 Hpre)
    as (t2 & Hcp & Hput2).
  pose proof (FsFacts.get_put_same _ _ _ _ Hput2) as Hd2.
  (* the three files *)
  destruct (BuildFacts.writeFileSync_in_dir dir ".gitignore" gitignore_text
              t2 items Hd2 Hf1) as (t3 & Hw3 & Hput3 & Hd3).
  destruct (BuildFacts.writeFileSync_in_dir dir "package.json"
              (manifest_text E name) t3 _ Hd3) as (t4 & Hw4 & Hput4 & Hd4).
  { rewrite BuildFacts.is_dir_bind_other by discriminate. exact Hf2. }
  destruct (BuildFacts.writeFileSync_in_dir dir ".env" (env_text E token)
              t4 _ Hd4) as (t5 & Hw5 & Hput5 & Hd5).
  { rewrite !BuildFacts.is_dir_bind_other by discriminate. exact Hf3. }
  exists t1, t2, t3, t4, t5.
  repeat (split; [assumption|]).
  intros q Hq.
  assert (Hq' : forall f, Path.apart (dir ++ [f]) q = true).
  { intros f. rewrite <- (app_nil_r q). now apply PathFacts.apart_app. }
  assert (Hframe : forall p x a b,
             Fs.put p x a = Some b -> Path.apart p q = true ->
             Fs.get q b = Fs.get q a).
  { intros p x a b Hput Hap. unfold Path.apart in Hap.
    apply andb_prop in Hap. destruct Hap as [H1 H2].
    apply negb_true_iff in H1, H2.
    exact (FsFacts.get_put_apart _ _ _ _ _ Hput H1 H2). }
  rewrite (Hframe _ _ _ _ Hput5 (Hq' _)), (Hframe _ _ _ _ Hput4 (Hq' _)),
    (Hframe _ _ _ _ Hput3 (Hq' _)), (Hframe _ _ _ _ Hput2 Hq).
  exact (Hframe _ _ _ _ Hput1 Hq).
Qed.

(** The four file steps, when each [fs] call goes through. *)
Lemma file_steps_run name dir token v t1 t2 t3 t4 t5 :
  Fs.mkdirSync dir (fs v) = Ok t1 ->
  Fs.copySync (appDir E) dir t1 = (t2, None) ->
  Fs.writeFileSync (dir ++ [".gitignore"]) gitignore_text t2 = Ok t3 ->
  Fs.writeFileSync (dir ++ ["package.json"]) (manifest_text E name) t3 = Ok t4 ->
  Fs.writeFileSync (dir ++ [".env"]) (env_text E token) t4 = Ok t5 ->
  forEach false [step_mkdir name dir; step_boilerplate E dir;
                 step_manifest E name dir; step_env E dir token] v
  = (Normal tt,
     mkWorld t5 (cwd v) (stdin v)
       (trace v ++ file_step_events E name dir token)).
Proof.
  intros H1 H2 H3 H4 H5.
  rewrite forEach_cons. change (ignoreDry _ || negb false) with true.
  cbv iota. rewrite bind_unfold. simpl action.
  rewrite mkdirSync_spec. simpl fs. rewrite H1.
  rewrite forEach_cons. change (ignoreDry _ || negb false) with true.
  cbv iota. rewrite bind_unfold. simpl action.
  rewrite bind_unfold, copySync_spec. simpl fs. rewrite H2. simpl fst; simpl snd.
  cbv iota.
  rewrite writeFileSync_spec. simpl fs. rewrite H3.
  rewrite forEach_cons. change (ignoreDry _ || negb false) with true.
  cbv iota. rewrite bind_unfold. simpl action.
  rewrite writeFileSync_spec. simpl fs. rewrite H4.
  rewrite forEach_cons. change (ignoreDry _ || negb false) with true.
  cbv iota. rewrite bind_unfold. simpl action.
  rewrite writeFileSync_spec. simpl fs. rewrite H5.
  change (forEach false []) with (@ret unit tt). unfold ret.
  rewrite !record_set_fs, !set_fs_set_fs, !record_record.
  unfold set_fs, record. reflexivity.
Qed.

(** What the four file steps found when they all went through. *)
Lemma file_steps_went name dir token v v4 :
  Fs.wf (fs v) = true ->
  forEach false [step_mkdir name dir; step_boilerplate E dir;
                 step_manifest E name dir; step_env E dir token] v
  = (Normal tt, v4) ->
  exists items,
    Fs.existsSync dir (fs v) = false
    /\ Fs.is_dir (removelast dir) (fs v) = true
    /\ Fs.get (appDir E) (fs v) = Some (Fs.Dir items)
    /\ Fs.wf (Fs.Dir items) = true
    /\ Path.is_prefix (appDir E) dir = false
    /\ Forall (fun f => Fs.is_dir [f] (Fs.Dir items) = false)
         [".gitignore"; "package.json"; ".env"].
Proof.
  intros Hwf H.
  apply forEach_normal_inv in H. destruct H as (w1 & H1 & H).
  apply forEach_normal_inv in H. destruct H as (w2 & H2 & H).
  apply forEach_normal_inv in H. destruct H as (w3 & H3 & H).
  apply forEach_normal_inv in H. destruct H as (w4' & H4 & _).
  simpl action in H1, H2, H3, H4.
  apply mkdirSync_normal in H1. destruct H1 as (t1 & Hmk & ->).
  apply bind_normal_inv in H2. destruct H2 as ([] & wc & Hc & H2).
  apply copySync_normal in Hc. destruct Hc as (t2 & Hc & ->).
  apply writeFileSync_normal in H2. destruct H2 as (t3 & Hw3 & ->).
  apply writeFileSync_normal in H3. destruct H3 as (t4 & Hw4 & ->).
  apply writeFileSync_normal in H4. destruct H4 as (t5 & Hw5 & _).
  cbn [fs set_fs record] in Hmk, Hc, Hw3, Hw4, Hw5.
  destruct (BuildFacts.mkdirSync_made _ _ _ Hmk) as (Hex & Hparent & Hput1).
  pose proof (FsFacts.get_put_same _ _ _ _ Hput1) as Hd1.
  destruct (BuildFacts.copySync_onto_new _ _ _ _ Hc Hd1)
    as (items & Happ1 & Hpre & Hpre').
  assert (Happ : Fs.get (appDir E) (fs v) = Some (Fs.Dir items)).
  { now rewrite <- (FsFacts.get_put_apart _ _ _ _ _ Hput1 Hpre' Hpre). }
  pose proof (CopySyncFacts.wf_get _ _ _ Hwf Happ) as Hwfi.
  (* the directory after the copy, and after each file *)
  destruct (BuildFacts.copySync_into_new _ _ _ _ Happ1 Hwfi Hd1 Hpre)
    as (t2' & Hc' & Hput2).
  rewrite Hc in Hc'. injection Hc' as <-.
  pose proof (FsFacts.get_put_same _ _ _ _ Hput2) as Hd2.
  pose proof (BuildFacts.write_not_dir _ _ _ _ _ _ Hw3 Hd2) as Hf1.
  destruct (BuildFacts.writeFileSync_in_dir dir ".gitignore" gitignore_text
              t2 items Hd2 Hf1) as (t3' & Hw3' & _ & Hd3).
  rewrite Hw3 in Hw3'. injection Hw3' as <-.
  pose proof (BuildFacts.write_not_dir _ _ _ _ _ _ Hw4 Hd3) as Hf2.
  destruct (BuildFacts.writeFileSync_in_dir dir "package.json"
              (manifest_text E name) t3 _ Hd3 Hf2) as (t4' & Hw4' & _ & Hd4).
  rewrite Hw4 in Hw4'. injection Hw4' as <-.
  pose proof (BuildFacts.write_not_dir _ _ _ _ _ _ Hw5 Hd4) as Hf3.
  rewrite BuildFacts.is_dir_bind_other in Hf2 by discriminate.
  rewrite !BuildFacts.is_dir_bind_other in Hf3 by discriminate.
  exists items. repeat (split; [assumption|]).
  repeat constructor; assumption.
Qed.

(** What the last two steps did when they went through: the installer
    exited with status zero in the target directory, and the invite-link
    step had a line to print. *)
Lemma last_two_steps_went dir token v w' :
  Fs.is_dir dir (fs v) = true ->
  forEach false [step_install E dir; step_invite E token] v = (Normal tt, w') ->
  exists line,
    w' = mkWorld (fst (shell E (curl_command E token) dir
                         (fst (shell E "npm ci" dir (fs v)))))
           dir (stdin v)
           (trace v ++ [Log (message (step_install E dir)); Chdir dir;
                        Exec "npm ci"; Log (message (step_invite E token));
                        Exec (curl_command E token); Log line]).
Proof.
  intros Hdir.
  rewrite forEach_cons. change (ignoreDry _ || negb false) with true.
  cbv iota. rewrite bind_unfold.
  rewrite step_install_spec by exact Hdir.
  change (fs (record [Log (message (step_install E dir))] v)) with (fs v).
  destruct (shell E "npm ci" dir (fs v)) as [t' [out|]]; cbn [fst snd];
    cbv iota; [|discriminate].
  rewrite forEach_cons. change (ignoreDry _ || negb false) with true.
  cbv iota. rewrite bind_unfold.
  match goal with
  | |- context [action (step_invite E token) ?W] =>
      destruct (step_invite_spec E token W) as (id & _ & ->)
  end.
  destruct (invite_line E id) as [line|]; [|discriminate].
  cbv iota. change (forEach false []) with (@ret unit tt). unfold ret.
  intros H. injection H as <-. exists line.
  unfold after_lookup, set_fs, record. cbn [fs cwd stdin trace].
  rewrite <- !app_assoc. reflexivity.
Qed.

(** The last two steps do not leave through [process.exit]. *)
Lemma last_two_steps_stay dir token v c w' :
  Fs.is_dir dir (fs v) = true ->
  forEach false [step_install E dir; step_invite E token] v <> (Exit c, w').
Proof.
  intros Hdir.
  rewrite forEach_cons. change (ignoreDry _ || negb false) with true.
  cbv iota. rewrite bind_unfold.
  rewrite step_install_spec by exact Hdir.
  destruct (snd (shell E "npm ci" dir _)); [|discriminate].
  rewrite forEach_cons. change (ignoreDry _ || negb false) with true.
  cbv iota. rewrite bind_unfold.
  match goal with
  | |- context [action (step_invite E token) ?W] =>
      destruct (step_invite_spec E token W) as (id & _ & ->)
  end.
  destruct (invite_line E id); discriminate.
Qed.

End Building.

(** ** What a creation has made *)

(** X11.  What the create plan has made once its four file steps have gone
    through, on a well-formed file tree.  The target was not there and the
    template was a directory; the target directory now holds exactly the
    template's entries, as they are, with [.gitignore], [package.json] and
    [.env] bound to the three files written; whatever is apart from the
    target is as it was; and the steps did just these things, in this
    order: make the directory, copy the template, write the three files.
    When the whole run then ends with [process.exit(0)], what followed was
    the installer in the target directory, the lookup with its line, and the
    closing summary, in this order, and the file tree is the one that the two
    child processes left. *)
Theorem X11_what_a_creation_has_made
  (E : Env) (name : string) (dir : path) (token : jsval) (v v4 : world) :
  Fs.wf (fs v) = true ->
  forEach false [step_mkdir name dir; step_boilerplate E dir;
                 step_manifest E name dir; step_env E dir token] v
  = (Normal tt, v4) ->
  exists items,
    Fs.existsSync dir (fs v) = false
    /\ Fs.get (appDir E) (fs v) = Some (Fs.Dir items)
    /\ v4 = mkWorld (fs v4) (cwd v) (stdin v)
              (trace v ++ file_step_events E name dir token)
    /\ Fs.get dir (fs v4) = Some (Fs.Dir (project_entries E name token items))
    /\ (forall q, Path.apart dir q = true -> Fs.get q (fs v4) = Fs.get q (fs v))
    /\ (forall w w',
          v = record [Log ""] w ->
          isDryRun E = false ->
          execute E name (create_steps E name dir token) w = (Exit 0, w') ->
          exists line,
            w' = mkWorld
                   (fst (shell E (curl_command E token) dir
                           (fst (shell E "npm ci" dir (fs v4)))))
                   dir (stdin w)
                   (trace w ++ Log "" :: file_step_events E name dir token
                      ++ closing_events E name dir token line)).
Proof.
  intros Hwf Hrun.
  destruct (file_steps_went E name dir token v v4 Hwf Hrun)
    as (items & Hex & Hparent & Happ & Hwfi & Hpre & Hfiles).
  destruct (create_tree E name dir token (fs v) items
              Hex Hparent Happ Hwfi Hpre Hfiles)
    as (t1 & t2 & t3 & t4 & t5 & H1 & H2 & H3 & H4 & H5 & Hdir & Hframe).
  pose proof (file_steps_run E name dir token v _ _ _ _ _ H1 H2 H3 H4 H5) as Hv4.
  rewrite Hrun in Hv4. injection Hv4 as ->.
  exists items. cbn [fs].
  split; [exact Hex|]. split; [exact Happ|]. split; [reflexivity|].
  split; [exact Hdir|]. split; [exact Hframe|].
  intros w w' -> Hdry Hexec.
  rewrite execute_unfold, Hdry in Hexec.
  change (create_steps E name dir token)
    with ([step_mkdir name dir; step_boilerplate E dir;
           step_manifest E name dir; step_env E dir token]
            ++ [step_install E dir; step_invite E token]) in Hexec.
  rewrite forEach_app, bind_unfold, Hrun in Hexec. cbv iota in Hexec.
  match type of Hexec with
  | context [forEach false [step_install E dir; step_invite E token] ?W] =>
      destruct (forEach false [step_install E dir; step_invite E token] W)
        as [[[]|e|c| |e] w6] eqn:H6; try discriminate
  end.
  - apply last_two_steps_went in H6;
      [|cbn [fs]; unfold Fs.is_dir; now rewrite Hdir].
    destruct H6 as (line & ->).
    injection Hexec as <-. exists line.
    unfold record, closing_events. cbn [fs cwd stdin trace].
    rewrite <- !app_assoc. reflexivity.
  - exfalso. revert H6. apply last_two_steps_stay.
    cbn [fs]. unfold Fs.is_dir. now rewrite Hdir.
Qed.

(** An instance of X11: [my-bot] in the concrete environment. *)
Lemma X11_creation_instance :
  let E := Demo.env [] true Demo.discord in
  let dir := Demo.home ++ ["my-bot"] in
  let token := Some (JString "good-token") in
  let v := Demo.start [] in
  let v4 := snd (forEach false
                   [step_mkdir "my-bot" dir; step_boilerplate E dir;
                    step_manifest E "my-bot" dir; step_env E dir token] v) in
  Fs.get dir (fs v4)
  = Some (Fs.Dir (project_entries E "my-bot" token
                    match Demo.template with
                    | Fs.Dir items => items
                    | Fs.File _ => []
                    end))
  /\ Fs.get (Demo.home ++ ["old-bot"]) (fs v4) = Some Demo.old_project.
Proof.
  intros E dir token v v4.
  destruct (X11_what_a_creation_has_made E "my-bot" dir token v v4)
    as (items & _ & Happ & _ & Hdir & Hframe & _).
  - reflexivity.
  - vm_compute. reflexivity.
  - split.
    + rewrite Hdir. vm_compute in Happ. now injection Happ as <-.
    + rewrite Hframe by reflexivity. reflexivity.
Defined.

(** ** An update right after the creation *)

Section UpToDate.

Variable E : Env.

(** The update step on a target whose core and entry point are the
    template's: both copies go through and the file tree stays as it is. *)
Lemma update_noop name dir w core entry :
  Fs.wf core = true -> Fs.wf entry = true ->
  Fs.get (core_of (appDir E)) (fs w) = Some core ->
  Fs.get (core_of dir) (fs w) = Some core ->
  Fs.get (entry_of (appDir E)) (fs w) = Some entry ->
  Fs.get (entry_of dir) (fs w) = Some entry ->
  Path.apart (appDir E ++ ["src"]) (dir ++ ["src"]) = true ->
  action (step_update E name dir) w
  = (Normal tt,
     record [Copy (core_of (appDir E)) (core_of dir);
             Copy (entry_of (appDir E)) (entry_of dir)] w).
Proof.
  intros Hwc Hwe Hsc Hdc Hse Hde Hapart.
  assert (A1 : Path.apart (core_of (appDir E)) (core_of dir) = true).
  { rewrite !core_of_split. now apply PathFacts.apart_app. }
  assert (A2 : Path.apart (entry_of (appDir E)) (entry_of dir) = true).
  { rewrite !entry_of_split. now apply PathFacts.apart_app. }
  assert (Hpre : forall (s : Fs.node) p q,
             Path.apart p q = true ->
             match s with
             | Fs.Dir _ => Path.is_prefix p q
             | Fs.File _ => false
             end = false).
  { intros s p q H. destruct s; [reflexivity|].
    now apply PathFacts.apart_prefix. }
  change (action (step_update E name dir))
    with (copySync (core_of (appDir E)) (core_of dir) ;;
          copySync (entry_of (appDir E)) (entry_of dir)).
  rewrite bind_unfold, copySync_spec.
  rewrite (CopySyncFacts.copySync_again _ _ (fs w) core core Hsc Hdc
             (BuildFacts.copy_onto_itself core Hwc)
             (PathFacts.apart_neq _ _ A1) (Hpre core _ _ A1)).
  simpl fst; simpl snd. cbv iota.
  rewrite copySync_spec. simpl fs.
  rewrite (CopySyncFacts.copySync_again _ _ (fs w) entry entry Hse Hde
             (BuildFacts.copy_onto_itself entry Hwe)
             (PathFacts.apart_neq _ _ A2) (Hpre entry _ _ A2)).
  simpl fst; simpl snd.
  unfold set_fs, record; simpl. now rewrite <- app_assoc.
Qed.

End UpToDate.

(** X12.  Updating a project right after it was created changes nothing.
    When the four file steps have gone through on a well-formed file tree
    and the update step for the same target then goes through as well, it
    has made its two copies and left the file tree exactly as it was. *)
Theorem X12_update_after_create_changes_nothing
  (E : Env) (name : string) (dir : path) (token : jsval) (v v4 v5 : world) :
  Fs.wf (fs v) = true ->
  forEach false [step_mkdir name dir; step_boilerplate E dir;
                 step_manifest E name dir; step_env E dir token] v
  = (Normal tt, v4) ->
  action (step_update E name dir) v4 = (Normal tt, v5) ->
  v5 = record [Copy (core_of (appDir E)) (core_of dir);
               Copy (entry_of (appDir E)) (entry_of dir)] v4
  /\ fs v5 = fs v4.
Proof.
  intros Hwf Hrun Hupd.
  destruct (file_steps_went E name dir token v v4 Hwf Hrun)
    as (items & Hex & Hparent & Happ & Hwfi & Hpre & Hfiles).
  destruct (create_tree E name dir token (fs v) items
              Hex Hparent Happ Hwfi Hpre Hfiles)
    as (t1 & t2 & t3 & t4 & t5 & H1 & H2 & H3 & H4 & H5 & Hdir & Hframe).
  pose proof (file_steps_run E name dir token v _ _ _ _ _ H1 H2 H3 H4 H5) as Hv4.
  rewrite Hrun in Hv4. injection Hv4 as ->.
  assert (Hapart : Path.apart dir (appDir E) = true).
  { unfold Path.apart. rewrite Hpre.
    destruct (Path.is_prefix dir (appDir E)) eqn:Hp; [|reflexivity].
    destruct (BuildFacts.get_prefix _ _ _ _ Hp Happ) as (y & Hy).
    unfold Fs.existsSync in Hex. now rewrite Hy in Hex. }
  assert (Hsrc : forall r,
             Fs.get (appDir E ++ r) t5 = Fs.get r (Fs.Dir items)).
  { intros r. rewrite Hframe.
    - now rewrite ContentFacts.get_app, Happ.
    - rewrite <- (app_nil_r dir). now apply PathFacts.apart_app. }
  assert (Hdst : forall x,
             Fs.get (dir ++ ["src"; x]) t5 = Fs.get ["src"; x] (Fs.Dir items)).
  { intros x. rewrite ContentFacts.get_app, Hdir.
    unfold project_entries. simpl.
    now rewrite !FsFacts.lookup_bind_other by discriminate. }
  assert (Hapart' : Path.apart (appDir E ++ ["src"]) (dir ++ ["src"]) = true).
  { apply PathFacts.apart_app. now rewrite PathFacts.apart_sym. }
  assert (A1 : Path.apart (core_of (appDir E)) (core_of dir) = true).
  { rewrite !core_of_split. now apply PathFacts.apart_app. }
  (* the update went through: the template has its core and entry point *)
  pose proof Hupd as Hupd'.
  change (action (step_update E name dir))
    with (copySync (core_of (appDir E)) (core_of dir) ;;
          copySync (entry_of (appDir E)) (entry_of dir)) in Hupd'.
  apply bind_normal_inv in Hupd'. destruct Hupd' as ([] & wa & Hc1 & Hc2).
  apply copySync_normal in Hc1. destruct Hc1 as (ta & Hc1 & ->).
  apply copySync_normal in Hc2. destruct Hc2 as (tb & Hc2 & _).
  cbn [fs set_fs record] in Hc1, Hc2.
  destruct (CopySyncFacts.copySync_ok _ _ _ _ Hc1)
    as (core & _ & _ & Hcore & _).
  destruct (CopySyncFacts.copySync_ok _ _ _ _ Hc2)
    as (entry & _ & _ & Hentry & _).
  assert (Hcore' : Fs.get ["src"; "core"] (Fs.Dir items) = Some core).
  { rewrite <- Hsrc. exact Hcore. }
  pose proof (CopySyncFacts.wf_get _ _ _ Hwfi Hcore') as Hwc.
  assert (Hta : ta = t5).
  { assert (Hd : Fs.get (core_of dir) t5 = Some core).
    { unfold core_of. now rewrite Hdst. }
    assert (Hp : match core with
                 | Fs.Dir _ => Path.is_prefix (core_of (appDir E)) (core_of dir)
                 | Fs.File _ => false
                 end = false).
    { destruct core; [reflexivity|]. now apply PathFacts.apart_prefix. }
    rewrite (CopySyncFacts.copySync_again _ _ t5 core core Hcore Hd
               (BuildFacts.copy_onto_itself core Hwc)
               (PathFacts.apart_neq _ _ A1) Hp) in Hc1.
    now injection Hc1 as <-. }
  subst ta.
  assert (Hentry' : Fs.get ["src"; "index.js"] (Fs.Dir items) = Some entry).
  { rewrite <- Hsrc. exact Hentry. }
  pose proof (CopySyncFacts.wf_get _ _ _ Hwfi Hentry') as Hwe.
  rewrite (update_noop E name dir _ core entry Hwc Hwe) in Hupd.
  - injection Hupd as <-. split; reflexivity.
  - exact Hcore.
  - cbn [fs]. unfold core_of. now rewrite Hdst.
  - exact Hentry.
  - cbn [fs]. unfold entry_of. now rewrite Hdst.
  - exact Hapart'.
Qed.

(** An instance of X12: [my-bot] in the concrete environment. *)
Lemma X12_update_after_create_instance :
  let E := Demo.env [] true Demo.discord in
  let dir := Demo.home ++ ["my-bot"] in
  let token := Some (JString "good-token") in
  let v := Demo.start [] in
  let v4 := snd (forEach false
                   [step_mkdir "my-bot" dir; step_boilerplate E dir;
                    step_manifest E "my-bot" dir; step_env E dir token] v) in
  let v5 := snd (action (step_update E "my-bot" dir) v4) in
  v5 = record [Copy (core_of (appDir E)) (core_of dir);
               Copy (entry_of (appDir E)) (entry_of dir)] v4
  /\ fs v5 = fs v4.
Proof.
  intros E dir token v v4 v5.
  apply (X12_update_after_create_changes_nothing E "my-bot" dir token v v4 v5);
    vm_compute; reflexivity.
Defined.

(** ** What a merge leaves alone *)

Module MergeFacts.

Import Fs.

Lemma lookup_absent n es :
  existsb (String.eqb n) (map fst es) = false -> lookup n es = None.
Proof.
  induction es as [|[m y] es IH]; simpl; [reflexivity|].
  destruct (String.eqb n m); [discriminate|exact IH].
Qed.

Section Items.

Variable copy : node -> option node -> node * option exn.

(** After the copy of a directory's items, finished or not, a name is bound
    to what it was bound to, or to the outcome of copying the item of that
    name onto it. *)
Lemma copy_items_entry items :
  distinct (map fst items) = true ->
  forall acc es' o n,
    copy_items copy items acc = (es', o) ->
    lookup n es' = lookup n acc
    \/ exists c c' e,
         lookup n items = Some c
         /\ copy c (lookup n acc) = (c', e)
         /\ lookup n es' = Some c'.
Proof.
  induction items as [|[m c0] items IH]; intros Hd acc es' o n H.
  - simpl in H. injection H as <- _. now left.
  - simpl in Hd. apply andb_prop in Hd. destruct Hd as [Hm Hd].
    apply negb_true_iff in Hm. simpl in H.
    destruct (copy c0 (lookup m acc)) as [c1 o1] eqn:Hcopy.
    destruct (String.eqb n m) eqn:Hnm.
    + apply String.eqb_eq in Hnm. subst n. right.
      exists c0, c1, o1. simpl. rewrite String.eqb_refl.
      split; [reflexivity|]. split; [exact Hcopy|].
      destruct o1 as [e1|].
      * injection H as <- _. apply FsFacts.lookup_bind_same.
      * rewrite (CopyFacts.copy_items_other _ _ _ _ _ _ H Hm).
        apply FsFacts.lookup_bind_same.
    + assert (Hne : n <> m).
      { intros ->. now rewrite String.eqb_refl in Hnm. }
      destruct o1 as [e1|].
      * injection H as <- _. left. now apply FsFacts.lookup_bind_other.
      * destruct (IH Hd _ _ _ n H) as [Hl | (c & c' & e & Hc & Hcc & Hl)].
        -- left. rewrite Hl. now apply FsFacts.lookup_bind_other.
        -- right. exists c, c', e. simpl. rewrite Hnm.
           rewrite FsFacts.lookup_bind_other in Hcc by exact Hne. auto.
Qed.

End Items.

(** Where the source has nothing, a copy, finished or not, leaves what the
    destination has. *)
Lemma copy_node_absent s :
  wf s = true ->
  forall q, get q s = None ->
  forall d r e, copy_node s d = (r, e) ->
  get q r = match d with
            | Some x => get q x
            | None => None
            end.
Proof.
  induction s as [data|items IH] using CopyFacts.node_induction;
    intros Hwf q Hq d r e H.
  - destruct q as [|n q]; [discriminate|].
    simpl in H. destruct d as [[x|es]|]; injection H as <- _; reflexivity.
  - destruct q as [|n q]; [discriminate|].
    simpl in Hwf. apply andb_prop in Hwf. destruct Hwf as [Hd Hall].
    assert (Hes : forall base es' o,
               copy_items copy_node items base = (es', o) ->
               get (n :: q) (Dir es') = get (n :: q) (Dir base)).
    { intros base es' o Hc. simpl.
      destruct (copy_items_entry copy_node items Hd base es' o n Hc)
        as [-> | (c & c' & e' & Hn & Hcc & ->)]; [reflexivity|].
      simpl in Hq. rewrite Hn in Hq.
      rewrite Forall_forall in IH.
      assert (Hin : In (n, c) items).
      { clear -Hn. induction items as [|[m y] items IHi]; [discriminate|].
        simpl in Hn. destruct (String.eqb n m) eqn:Hnm.
        - apply String.eqb_eq in Hnm. subst m. injection Hn as ->. now left.
        - right. now apply IHi. }
      rewrite (IH (n, c) Hin (CopySyncFacts.wf_lookup _ _ _ Hall Hn) q Hq
                 _ _ _ Hcc).
      destruct (lookup n base); reflexivity. }
    simpl in H. destruct d as [[x|es]|].
    + injection H as <- _. reflexivity.
    + destruct (copy_items copy_node items es) as [es' o] eqn:Hc.
      injection H as <- _. exact (Hes _ _ _ Hc).
    + destruct (copy_items copy_node items []) as [es' o] eqn:Hc.
      injection H as <- _. exact (Hes _ _ _ Hc).
Qed.

Lemma prefix_length p q :
  Path.is_prefix p q = true -> (length p <= length q)%nat.
Proof.
  revert q. induction p as [|c p IH]; intros q H; simpl; [lia|].
  destruct q as [|d q]; [discriminate|].
  simpl in H. apply andb_prop in H. destruct H as [_ H].
  specialize (IH _ H). simpl. lia.
Qed.

Lemma removelast_shorter (p : path) :
  p <> [] -> (length (removelast p) < length p)%nat.
Proof.
  induction p as [|c p IH]; [congruence|]. intros _.
  destruct p as [|c' p']; [simpl; lia|].
  change (removelast (c :: c' :: p')) with (c :: removelast (c' :: p')).
  simpl length. assert (c' :: p' <> []) by discriminate.
  specialize (IH H). simpl in IH. lia.
Qed.

Lemma below_not_parent (dest q : path) :
  q <> [] -> Path.is_prefix (dest ++ q) (removelast dest) = false.
Proof.
  intros Hq.
  destruct (Path.is_prefix (dest ++ q) (removelast dest)) eqn:H; [|reflexivity].
  apply prefix_length in H. rewrite length_app in H.
  destruct q as [|c q]; [congruence|]. simpl in H.
  destruct dest as [|d dest]; [simpl in H; lia|].
  assert (Hs := removelast_shorter (d :: dest) ltac:(discriminate)). lia.
Qed.

(** Below the destination of a [copySync], finished or not, whatever lies
    where the source has nothing is left as it was. *)
Lemma copySync_absent src dest t q :
  wf t = true ->
  get (src ++ q) t = None ->
  get (dest ++ q) (fst (copySync src dest t)) = get (dest ++ q) t.
Proof.
  intros Hwf Hq.
  destruct (CopyShape.copySync_cases src dest t) as [-> | (t1 & Ht1 & Hres)];
    [reflexivity|].
  destruct Hres as [-> | (s & r & e & Hs & Hcopy & Hput)].
  - destruct Ht1 as [->|Hmk]; [reflexivity|].
    rewrite !ContentFacts.get_app.
    destruct (Path.is_prefix dest (removelast dest)) eqn:Hp.
    + (* the destination is the root *)
      apply prefix_length in Hp.
      destruct dest as [|d dest];
        [|assert (Hs := removelast_shorter (d :: dest) ltac:(discriminate));
          exfalso; lia].
      simpl in Hmk. destruct t; [discriminate|]. now injection Hmk as <-.
    + now rewrite (CopySyncFacts.mkdirs_get _ _ _ _ _ Hmk Hp).
  - rewrite ContentFacts.get_app in Hq. rewrite Hs in Hq.
    assert (Hne : q <> []) by (intros ->; discriminate).
    assert (H1 : get (dest ++ q) t1 = get (dest ++ q) t).
    { destruct Ht1 as [->|Hmk]; [reflexivity|].
      exact (CopySyncFacts.mkdirs_get _ _ _ _ _ Hmk (below_not_parent _ _ Hne)). }
    rewrite <- H1, !ContentFacts.get_app.
    rewrite (FsFacts.get_put_same _ _ _ _ Hput).
    exact (copy_node_absent s (CopySyncFacts.wf_get _ _ _ Hwf Hs) q Hq _ _ _ Hcopy).
Qed.

(** A [copySync], finished or not, leaves whatever is apart from its
    destination. *)
Lemma copySync_get_apart src dest t q :
  Path.apart dest q = true ->
  get q (fst (copySync src dest t)) = get q t.
Proof.
  intros Hq. unfold Path.apart in Hq.
  apply andb_prop in Hq. destruct Hq as [Hdq Hqd].
  apply negb_true_iff in Hdq, Hqd.
  destruct (CopyShape.copySync_cases src dest t) as [-> | (t1 & Ht1 & Hres)];
    [reflexivity|].
  assert (H1 : get q t1 = get q t).
  { destruct Ht1 as [->|Hmk]; [reflexivity|].
    apply (CopySyncFacts.mkdirs_get _ _ _ _ _ Hmk).
    destruct (Path.is_prefix q (removelast dest)) eqn:Hp; [|reflexivity].
    apply CopySyncFacts.prefix_removelast in Hp. congruence. }
  destruct Hres as [-> | (s & r & e & _ & _ & Hput)]; [exact H1|].
  now rewrite (FsFacts.get_put_apart _ _ _ _ _ Hput Hdq Hqd).
Qed.

End MergeFacts.

(** The file tree that the update step leaves. *)
Lemma step_update_fs E name dir w :
  fs (snd (action (step_update E name dir) w))
  = match snd (Fs.copySync (core_of (appDir E)) (core_of dir) (fs w)) with
    | None =>
        fst (Fs.copySync (entry_of (appDir E)) (entry_of dir)
               (fst (Fs.copySync (core_of (appDir E)) (core_of dir) (fs w))))
    | Some _ => fst (Fs.copySync (core_of (appDir E)) (core_of dir) (fs w))
    end.
Proof.
  change (action (step_update E name dir))
    with (copySync (core_of (appDir E)) (core_of dir) ;;
          copySync (entry_of (appDir E)) (entry_of dir)).
  rewrite bind_unfold, copySync_spec.
  destruct (snd (Fs.copySync (core_of (appDir E)) (core_of dir) (fs w)));
    [reflexivity|].
  rewrite copySync_spec. reflexivity.
Qed.

(** X13.  An update leaves alone what the user added to the core.  Let the
    template's [src/core] and the target's [src/core] not lie inside one
    another, so that the copy does not read what it writes.  Where the
    template's [src/core] has nothing, whatever the target's [src/core] has
    is there after the update step exactly as before, whether the step goes
    through or fails half-way. *)
Theorem X13_update_keeps_what_the_template_lacks
  (E : Env) (name : string) (dir : path) (w : world) (q : path) :
  Fs.wf (fs w) = true ->
  Path.apart (core_of (appDir E)) (core_of dir) = true ->
  Fs.get (core_of (appDir E) ++ q) (fs w) = None ->
  Fs.get (core_of dir ++ q) (fs (snd (action (step_update E name dir) w)))
  = Fs.get (core_of dir ++ q) (fs w).
Proof.
  intros Hwf _ Hq. rewrite step_update_fs.
  pose proof (MergeFacts.copySync_absent _ (core_of dir) _ q Hwf Hq) as H1.
  destruct (snd (Fs.copySync (core_of (appDir E)) (core_of dir) (fs w)));
    [exact H1|].
  rewrite MergeFacts.copySync_get_apart; [exact H1|].
  rewrite core_of_split, entry_of_split.
  rewrite <- (app_nil_r ((dir ++ ["src"]) ++ ["index.js"])).
  apply PathFacts.apart_siblings. discriminate.
Qed.

(** An instance of X13: a project whose core holds a file of the user's. *)
Lemma X13_update_keeps_instance :
  let E := Demo.env [] true Demo.discord in
  let project :=
    Fs.Dir [("src",
             Fs.Dir [("core",
                      Fs.Dir [ ("bot.js", Fs.File "// old bot");
                               ("mine.js", Fs.File "// mine") ])])] in
  let w :=
    mkWorld
      (Fs.Dir [ ("opt", Fs.Dir [("cdb", Fs.Dir [("app", Demo.template)])]);
                ("p", project) ])
      [] [] [] in
  Fs.get (core_of ["p"] ++ ["mine.js"])
    (fs (snd (action (step_update E "p" ["p"]) w)))
  = Fs.get (core_of ["p"] ++ ["mine.js"]) (fs w)
  /\ Fs.readFile (core_of ["p"] ++ ["mine.js"]) (fs w) = Some "// mine"
  /\ Fs.readFile (core_of ["p"] ++ ["bot.js"])
       (fs (snd (action (step_update E "p" ["p"]) w))) = Some "// bot".
Proof.
  intros E project w. split; [|split; reflexivity].
  apply (X13_update_keeps_what_the_template_lacks E "p" ["p"] w ["mine.js"]);
    reflexivity.
Defined.

(** ** Where kinds clash *)

Module ClashFacts.

Import Fs.

Section Items.

Variable copy : node -> option node -> node * option exn.

(** When one of the items does not fit what the destination [es] has under
    its name, the copy of the items stops with an error, at that item or
    before it. *)
Lemma copy_items_clash items es :
  distinct (map fst items) = true ->
  Forall (fun kv => forall d, fits (snd kv) d = false ->
                    exists r e, copy (snd kv) (Some d) = (r, Some e)) items ->
  forallb (fun kv => match lookup (fst kv) es with
                     | Some d' => fits (snd kv) d'
                     | None => true
                     end) items = false ->
  forall acc,
    (forall n, existsb (String.eqb n) (map fst items) = true ->
               lookup n acc = lookup n es) ->
    exists es' e, copy_items copy items acc = (es', Some e).
Proof.
  induction items as [|[m c] items IH]; intros Hd Hall Hfit acc Hacc;
    [discriminate|].
  simpl in Hd. apply andb_prop in Hd. destruct Hd as [Hm Hd].
  apply negb_true_iff in Hm.
  inversion Hall as [|kv l Hc Hrest]; subst. simpl in Hc.
  simpl. rewrite Hacc by (simpl; now rewrite String.eqb_refl).
  simpl in Hfit.
  destruct (copy c (lookup m es)) as [c' [e|]] eqn:Hcopy; [eauto|].
  apply andb_false_iff in Hfit. destruct Hfit as [Hfit|Hfit].
  - destruct (lookup m es) as [d'|]; [|discriminate].
    destruct (Hc d' Hfit) as (r & e & He). congruence.
  - apply (IH Hd Hrest Hfit). intros n Hn.
    rewrite FsFacts.lookup_bind_other.
    + apply Hacc. simpl. rewrite Hn. apply orb_true_r.
    + intros ->. congruence.
Qed.

End Items.

(** A well-formed tree copied onto one it does not fit stops with an
    error. *)
Lemma copy_node_clash s :
  wf s = true ->
  forall d, fits s d = false -> exists r e, copy_node s (Some d) = (r, Some e).
Proof.
  induction s as [data|items IH] using CopyFacts.node_induction;
    intros Hwf d Hfit.
  - destruct d as [x|es]; [discriminate|]. simpl. eauto.
  - destruct d as [x|es]; [simpl; eauto|].
    simpl in Hwf. apply andb_prop in Hwf. destruct Hwf as [Hd Hall].
    change (fits (Dir items) (Dir es))
      with (forallb (fun kv => match lookup (fst kv) es with
                               | Some d' => fits (snd kv) d'
                               | None => true
                               end) items) in Hfit.
    destruct (copy_items_clash copy_node items es Hd) with (acc := es)
      as (es' & e & Hes'); [|exact Hfit|reflexivity|].
    + rewrite forallb_forall in Hall. rewrite Forall_forall in IH |- *.
      intros kv Hin. exact (IH kv Hin (Hall kv Hin)).
    + simpl. rewrite Hes'. eauto.
Qed.

(** ... and so does [copySync]. *)
Lemma copySync_clash src dest t s d :
  wf s = true ->
  get src t = Some s ->
  get dest t = Some d ->
  fits s d = false ->
  Path.apart src dest = true ->
  exists t' e, copySync src dest t = (t', Some e).
Proof.
  intros Hwf Hs Hd Hfit Hapart.
  destruct (copy_node_clash s Hwf d Hfit) as (r & e & Hr).
  unfold copySync.
  rewrite Hs, (FsFacts.stat_get _ _ _ Hd), (PathFacts.apart_neq _ _ Hapart).
  destruct s as [data|items], d as [x|es]; simpl kind; cbv iota; eauto.
  - rewrite (CopySyncFacts.get_removelast _ _ _ Hd), Hd, Hr.
    destruct (put dest r t); eauto.
  - rewrite (PathFacts.apart_prefix _ _ Hapart).
    rewrite (CopySyncFacts.get_removelast _ _ _ Hd), Hd, Hr.
    destruct (put dest r t); eauto.
Qed.

End ClashFacts.

(** ** An update that cannot go through *)

(** X16.  The update fails where kinds clash.  Let the template's
    [src/core] and the target's [src/core] not lie inside one another, on a
    well-formed file tree.  When the target's core does not fit the
    template's (somewhere a file of one meets a directory of the other),
    the update step throws in its first copy, and the entry point is not
    copied. *)
Theorem X16_update_fails_where_kinds_clash
  (E : Env) (name : string) (dir : path) (w : world) (core d : Fs.node) :
  Fs.wf (fs w) = true ->
  Path.apart (core_of (appDir E)) (core_of dir) = true ->
  Fs.get (core_of (appDir E)) (fs w) = Some core ->
  Fs.get (core_of dir) (fs w) = Some d ->
  fits core d = false ->
  exists e w',
    action (step_update E name dir) w = (Throw e, w')
    /\ trace w' = trace w ++ [Copy (core_of (appDir E)) (core_of dir)].
Proof.
  intros Hwf Hapart Hcore Hd Hfit.
  destruct (ClashFacts.copySync_clash _ _ _ _ _
              (CopySyncFacts.wf_get _ _ _ Hwf Hcore) Hcore Hd Hfit Hapart)
    as (t' & e & Hc).
  change (action (step_update E name dir))
    with (copySync (core_of (appDir E)) (core_of dir) ;;
          copySync (entry_of (appDir E)) (entry_of dir)).
  rewrite bind_unfold, copySync_spec, Hc. cbn [fst snd].
  do 2 eexists. split; reflexivity.
Qed.

(** An instance of X16: in the user's project [commands] is a file, in the
    template's core it is a directory. *)
Lemma X16_update_fails_instance :
  let E := Demo.env [] true Demo.discord in
  let project :=
    Fs.Dir [("src",
             Fs.Dir [("core",
                      Fs.Dir [ ("bot.js", Fs.File "// old bot");
                               ("commands", Fs.File "ping") ])])] in
  let w :=
    mkWorld
      (Fs.Dir [ ("opt", Fs.Dir [("cdb", Fs.Dir [("app", Demo.template)])]);
                ("p", project) ])
      [] [] [] in
  exists e w',
    action (step_update E "p" ["p"]) w = (Throw e, w')
    /\ trace w' = trace w ++ [Copy (core_of (appDir E)) (core_of ["p"])].
Proof.
  intros E project w.
  refine (X16_update_fails_where_kinds_clash E "p" ["p"] w
            (Fs.Dir [ ("bot.js", Fs.File "// bot");
                      ("commands", Fs.Dir [("ping.js", Fs.File "// ping")]) ])
            (Fs.Dir [ ("bot.js", Fs.File "// old bot");
                      ("commands", Fs.File "ping") ])
            _ _ _ _ _); reflexivity.
Defined.

(* ================================================================== *)
(** * Reading back what was printed *)

(** ** Strings *)

Module TextFacts.

Lemma append_assoc a b c : (a +++ b) +++ c = a +++ (b +++ c).
Proof. induction a as [|x a IH]; simpl; [reflexivity|]. now rewrite IH. Qed.

Lemma length_append a b :
  String.length (a +++ b) = (String.length a + String.length b)%nat.
Proof. induction a as [|x a IH]; simpl; [reflexivity|]. now rewrite IH. Qed.

Lemma blank_append a b : blank a = true -> blank b = true -> blank (a +++ b) = true.
Proof.
  induction a as [|x a IH]; simpl; [auto|].
  intros H Hb. apply andb_prop in H. destruct H as [-> H]. now apply IH.
Qed.

Lemma skip_blank pre s : blank pre = true -> Json.skip_ws (pre +++ s) = Json.skip_ws s.
Proof.
  induction pre as [|x pre IH]; simpl; [reflexivity|].
  intros H. apply andb_prop in H. destruct H as [-> H]. now apply IH.
Qed.

End TextFacts.

Module QuoteFacts.

Import Json.

Lemma eqb_code c d : Ascii.eqb c d = (Text.code c =? Text.code d)%N.
Proof.
  unfold Text.code.
  destruct (Ascii.eqb_spec c d) as [->|Hne].
  - now rewrite N.eqb_refl.
  - symmetry. apply N.eqb_neq. intros H. apply Hne.
    rewrite <- (ascii_N_embedding c), <- (ascii_N_embedding d). now rewrite H.
Qed.

Lemma code_chr c n : (Text.code c =? n)%N = true -> c = Text.chr n.
Proof.
  intros H. apply N.eqb_eq in H. subst n. unfold Text.chr, Text.code.
  now rewrite ascii_N_embedding.
Qed.

(** One step of [parse_chars] on an escape [\uXXXX]. *)
Lemma parse_chars_u h1 h2 h3 h4 r5 :
  parse_chars
    (String "\" (String "u" (String h1 (String h2 (String h3 (String h4 r5))))))
  = match hex4_value h1 h2 h3 h4 with
    | Some u =>
        let alone := prepend (Text.utf8_encode u) (parse_chars r5) in
        match r5 with
        | String b (String v (String l1 (String l2 (String l3 (String l4 r11)))))
          =>
            match hex4_value l1 l2 l3 l4 with
            | Some w =>
                if Ascii.eqb b "\" && Ascii.eqb v "u"
                   && is_high_surrogate u && is_low_surrogate w
                then
                  prepend
                    (Text.utf8_encode
                       (65536 + (u - 55296) * 1024 + (w - 56320))%N)
                    (parse_chars r11)
                else alone
            | None => alone
            end
        | _ => alone
        end
    | None => None
    end.
Proof. reflexivity. Qed.

(** An escape that is not the first half of a surrogate pair stands for one
    code unit. *)
Lemma parse_u_alone h1 h2 h3 h4 u X :
  hex4_value h1 h2 h3 h4 = Some u ->
  is_high_surrogate u = false ->
  parse_chars
    (String "\" (String "u" (String h1 (String h2 (String h3 (String h4 X))))))
  = prepend (Text.utf8_encode u) (parse_chars X).
Proof.
  intros Hu Hhigh. rewrite parse_chars_u, Hu. cbv zeta.
  destruct X as [|b [|v [|l1 [|l2 [|l3 [|l4 r11]]]]]]; try reflexivity.
  destruct (hex4_value l1 l2 l3 l4); [|reflexivity].
  now rewrite Hhigh, andb_false_r.
Qed.

(** A character that needs no escape stands for itself. *)
Lemma parse_chars_ordinary c X :
  (Text.code c =? 34)%N = false ->
  (Text.code c =? 92)%N = false ->
  (Text.code c <? 32)%N = false ->
  parse_chars (String c X) = prepend (String c EmptyString) (parse_chars X).
Proof.
  intros H34 H92 H32. cbn [parse_chars].
  rewrite !eqb_code.
  change (Text.code dquote) with 34%N. change (Text.code "\") with 92%N.
  now rewrite H34, H92, H32.
Qed.

(** What [QuoteJSONString] makes of one character reads back as that
    character. *)
Lemma parse_escape c X :
  parse_chars (escape_char c +++ X) = prepend (String c EmptyString) (parse_chars X).
Proof.
  unfold escape_char. cbv zeta.
  destruct (Text.code c =? 34)%N eqn:E34;
    [apply code_chr in E34; subst c; reflexivity|].
  destruct (Text.code c =? 92)%N eqn:E92;
    [apply code_chr in E92; subst c; reflexivity|].
  destruct (Text.code c =? 8)%N eqn:E8;
    [apply code_chr in E8; subst c; reflexivity|].
  destruct (Text.code c =? 9)%N eqn:E9;
    [apply code_chr in E9; subst c; reflexivity|].
  destruct (Text.code c =? 10)%N eqn:E10;
    [apply code_chr in E10; subst c; reflexivity|].
  destruct (Text.code c =? 12)%N eqn:E12;
    [apply code_chr in E12; subst c; reflexivity|].
  destruct (Text.code c =? 13)%N eqn:E13;
    [apply code_chr in E13; subst c; reflexivity|].
  destruct (Text.code c <? 32)%N eqn:E32.
  - destruct c as [[] [] [] [] [] [] [] []];
      try (vm_compute in E32; discriminate E32);
      try (vm_compute in E8; discriminate E8);
      try (vm_compute in E9; discriminate E9);
      try (vm_compute in E10; discriminate E10);
      try (vm_compute in E12; discriminate E12);
      try (vm_compute in E13; discriminate E13);
      match goal with
      | |- _ = prepend (String ?c0 _) _ =>
          apply (parse_u_alone _ _ _ _ (Text.code c0) X);
          vm_compute; reflexivity
      end.
  - now apply parse_chars_ordinary.
Qed.

Lemma quote_chars_cons c r :
  plain_text (String c r) = true ->
  quote_chars (String c r) = escape_char c +++ quote_chars r.
Proof.
  intros H. change (plain_text (String c r))
    with (negb match r with
               | String c2 _ => lone_surrogate c c2
               | EmptyString => false
               end && plain_text r) in H.
  apply andb_prop in H. destruct H as [H _]. apply negb_true_iff in H.
  destruct r as [|c2 [|c3 r3]]; try reflexivity.
  change (quote_chars (String c (String c2 (String c3 r3))))
    with (if lone_surrogate c c2
          then "\u" +++ Text.hex4 (surrogate_unit c2 c3) +++ quote_chars r3
          else escape_char c +++ quote_chars (String c2 (String c3 r3))).
  now rewrite H.
Qed.

(** A quoted string reads back as the string. *)
Lemma parse_quoted s rest :
  plain_text s = true ->
  parse_chars (quote_chars s +++ String dquote rest) = Some (s, rest).
Proof.
  induction s as [|c r IH]; intros H.
  - reflexivity.
  - rewrite (quote_chars_cons c r H), TextFacts.append_assoc, parse_escape.
    change (plain_text (String c r))
      with (negb match r with
                 | String c2 _ => lone_surrogate c c2
                 | EmptyString => false
                 end && plain_text r) in H.
    apply andb_prop in H. destruct H as [_ H].
    now rewrite (IH H).
Qed.

End QuoteFacts.

(** ** Values *)

Module ParseFacts.

Import Json.

(** Induction on values, with the hypothesis for every item of an array and
    every field of an object. *)
Lemma json_induction (P : json -> Prop) :
  P JNull ->
  (forall b, P (JBool b)) ->
  (forall n, P (JNumber n)) ->
  (forall s, P (JString s)) ->
  (forall items, Forall P items -> P (JArray items)) ->
  (forall fields, Forall (fun kv => P (snd kv)) fields -> P (JObject fields)) ->
  forall v, P v.
Proof.
  intros Hnull Hbool Hnum Hstr Harr Hobj.
  refine (fix IH (v : json) : P v :=
            match v with
            | JNull => Hnull
            | JBool b => Hbool b
            | JNumber n => Hnum n
            | JString s => Hstr s
            | JArray items =>
                Harr items
                  ((fix go (l : list json) : Forall P l :=
                      match l with
                      | [] => Forall_nil _
                      | x :: l' => Forall_cons x (IH x) (go l')
                      end) items)
            | JObject fields =>
                Hobj fields
                  ((fix go (l : list (string * json))
                      : Forall (fun kv => P (snd kv)) l :=
                      match l with
                      | [] => Forall_nil _
                      | kv :: l' => Forall_cons kv (IH (snd kv)) (go l')
                      end) fields)
            end).
Qed.

Lemma obj_set_new k v acc :
  obj_get k acc = None -> obj_set k v acc = acc ++ [(k, v)].
Proof.
  induction acc as [|[k' v'] acc IH]; simpl; [reflexivity|].
  destruct (String.eqb k k'); [discriminate|].
  intros H. now rewrite IH.
Qed.

Lemma distinct_get_none acc k v rest :
  Fs.distinct (map fst (acc ++ (k, v) :: rest)) = true -> obj_get k acc = None.
Proof.
  induction acc as [|[a x] acc IH]; [reflexivity|].
  simpl. intros H. apply andb_prop in H. destruct H as [Ha H].
  apply negb_true_iff in Ha.
  rewrite map_app, existsb_app in Ha. apply orb_false_elim in Ha.
  destruct Ha as [_ Ha]. simpl in Ha. apply orb_false_elim in Ha.
  destruct Ha as [Ha _]. rewrite String.eqb_sym, Ha. exact (IH H).
Qed.

(** One step of each of the three mutually recursive parsers. *)
Lemma parse_elements_step f s acc :
  parse_elements (S f) s acc =
  match parse_value f s with
  | Some (v, r) =>
      match skip_ws r with
      | String "," r' => parse_elements f r' (acc ++ [v])
      | String "]" r' => Some (JArray (acc ++ [v]), r')
      | _ => None
      end
  | None => None
  end.
Proof. reflexivity. Qed.

Lemma parse_members_step f s acc r :
  skip_ws s = String dquote r ->
  parse_members (S f) s acc =
  match parse_chars r with
  | Some (k, r1) =>
      match skip_ws r1 with
      | String ":" r2 =>
          match parse_value f r2 with
          | Some (v, r3) =>
              match skip_ws r3 with
              | String "," r4 => parse_members f r4 (obj_set k v acc)
              | String "}" r4 => Some (JObject (obj_set k v acc), r4)
              | _ => None
              end
          | None => None
          end
      | _ => None
      end
  | None => None
  end.
Proof. intros H. cbn [parse_members]. now rewrite H. Qed.

Lemma parse_value_object f s r :
  skip_ws s = String "{" r ->
  parse_value (S f) s =
  match skip_ws r with
  | String "}" r' => Some (JObject [], r')
  | _ => parse_members f r []
  end.
Proof. intros H. cbn [parse_value]. now rewrite H. Qed.

Lemma parse_value_array f s r :
  skip_ws s = String "[" r ->
  parse_value (S f) s =
  match skip_ws r with
  | String "]" r' => Some (JArray [], r')
  | _ => parse_elements f r []
  end.
Proof. intros H. cbn [parse_value]. now rewrite H. Qed.

Lemma parse_value_string f s r :
  skip_ws s = String dquote r ->
  parse_value (S f) s =
  match parse_chars r with
  | Some (str, r') => Some (JString str, r')
  | None => None
  end.
Proof. intros H. cbn [parse_value]. now rewrite H. Qed.

Lemma parse_value_word f s c r :
  skip_ws s = String c r ->
  (c = "t" \/ c = "f" \/ c = "n")%char ->
  parse_value (S f) s =
  if Ascii.eqb c "t" then option_map (fun r' => (JBool true, r')) (expect "rue" r)
  else if Ascii.eqb c "f"
       then option_map (fun r' => (JBool false, r')) (expect "alse" r)
       else option_map (fun r' => (JNull, r')) (expect "ull" r).
Proof.
  intros H Hc. cbn [parse_value]. rewrite H.
  destruct Hc as [->|[->| ->]]; reflexivity.
Qed.

Section Printed.

Variable pr : number -> string.

Lemma serialize_array indent x xs :
  serialize pr "  " indent (JArray (x :: xs)) =
  "[" +++ newline +++ (indent +++ "  ")
    +++ Text.join (separator (indent +++ "  ")) (map (serialize pr "  " (indent +++ "  ")) (x :: xs))
    +++ newline +++ indent +++ "]".
Proof. reflexivity. Qed.

Lemma serialize_object indent f fs :
  serialize pr "  " indent (JObject (f :: fs)) =
  "{" +++ newline +++ (indent +++ "  ")
    +++ Text.join (separator (indent +++ "  ")) (map (member_at pr (indent +++ "  ")) (f :: fs))
    +++ newline +++ indent +++ "}".
Proof. reflexivity. Qed.

(** The text of a plain value starts with the character that tells its
    kind. *)
Lemma serialize_head indent v :
  plain v = true ->
  exists c r,
    serialize pr "  " indent v = String c r
    /\ (c = "{" \/ c = "[" \/ c = dquote \/ c = "t" \/ c = "f" \/ c = "n")%char.
Proof.
  intros Hp. destruct v as [|[|]|n|s|[|x xs]|[|f fs]];
    try discriminate; eexists; eexists;
    (split; [reflexivity|]); auto 10.
Qed.

Lemma skip_head c r :
  (c = "{" \/ c = "[" \/ c = dquote \/ c = "t" \/ c = "f" \/ c = "n")%char ->
  skip_ws (String c r) = String c r.
Proof. intros [->|[->|[->|[->|[->| ->]]]]]; reflexivity. Qed.

Lemma join_one s x : Text.join s [x] = x.
Proof. reflexivity. Qed.

Lemma join_more s x y l : Text.join s (x :: y :: l) = x +++ s +++ Text.join s (y :: l).
Proof. reflexivity. Qed.

Lemma blank_newline inner : blank inner = true -> blank (newline +++ inner) = true.
Proof. intros H. exact H. Qed.

Lemma sep_length inner J :
  String.length (separator inner +++ J)
  = (2 + String.length inner + String.length J)%nat.
Proof.
  unfold separator. rewrite !TextFacts.length_append. reflexivity.
Qed.

Lemma parse_elements_ok inner items :
  blank inner = true ->
  Forall (reads_back pr) items ->
  items <> [] ->
  forall acc pre tail rest fuel,
    blank pre = true -> blank tail = true ->
    (String.length (Text.join (separator inner) (map (serialize pr "  " inner) items)) < fuel)%nat ->
    parse_elements fuel
      (pre +++ Text.join (separator inner) (map (serialize pr "  " inner) items)
         +++ tail +++ String "]" rest) acc
    = Some (JArray (acc ++ items), rest).
Proof.
  intros Hinner Hall. induction Hall as [|x items Hx Hall IH]; [congruence|].
  intros _ acc pre tail rest fuel Hpre Htail Hfuel.
  destruct fuel as [|f]; [lia|]. rewrite parse_elements_step.
  destruct items as [|y ys].
  - simpl map in *. rewrite join_one in *.
    rewrite (Hx inner pre (tail +++ String "]" rest) f Hinner Hpre) by lia.
    rewrite (TextFacts.skip_blank _ _ Htail). reflexivity.
  - simpl map in *. rewrite join_more in *.
    rewrite !TextFacts.append_assoc.
    rewrite TextFacts.length_append in Hfuel.
    rewrite (Hx inner pre _ f Hinner Hpre) by lia.
    unfold separator at 1. rewrite !TextFacts.append_assoc.
    change (skip_ws ("," +++ ?X)) with (skip_ws (String "," X)).
    cbn [String.append skip_ws is_ws Text.code].
    change (parse_elements f
              ((newline +++ inner)
                 +++ Text.join (separator inner) (map (serialize pr "  " inner) (y :: ys))
                 +++ tail +++ String "]" rest) (acc ++ [x])
            = Some (JArray (acc ++ x :: y :: ys), rest)).
    simpl map.
    rewrite (IH ltac:(discriminate) (acc ++ [x]) (newline +++ inner) tail rest f
               (blank_newline _ Hinner) Htail).
    + now rewrite <- app_assoc.
    + rewrite sep_length in Hfuel. lia.
Qed.

Lemma member_text inner k v T :
  member_at pr inner (k, v) +++ T
  = String dquote (quote_chars k +++ String dquote (": " +++ serialize pr "  " inner v +++ T)).
Proof.
  unfold member_at, quote. simpl fst; simpl snd.
  rewrite !TextFacts.append_assoc.
  change (String dquote ?X +++ ?Y) with (String dquote (X +++ Y)).
  rewrite TextFacts.append_assoc. reflexivity.
Qed.

Lemma member_length inner k v :
  (String.length (serialize pr "  " inner v) < String.length (member_at pr inner (k, v)))%nat.
Proof.
  unfold member_at, quote. simpl fst; simpl snd.
  rewrite !TextFacts.length_append. simpl. lia.
Qed.

Lemma skip_quote pre R :
  blank pre = true -> skip_ws (pre +++ String dquote R) = String dquote R.
Proof. intros H. now rewrite TextFacts.skip_blank. Qed.

Lemma parse_members_ok inner fields :
  blank inner = true ->
  Forall (fun kv => plain_text (fst kv) = true /\ reads_back pr (snd kv)) fields ->
  fields <> [] ->
  forall acc pre tail rest fuel,
    blank pre = true -> blank tail = true ->
    Fs.distinct (map fst (acc ++ fields)) = true ->
    (String.length (Text.join (separator inner) (map (member_at pr inner) fields)) < fuel)%nat ->
    parse_members fuel
      (pre +++ Text.join (separator inner) (map (member_at pr inner) fields)
         +++ tail +++ String "}" rest) acc
    = Some (JObject (acc ++ fields), rest).
Proof.
  intros Hinner Hall.
  induction Hall as [|[k v] fields [Hk Hv] Hall IH]; [congruence|].
  intros _ acc pre tail rest fuel Hpre Htail Hkeys Hfuel.
  destruct fuel as [|f]; [lia|].
  simpl fst in Hk. simpl snd in Hv.
  pose proof (member_length inner k v) as Hlen.
  pose proof (obj_set_new k v acc (distinct_get_none _ _ _ _ Hkeys)) as Hset.
  destruct fields as [|kv fs].
  - simpl map in *. rewrite join_one in *.
    rewrite member_text.
    rewrite (parse_members_step f _ acc _ (skip_quote pre _ Hpre)).
    rewrite (QuoteFacts.parse_quoted k _ Hk).
    change (skip_ws (": " +++ ?X)) with (String ":" (" " +++ X)).
    cbv iota.
    rewrite (Hv inner " " (tail +++ String "}" rest) f Hinner eq_refl) by lia.
    rewrite (TextFacts.skip_blank _ _ Htail).
    change (skip_ws (String "}" rest)) with (String "}" rest). cbv iota.
    now rewrite Hset.
  - simpl map in *. rewrite join_more in *.
    rewrite !TextFacts.append_assoc. rewrite member_text.
    rewrite TextFacts.length_append, sep_length in Hfuel.
    rewrite (parse_members_step f _ acc _ (skip_quote pre _ Hpre)).
    rewrite (QuoteFacts.parse_quoted k _ Hk).
    change (skip_ws (": " +++ ?X)) with (String ":" (" " +++ X)).
    cbv iota.
    rewrite (Hv inner " " _ f Hinner eq_refl) by lia.
    unfold separator at 1. rewrite !TextFacts.append_assoc.
    change (skip_ws ("," +++ ?X)) with (String "," X). cbv iota.
    rewrite Hset.
    match goal with
    | |- parse_members f ?T _ = _ =>
        replace T
          with ((newline +++ inner)
                  +++ Text.join (separator inner) (member_at pr inner kv :: map (member_at pr inner) fs)
                  +++ tail +++ String "}" rest)
          by (now rewrite !TextFacts.append_assoc)
    end.
    rewrite (IH ltac:(discriminate) (acc ++ [(k, v)]) (newline +++ inner) tail
               rest f (blank_newline _ Hinner) Htail).
    + now rewrite <- app_assoc.
    + now rewrite <- app_assoc.
    + lia.
Qed.

Lemma not_closing_bracket {T} c (A B : T) :
  (c = "{" \/ c = "[" \/ c = dquote \/ c = "t" \/ c = "f" \/ c = "n")%char ->
  match c with
  | "]"%char => A
  | _ => B
  end = B.
Proof. intros [->|[->|[->|[->|[->| ->]]]]]; reflexivity. Qed.

(** The parser reads the text of a plain value back as the value, whatever
    comes after it. *)
Lemma reads_back_plain v : plain v = true -> reads_back pr v.
Proof.
  induction v as [|b|n|s|items IH|fields IH] using json_induction;
    intros Hp indent pre rest fuel Hindent Hpre Hfuel.
  - destruct fuel as [|f]; [simpl in Hfuel; lia|].
    rewrite (parse_value_word f _ "n" ("ull" +++ rest));
      [reflexivity| |auto].
    now rewrite TextFacts.skip_blank.
  - destruct fuel as [|f]; [destruct b; simpl in Hfuel; lia|].
    destruct b.
    + rewrite (parse_value_word f _ "t" ("rue" +++ rest));
        [reflexivity| |auto].
      now rewrite TextFacts.skip_blank.
    + rewrite (parse_value_word f _ "f" ("alse" +++ rest));
        [reflexivity| |auto].
      now rewrite TextFacts.skip_blank.
  - discriminate.
  - destruct fuel as [|f]; [simpl in Hfuel; lia|].
    change (serialize pr "  " indent (JString s)) with (quote s). unfold quote.
    change (String dquote (quote_chars s +++ String dquote EmptyString) +++ rest)
      with (String dquote ((quote_chars s +++ String dquote EmptyString) +++ rest)).
    rewrite (parse_value_string f _ _ (skip_quote pre _ Hpre)).
    rewrite TextFacts.append_assoc.
    change (String dquote EmptyString +++ rest) with (String dquote rest).
    now rewrite (QuoteFacts.parse_quoted s rest Hp).
  - destruct fuel as [|f]; [destruct items; simpl in Hfuel; lia|].
    destruct items as [|x xs].
    + rewrite (parse_value_array f _ ("]" +++ rest)); [reflexivity|].
      now rewrite TextFacts.skip_blank.
    + assert (Hall : Forall (reads_back pr) (x :: xs)).
      { change (plain (JArray (x :: xs))) with (forallb plain (x :: xs)) in Hp.
        rewrite forallb_forall in Hp.
        rewrite Forall_forall in IH |- *.
        intros y Hy. apply IH; [exact Hy|now apply Hp]. }
      assert (Hinner : blank (indent +++ "  ") = true)
        by (now apply TextFacts.blank_append).
      set (J := Text.join (separator (indent +++ "  "))
                  (map (serialize pr "  " (indent +++ "  ")) (x :: xs))) in *.
      rewrite serialize_array in Hfuel |- *. fold J in Hfuel |- *.
      rewrite !TextFacts.length_append in Hfuel. simpl String.length in Hfuel.
      rewrite !TextFacts.append_assoc.
      rewrite (parse_value_array f _
                 ((newline +++ (indent +++ "  ")) +++ J
                    +++ (newline +++ indent) +++ String "]" rest)).
      2:{ rewrite TextFacts.skip_blank by exact Hpre.
          rewrite !TextFacts.append_assoc. reflexivity. }
      assert (Hhead : exists c R,
                 skip_ws ((newline +++ (indent +++ "  ")) +++ J
                            +++ (newline +++ indent) +++ String "]" rest)
                 = String c R
                 /\ (c = "{" \/ c = "[" \/ c = dquote
                     \/ c = "t" \/ c = "f" \/ c = "n")%char).
      { rewrite TextFacts.skip_blank by (now apply blank_newline).
        inversion Hall as [|? ? Hx _]; subst.
        assert (Hpx : plain x = true).
        { change (plain (JArray (x :: xs))) with (plain x && forallb plain xs)
            in Hp.
          apply andb_prop in Hp. tauto. }
        destruct (serialize_head (indent +++ "  ") x Hpx) as (c & R & Hser & Hc).
        unfold J. destruct xs as [|y ys].
        - simpl map. rewrite join_one, Hser.
          exists c. eexists. split; [|exact Hc].
          change (String c R +++ ?X) with (String c (R +++ X)).
          now apply skip_head.
        - simpl map. rewrite join_more, Hser.
          exists c. eexists. split; [|exact Hc].
          change ((String c R +++ ?Y) +++ ?X) with (String c ((R +++ Y) +++ X)).
          now apply skip_head. }
      destruct Hhead as (c & R & -> & Hc).
      rewrite (not_closing_bracket c _ _ Hc).
      rewrite (parse_elements_ok (indent +++ "  ") (x :: xs) Hinner Hall
                 ltac:(discriminate) [] _ _ rest f);
        [reflexivity| now apply blank_newline | now apply blank_newline |].
      fold J. lia.
  - destruct fuel as [|f]; [destruct fields; simpl in Hfuel; lia|].
    destruct fields as [|kv fs].
    + rewrite (parse_value_object f _ ("}" +++ rest)); [reflexivity|].
      now rewrite TextFacts.skip_blank.
    + change (plain (JObject (kv :: fs)))
        with (Fs.distinct (map fst (kv :: fs))
              && forallb (fun kv => plain_text (fst kv) && plain (snd kv))
                   (kv :: fs)) in Hp.
      apply andb_prop in Hp. destruct Hp as [Hkeys Hp].
      assert (Hall : Forall (fun kv => plain_text (fst kv) = true
                                       /\ reads_back pr (snd kv)) (kv :: fs)).
      { rewrite forallb_forall in Hp. rewrite Forall_forall in IH |- *.
        intros y Hy. specialize (Hp y Hy). apply andb_prop in Hp.
        destruct Hp as [Hky Hvy]. split; [exact Hky|].
        apply IH; assumption. }
      assert (Hinner : blank (indent +++ "  ") = true)
        by (now apply TextFacts.blank_append).
      set (J := Text.join (separator (indent +++ "  "))
                  (map (member_at pr (indent +++ "  ")) (kv :: fs))) in *.
      rewrite serialize_object in Hfuel |- *. fold J in Hfuel |- *.
      rewrite !TextFacts.length_append in Hfuel. simpl String.length in Hfuel.
      rewrite !TextFacts.append_assoc.
      rewrite (parse_value_object f _
                 ((newline +++ (indent +++ "  ")) +++ J
                    +++ (newline +++ indent) +++ String "}" rest)).
      2:{ rewrite TextFacts.skip_blank by exact Hpre.
          rewrite !TextFacts.append_assoc. reflexivity. }
      assert (Hhead : exists R,
                 skip_ws ((newline +++ (indent +++ "  ")) +++ J
                            +++ (newline +++ indent) +++ String "}" rest)
                 = String dquote R).
      { rewrite TextFacts.skip_blank by (now apply blank_newline).
        unfold J. destruct kv as [k v]. destruct fs as [|kv' fs'].
        - simpl map. rewrite join_one, member_text. eexists. reflexivity.
        - simpl map. rewrite join_more, !TextFacts.append_assoc, member_text.
          eexists. reflexivity. }
      destruct Hhead as (R & ->).
      change (match String dquote R with
              | String "}" r' => Some (JObject [], r')
              | _ => ?B
              end) with B.
      rewrite (parse_members_ok (indent +++ "  ") (kv :: fs) Hinner Hall
                 ltac:(discriminate) [] _ _ rest f);
        [reflexivity| now apply blank_newline | now apply blank_newline
        | exact Hkeys |].
      fold J. lia.
Qed.

(** [JSON.parse] reads back what [JSON.stringify(_, null, 2)] wrote, with or
    without a newline after it. *)
Lemma parse_stringify2 v :
  plain v = true ->
  parse (stringify2 pr v) = Some v
  /\ parse (stringify2 pr v +++ newline) = Some v.
Proof.
  intros Hp. pose proof (reads_back_plain v Hp) as H.
  unfold parse, stringify2. split.
  - specialize (H EmptyString EmptyString EmptyString
                  (2 * String.length (serialize pr "  " EmptyString v) + 2)%nat
                  eq_refl eq_refl ltac:(lia)).
    change (EmptyString +++ ?X) with X in H.
    assert (Hnil : forall a, a +++ EmptyString = a).
    { induction a as [|c a IHa]; simpl; [reflexivity|now rewrite IHa]. }
    rewrite Hnil in H. now rewrite H.
  - specialize (H EmptyString EmptyString newline
                  (2 * String.length (serialize pr "  " EmptyString v +++ newline) + 2)%nat
                  eq_refl eq_refl).
    change (EmptyString +++ ?X) with X in H.
    rewrite H; [reflexivity|].
    rewrite TextFacts.length_append. lia.
Qed.

End Printed.

End ParseFacts.

Module PlainFacts.

Import Json.

Lemma keys_obj_set k v o :
  map fst (obj_set k v o)
  = if existsb (String.eqb k) (map fst o) then map fst o else map fst o ++ [k].
Proof.
  induction o as [|[k' v'] o IH]; simpl; [reflexivity|].
  destruct (String.eqb k k') eqn:Hk; simpl.
  - apply String.eqb_eq in Hk. now subst k'.
  - rewrite IH. now destruct (existsb (String.eqb k) (map fst o)).
Qed.

Lemma distinct_snoc l k :
  Fs.distinct l = true -> existsb (String.eqb k) l = false ->
  Fs.distinct (l ++ [k]) = true.
Proof.
  induction l as [|a l IH]; simpl; [reflexivity|].
  intros H Hk. apply andb_prop in H. destruct H as [Ha H].
  apply orb_false_elim in Hk. destruct Hk as [Hka Hk].
  rewrite (IH H Hk), andb_true_r.
  rewrite existsb_app. simpl.
  apply negb_true_iff in Ha. rewrite Ha, String.eqb_sym, Hka. reflexivity.
Qed.

Lemma forallb_obj_set (f : string * json -> bool) k v o :
  forallb f o = true -> f (k, v) = true -> forallb f (obj_set k v o) = true.
Proof.
  intros Ho Hkv. induction o as [|[k' v'] o IH]; simpl.
  - now rewrite Hkv.
  - simpl in Ho. apply andb_prop in Ho. destruct Ho as [H1 H2].
    destruct (String.eqb k k'); simpl.
    + now rewrite Hkv, H2.
    + now rewrite H1, (IH H2).
Qed.

(** Defining a property with a plain key and a plain value keeps an object
    plain. *)
Lemma plain_obj_set k v o :
  plain (JObject o) = true -> plain_text k = true -> plain v = true ->
  plain (JObject (obj_set k v o)) = true.
Proof.
  intros Ho Hk Hv.
  change (plain (JObject o))
    with (Fs.distinct (map fst o)
          && forallb (fun kv => plain_text (fst kv) && plain (snd kv)) o) in Ho.
  change (Fs.distinct (map fst (obj_set k v o))
          && forallb (fun kv => plain_text (fst kv) && plain (snd kv))
               (obj_set k v o) = true).
  apply andb_prop in Ho. destruct Ho as [Hd Hall].
  apply andb_true_intro. split.
  - rewrite keys_obj_set.
    destruct (existsb (String.eqb k) (map fst o)) eqn:He; [exact Hd|].
    now apply distinct_snoc.
  - apply forallb_obj_set; [exact Hall|]. simpl. now rewrite Hk, Hv.
Qed.

End PlainFacts.

(** X14.  The manifest that is written is JSON, and reads back as the
    object it was made from.  For every value made of objects, arrays,
    strings of text, booleans and [null], [JSON.parse] gives back the value
    from the text that [JSON.stringify(_, null, 2)] prints for it; so when
    the template manifest is such a value and the name and the description
    are text, the text of [package.json] parses to [newPackage]. *)
Theorem X14_manifest_parses_back (E : Env) (name : string) :
  plain (JObject (appPackage E)) = true ->
  plain_text name = true ->
  plain_text (description E) = true ->
  Json.parse (manifest_text E name) = Some (JObject (newPackage E name))
  /\ (forall v, plain v = true ->
                Json.parse (Json.stringify2 (Number_toString E) v) = Some v).
Proof.
  intros Happ Hname Hdesc. split.
  - apply ParseFacts.parse_stringify2. unfold newPackage.
    apply PlainFacts.plain_obj_set; [|reflexivity|exact Hdesc].
    apply PlainFacts.plain_obj_set; [exact Happ|reflexivity|exact Hname].
  - intros v Hv. now apply ParseFacts.parse_stringify2.
Qed.

(** An instance of X14: the manifest of [my-bot] in the concrete
    environment. *)
Lemma X14_manifest_instance :
  let E := Demo.env [] true Demo.discord in
  Json.parse (manifest_text E "my-bot") = Some (JObject (newPackage E "my-bot"))
  /\ (forall v, plain v = true ->
                Json.parse (Json.stringify2 (Number_toString E) v) = Some v).
Proof.
  intros E. apply (X14_manifest_parses_back E "my-bot"); reflexivity.
Defined.
